(** * The timesheet backend: request handlers over a key-value store

    A shallow embedding of the server of the timesheet application (the
    Hono application that registers the routes under
    [/make-server-3af6643f/]).  Every handler is a read-modify-write
    sequence against a key-value store wrapped in a [try]/[catch] that
    turns any exception into a 500 response; writes made before the
    exception stay.

    Records are schemaless JSON documents and the handlers combine them
    with object spreads, so values are modelled as JSON trees and the
    JavaScript operators the handlers use (truthiness, [===], template
    literals, spreads, [<], [+ 1], array methods) are written out on them. *)

From Stdlib Require Import ZArith String Ascii List Bool Lia.
From stdpp Require Import gmap strings list fin_maps pretty.

Local Open Scope Z_scope.
Local Open Scope string_scope.
Set Warnings "-register-all".

(** ** JSON values

    A value that has been through the store or through a request body is
    a JSON tree.  [undefined] is not a JSON value: a variable or a
    property that may be [undefined] has type [option json], [None] being
    [undefined].  The numbers the handlers compute with are use counters
    and epoch milliseconds, integers on which JavaScript's doubles are
    exact, and are modelled as [Z]; [NaN] is the [None] of [option Z]. *)
Inductive json : Type :=
| JNull
| JBool (b : bool)
| JNum (n : Z)
| JStr (s : string)
| JArr (l : list json)
| JObj (o : gmap string json).

(** ToBoolean: what [if (x)], [!x] and [x || y] test. *)
Definition truthy (v : option json) : bool :=
  match v with
  | None | Some JNull => false
  | Some (JBool b) => b
  | Some (JNum n) => negb (Z.eqb n 0)
  | Some (JStr s) => negb (String.eqb s "")
  | Some (JArr _) | Some (JObj _) => true
  end.

(** [a === b].  Arrays and objects are compared by reference; the operands
    of every [===] and [!==] of the handlers come from different
    deserialisations, so two arrays or objects are never the same one. *)
Definition strict_eq (a b : option json) : bool :=
  match a, b with
  | None, None => true
  | Some JNull, Some JNull => true
  | Some (JBool x), Some (JBool y) => Bool.eqb x y
  | Some (JNum x), Some (JNum y) => Z.eqb x y
  | Some (JStr x), Some (JStr y) => String.eqb x y
  | _, _ => false
  end.

(** [v.f] on a value that is neither [null] nor [undefined]: only objects
    have the properties the handlers read. *)
Definition prop (v : json) (f : string) : option json :=
  match v with
  | JObj o => o !! f
  | _ => None
  end.

(** [`${v}`]: ToString, as template literals apply it. *)
Fixpoint to_string (v : json) : string :=
  match v with
  | JNull => "null"
  | JBool true => "true"
  | JBool false => "false"
  | JNum n => pretty n
  | JStr s => s
  | JArr l =>
      (fix join (l : list json) : string :=
         match l with
         | [] => ""
         | x :: r =>
             match x with JNull => "" | _ => to_string x end
             +:+ match r with [] => "" | _ :: _ => "," +:+ join r end
         end) l
  | JObj _ => "[object Object]"
  end.

Definition show (v : option json) : string :=
  match v with
  | None => "undefined"
  | Some x => to_string x
  end.

(** The one-character strings of a string, as indexing and iteration
    produce them. *)
Fixpoint chars (s : string) : list json :=
  match s with
  | EmptyString => []
  | String a r => JStr (String a EmptyString) :: chars r
  end.

(** The own enumerable properties an object spread [{...v}] copies:
    the fields of an object, the indices of an array or of a string,
    nothing for the other values. *)
Definition indexed (l : list json) : gmap string json :=
  list_to_map (imap (fun i x => (pretty i, x)) l).

Definition spread (v : option json) : gmap string json :=
  match v with
  | Some (JObj o) => o
  | Some (JArr l) => indexed l
  | Some (JStr s) => indexed (chars s)
  | _ => ∅
  end.

(** A property [k: v] of an object literal, as it reaches the store or the
    response: serialisation to JSON drops a property whose value is
    [undefined], also when an earlier spread had given it a value. *)
Definition put (k : string) (v : option json) (o : gmap string json)
  : gmap string json :=
  match v with
  | Some x => <[k := x]> o
  | None => delete k o
  end.

(** An object literal [{...b, ...a, k1: v1, ..., kn: vn}]: [base] is what
    the spreads give ([spread a ∪ spread b], the later spread winning),
    [fields] are the named properties in source order. *)
Definition literal (base : gmap string json)
    (fields : list (string * option json)) : json :=
  JObj (fold_left (fun o kv => put kv.1 kv.2 o) fields base).

(** What an array spread [[...v]] iterates: arrays and strings are
    iterable, the other values raise a TypeError ([None]). *)
Definition iterate (v : json) : option (list json) :=
  match v with
  | JArr l => Some l
  | JStr s => Some (chars s)
  | _ => None
  end.

(** [x || y]. *)
Definition or_else (x : option json) (y : json) : json :=
  match x with
  | Some v => if truthy x then v else y
  | None => y
  end.

(** [x = d] in a destructuring pattern: the default replaces [undefined]
    only. *)
Definition or_default (x : option json) (d : json) : json :=
  match x with
  | Some v => v
  | None => d
  end.

(** [s.includes(x)] on a string: [x] occurs in [s]. *)
Definition occurs (x s : string) : bool :=
  match String.index 0 x s with
  | Some _ => true
  | None => false
  end.

(** [v.includes(x)]: membership for an array, substring test for a
    string ([x] converted to a string); the other values have no such
    method, the call raises a TypeError ([None]). *)
Definition includes (v : option json) (x : json) : option bool :=
  match v with
  | Some (JArr l) => Some (existsb (fun y => strict_eq (Some y) (Some x)) l)
  | Some (JStr s) => Some (occurs (to_string x) s)
  | _ => None
  end.

(** [v.filter(p)] and [v.map(f)]: only arrays have these methods. *)
Definition array_of (v : json) : option (list json) :=
  match v with
  | JArr l => Some l
  | _ => None
  end.

(** ** The key-value store *)

(** Modelled from the spec: the key-value store adapter [kv_store.tsx]
    (imported as [kv], not part of the sources): "generic
    get/set/delete/prefix-scan/multi-get operations over string keys
    mapping to arbitrary structured values", without schema or
    transactions.  The store is a finite map from keys to JSON values;
    [get] of a missing key gives [undefined]; the multi-get gives the
    records found under the keys, in the order of the keys; the prefix
    scan gives the values of the keys that start with the prefix.  The
    adapter's own failures (the upstream errors of the spec) are not
    modelled: every operation succeeds. *)
Definition kv_lookup (k : string) (st : gmap string json) : option json :=
  st !! k.

Definition kv_scan (p : string) (st : gmap string json) : list json :=
  map snd (List.filter (fun kv => String.prefix p (fst kv)) (map_to_list st)).

Definition kv_multi (ks : list string) (st : gmap string json) : list json :=
  omap (fun k => st !! k) ks.

(** ** Handler computations

    A computation threads the store and either yields a value or throws
    ([None]); the store at the throw is kept. *)
Definition M (A : Type) : Type := gmap string json -> gmap string json * option A.

Definition ret {A} (a : A) : M A := fun st => (st, Some a).

Definition throw {A} : M A := fun st => (st, None).

Definition bind {A B} (m : M A) (k : A -> M B) : M B :=
  fun st =>
    match m st with
    | (st', Some a) => k a st'
    | (st', None) => (st', None)
    end.

Notation "'let*' x ':=' m 'in' k" := (bind m (fun x => k))
  (at level 10, x name, m at level 200, k at level 200, only parsing).

Notation "m ';;' k" := (bind m (fun _ => k))
  (at level 100, k at level 200, right associativity, only parsing).

(** A partial operation: [None] is the TypeError it raises. *)
Definition try_ {A} (o : option A) : M A :=
  match o with
  | Some a => ret a
  | None => throw
  end.

Definition kv_get (k : string) : M (option json) :=
  fun st => (st, Some (kv_lookup k st)).

Definition kv_set (k : string) (v : json) : M unit :=
  fun st => (<[k := v]> st, Some tt).

Definition kv_del (k : string) : M unit :=
  fun st => (delete k st, Some tt).

Definition kv_mget (ks : list string) : M (list json) :=
  fun st => (st, Some (kv_multi ks st)).

Definition kv_getByPrefix (p : string) : M (list json) :=
  fun st => (st, Some (kv_scan p st)).

(** [v.f] where [v] may be [null] or [undefined]: reading a property of
    those throws. *)
Definition field (v : option json) (f : string) : M (option json) :=
  match v with
  | None | Some JNull => throw
  | Some x => ret (prop x f)
  end.

(** [await c.req.json()]: a request body that is not JSON throws. *)
Definition req_json (body : option json) : M json := try_ body.

(** [const { ... } = b]: destructuring [null] throws. *)
Definition destructure (b : json) : M unit :=
  match b with
  | JNull => throw
  | _ => ret tt
  end.

(** ** Responses *)
Record response : Type := Response { status : Z; payload : json }.

Definition json_ok (v : json) : response := Response 200 v.

Definition json_error (code : Z) (msg : string) : response :=
  Response code (literal ∅ [("error", Some (JStr msg))]).

(** [try { ... } catch (error) { return c.json({ error: msg }, 500) }]. *)
Definition handler (msg : string) (m : M response)
  : gmap string json -> gmap string json * response :=
  fun st =>
    match m st with
    | (st', Some r) => (st', r)
    | (st', None) => (st', json_error 500 msg)
    end.

(** [l.find(p)] and [l.filter(p)] with a callback that may throw
    ([None]): the elements are visited in order and the first throw ends
    the call. *)
Fixpoint find_opt (p : json -> option bool) (l : list json)
  : option (option json) :=
  match l with
  | [] => Some None
  | x :: r =>
      match p x with
      | None => None
      | Some true => Some (Some x)
      | Some false => find_opt p r
      end
  end.

Fixpoint filter_opt (p : json -> option bool) (l : list json)
  : option (list json) :=
  match l with
  | [] => Some []
  | x :: r =>
      match p x with
      | None => None
      | Some b =>
          match filter_opt p r with
          | None => None
          | Some r' => Some (if b then x :: r' else r')
          end
      end
  end.

(** [ids.filter(id => id !== x)]. *)
Definition without (x : string) (l : list json) : list json :=
  List.filter (fun id => negb (strict_eq (Some id) (Some (JStr x)))) l.

(** [x + 1], as stored: number addition for numbers, booleans and [null],
    concatenation for strings, arrays and objects; [undefined + 1] is
    [NaN], which JSON serialises as [null]. *)
Definition plus_one (x : option json) : json :=
  match x with
  | None => JNull
  | Some JNull => JNum 1
  | Some (JBool b) => JNum (if b then 2 else 1)
  | Some (JNum n) => JNum (n + 1)
  | Some (JStr s) => JStr (s +:+ "1")
  | Some v => JStr (to_string v +:+ "1")
  end.

(** ToPrimitive: arrays and objects become their string. *)
Definition to_primitive (v : json) : json :=
  match v with
  | JArr _ | JObj _ => JStr (to_string v)
  | _ => v
  end.

Definition unauthorized : response := json_error 401 "Unauthorized".

Definition success (fields : list (string * option json)) : response :=
  json_ok (literal ∅ (("success", Some (JBool true)) :: fields)).

(** What a request carries besides its route: the identity that
    [verifyUser] resolves the bearer token to ([None] when the token is
    missing or refused), the parsed JSON body ([None] when it does not
    parse), the instant of the request in epoch milliseconds ([Date.now()]
    and [new Date()]) and the strings [Math.random()] gives. *)
Record env : Type := Env {
  caller : option string;
  body : option json;
  now : Z;
  rand : string;
  rand2 : string
}.


(** ** A sample organization

    The scenario of the specification: an organization with one admin
    and one staff member, one project assigned to the admin only, one
    invite code good for a single use, and one timesheet entry of the
    staff member.  The closed examples at the end of the file run the
    handlers on it. *)
Definition sample_admin : json :=
  literal ∅
    [("id", Some (JStr "u_admin")); ("email", Some (JStr "ada@example.org"));
     ("name", Some (JStr "Ada")); ("role", Some (JStr "admin"));
     ("orgId", Some (JStr "org_1"));
     ("createdAt", Some (JStr "2024-01-01T00:00:00.000Z"))].

Definition sample_staff : json :=
  literal ∅
    [("id", Some (JStr "u_staff")); ("email", Some (JStr "sam@example.org"));
     ("name", Some (JStr "Sam")); ("role", Some (JStr "staff"));
     ("orgId", Some (JStr "org_1"));
     ("createdAt", Some (JStr "2024-01-02T00:00:00.000Z"))].

Definition sample_org : json :=
  literal ∅
    [("id", Some (JStr "org_1")); ("name", Some (JStr "Acme"));
     ("createdAt", Some (JStr "2024-01-01T00:00:00.000Z"));
     ("createdBy", Some (JStr "u_admin"))].

Definition sample_project : json :=
  literal ∅
    [("id", Some (JStr "proj_1")); ("name", Some (JStr "Site survey"));
     ("description", Some (JStr "Survey of the north site"));
     ("orgId", Some (JStr "org_1"));
     ("assignedUsers", Some (JArr [JStr "u_admin"]));
     ("createdAt", Some (JStr "2024-01-03T00:00:00.000Z"));
     ("createdBy", Some (JStr "u_admin"))].

Definition sample_code : json :=
  literal ∅
    [("id", Some (JStr "code_1")); ("code", Some (JStr "ABCD1234"));
     ("orgId", Some (JStr "org_1")); ("createdBy", Some (JStr "u_admin"));
     ("createdAt", Some (JStr "2024-01-04T00:00:00.000Z"));
     ("expiresAt", Some JNull); ("maxUses", Some (JNum 1));
     ("currentUses", Some (JNum 0)); ("isActive", Some (JBool true))].

Definition sample_timesheet : json :=
  literal ∅
    [("id", Some (JStr "ts_1")); ("userId", Some (JStr "u_staff"));
     ("projectId", Some (JStr "proj_1")); ("taskName", Some (JStr "Fencing"));
     ("startTime", Some (JStr "2024-01-05T08:00:00.000Z"));
     ("endTime", Some (JStr "2024-01-05T09:30:00.000Z"));
     ("duration", Some (JNum 90)); ("notes", Some (JStr ""));
     ("beforePhotoUrl", Some JNull); ("afterPhotoUrl", Some JNull);
     ("createdAt", Some (JStr "2024-01-05T09:31:00.000Z"))].

Definition sample_store : gmap string json :=
  list_to_map
    [("organizations:org_1", sample_org);
     ("users:u_admin", sample_admin);
     ("users:u_staff", sample_staff);
     ("user-org:u_admin", JStr "org_1");
     ("user-org:u_staff", JStr "org_1");
     ("org-users:org_1", JArr [JStr "u_admin"; JStr "u_staff"]);
     ("projects:proj_1", sample_project);
     ("org-projects:org_1", JArr [JStr "proj_1"]);
     ("invite-codes:code_1", sample_code);
     ("org-invite-codes:org_1", JArr [JStr "code_1"]);
     ("timesheets:ts_1", sample_timesheet);
     ("user-timesheets:u_staff", JArr [JStr "ts_1"])].

(** A request of the examples: all are made at the same instant. *)
Definition request_of (who : option string) (b : option json) : env :=
  Env who b 1704700800000 "k3x9q2mzp" "w8r1t5y7u".

(** A runtime for the examples.  None of them has a date text or a
    numeric string to convert, and the text that stands for an instant
    only has to be some string. *)
Definition sample_iso (t : Z) : string := "@" +:+ pretty t.

Definition sample_parse (s : string) : option Z := None.

Definition sample_add_days (t : Z) (d : json) : option Z :=
  match d with
  | JNum n => Some (t + n * 86400000)
  | _ => None
  end.


(** A second organization for the examples that cross organizations:
    its admin, added to the sample store. *)
Definition other_admin : json :=
  literal ∅
    [("id", Some (JStr "u_olga")); ("email", Some (JStr "olga@example.org"));
     ("name", Some (JStr "Olga")); ("role", Some (JStr "admin"));
     ("orgId", Some (JStr "org_2"));
     ("createdAt", Some (JStr "2024-01-06T00:00:00.000Z"))].

Definition two_orgs : gmap string json :=
  <["users:u_olga" := other_admin]> sample_store.
(** ** The routes *)
Section Server.

(** The functions of the JavaScript runtime that the handlers call and
    that are kept abstract: [new Date(t).toISOString()]; [Date.parse];
    the conversion of a string to a number ([None] is [NaN]); the time
    value of [new Date(t)] after [setDate(getDate() + d)] ([None] is an
    invalid date).  The development holds for every choice of them. *)
Variable to_iso : Z -> string.
Variable date_parse : string -> option Z.
Variable string_to_number : string -> option Z.
Variable add_days : Z -> json -> option Z.

(** ToNumber. *)
Definition to_number (v : option json) : option Z :=
  match v with
  | None => None
  | Some x =>
      match to_primitive x with
      | JNull => Some 0
      | JBool b => Some (if b then 1 else 0)
      | JNum n => Some n
      | JStr s => string_to_number s
      | _ => None
      end
  end.

(** [a < b]: two strings are compared as strings, anything else as
    numbers, and a comparison with [NaN] is false. *)
Definition less_than (a b : option json) : bool :=
  match a, b with
  | Some x, Some y =>
      match to_primitive x, to_primitive y with
      | JStr s, JStr t => String.ltb s t
      | _, _ =>
          match to_number a, to_number b with
          | Some m, Some n => Z.ltb m n
          | _, _ => false
          end
      end
  | _, _ => false
  end.

(** The time value of [new Date(v)]. *)
Definition date_value (v : option json) : option Z :=
  match v with
  | None => None
  | Some x =>
      match to_primitive x with
      | JStr s => date_parse s
      | _ => to_number v
      end
  end.

(** [new Date(v) > new Date()]. *)
Definition in_future (t : Z) (v : option json) : bool :=
  match date_value v with
  | Some d => Z.ltb t d
  | None => false
  end.

(** The test that the callback of [codes.find] makes in the signup route:
    [c.code === inviteCode && c.isActive &&
     (!c.expiresAt || new Date(c.expiresAt) > new Date()) &&
     (!c.maxUses || c.currentUses < c.maxUses)]. *)
Definition valid_code (t : Z) (inviteCode : option json) (c : json) : bool :=
  strict_eq (prop c "code") inviteCode
  && truthy (prop c "isActive")
  && (negb (truthy (prop c "expiresAt")) || in_future t (prop c "expiresAt"))
  && (negb (truthy (prop c "maxUses"))
      || less_than (prop c "currentUses") (prop c "maxUses")).

(** The callback itself: reading [c.code] throws when [c] is [null]. *)
Definition redeemable (t : Z) (inviteCode : option json) (c : json)
  : option bool :=
  match c with
  | JNull => None
  | _ => Some (valid_code t inviteCode c)
  end.

(** [const ids = await kv.get(key) || []; await kv.set(key, [...ids, id])]. *)
Definition index_append (key : string) (id : string) : M unit :=
  let* ids := kv_get key in
  let* l := try_ (iterate (or_else ids (JArr []))) in
  kv_set key (JArr (l ++ [JStr id])).

(** [const ids = await kv.get(key) || [];
     await kv.set(key, ids.filter(x => x !== id))]. *)
Definition index_remove (key : string) (id : string) : M unit :=
  let* ids := kv_get key in
  let* l := try_ (array_of (or_else ids (JArr []))) in
  kv_set key (JArr (without id l)).

(** The caller's own record and the admin gate that opens the admin
    routes: [currentUser.role !== 'admin'] gives 403. *)
Definition is_admin (currentUser : option json) : M bool :=
  let* role := field currentUser "role" in
  ret (strict_eq role (Some (JStr "admin"))).

Definition admin_only : response := json_error 403 "Forbidden - Admin only".

(** The end of the signup route:
    [if (orgId) { await kv.set(`user-org:${userId}`, orgId);
                  (append userId to `org-users:${orgId}`) }]. *)
Definition join_org (userId : string) (orgId : option json) : M unit :=
  match orgId with
  | Some org =>
      if truthy orgId then
        kv_set ("user-org:" +:+ userId) org ;;
        index_append ("org-users:" +:+ show orgId) userId
      else ret tt
  | None => ret tt
  end.

(** POST /signup.  [created] is the answer of the identity provider to
    [createUser]: an error message or the id of the new identity. *)
Definition signup (created : string + string) (e : env)
  : gmap string json -> gmap string json * response :=
  handler "Signup failed" (
    let* b := req_json (body e) in
    destructure b ;;
    let email := prop b "email" in
    let name := prop b "name" in
    let organizationName := prop b "organizationName" in
    let inviteCode := prop b "inviteCode" in
    let role := or_default (prop b "role") (JStr "staff") in
    match created with
    | inl message => ret (json_error 400 message)
    | inr userId =>
        let createdAt := Some (JStr (to_iso (now e))) in
        let* joined :=
          if truthy inviteCode then
            let* codes := kv_getByPrefix "invite-codes:" in
            let* validCode :=
              try_ (find_opt (redeemable (now e) inviteCode) codes) in
            match validCode with
            | None =>
                ret (inl (json_error 400 "Invalid or expired invite code"))
            | Some c =>
                if negb (truthy validCode) then
                  ret (inl (json_error 400 "Invalid or expired invite code"))
                else
                  let orgId := prop c "orgId" in
                  kv_set ("invite-codes:" +:+ show (prop c "id"))
                    (literal (spread validCode)
                       [("currentUses", Some (plus_one (prop c "currentUses")))]) ;;
                  kv_set ("users:" +:+ userId)
                    (literal ∅
                       [("id", Some (JStr userId)); ("email", email);
                        ("name", name); ("role", Some (JStr "staff"));
                        ("orgId", orgId); ("createdAt", createdAt)]) ;;
                  ret (inr orgId)
            end
          else if truthy organizationName then
            let orgId := "org_" +:+ pretty (now e) +:+ "_" +:+ rand e in
            kv_set ("organizations:" +:+ orgId)
              (literal ∅
                 [("id", Some (JStr orgId)); ("name", organizationName);
                  ("createdAt", createdAt);
                  ("createdBy", Some (JStr userId))]) ;;
            kv_set ("users:" +:+ userId)
              (literal ∅
                 [("id", Some (JStr userId)); ("email", email);
                  ("name", name); ("role", Some (JStr "admin"));
                  ("orgId", Some (JStr orgId)); ("createdAt", createdAt)]) ;;
            ret (inr (Some (JStr orgId)))
          else
            kv_set ("users:" +:+ userId)
              (literal ∅
                 [("id", Some (JStr userId)); ("email", email);
                  ("name", name); ("role", Some role);
                  ("orgId", Some JNull); ("createdAt", createdAt)]) ;;
            ret (inr None) in
        match joined with
        | inl refused => ret refused
        | inr orgId =>
            join_org userId orgId ;;
            ret (success [("userId", Some (JStr userId)); ("orgId", orgId);
                          ("message", Some (JStr "User created successfully"))])
        end
    end).

(** [try { m } catch (e) { console.error(e) }]: a throw inside is
    swallowed, what was written before it stays. *)
Definition attempt (m : M unit) : M unit :=
  fun st => (fst (m st), Some tt).

(** POST /invite-codes (admin only).  The catch of this route appends
    the engine's [error.message] to its message; that text is not
    modelled. *)
Definition create_invite_code (e : env)
  : gmap string json -> gmap string json * response :=
  handler "Failed to create invite code: " (
    match caller e with
    | None => ret unauthorized
    | Some uid =>
        let* currentUser := kv_get ("users:" +:+ uid) in
        let* admin := is_admin currentUser in
        if negb admin then ret admin_only else
        let* b := req_json (body e) in
        destructure b ;;
        let expiresInDays := prop b "expiresInDays" in
        let maxUses := prop b "maxUses" in
        let code := rand e in
        let codeId := "code_" +:+ pretty (now e) +:+ "_" +:+ rand2 e in
        let* expiresAt :=
          match expiresInDays with
          | Some d =>
              if truthy expiresInDays
                 && less_than (Some (JNum 0)) expiresInDays
              then
                let* t := try_ (add_days (now e) d) in
                ret (JStr (to_iso t))
              else ret JNull
          | None => ret JNull
          end in
        let* orgId := field currentUser "orgId" in
        let inviteCode :=
          literal ∅
            [("id", Some (JStr codeId)); ("code", Some (JStr code));
             ("orgId", orgId); ("createdBy", Some (JStr uid));
             ("createdAt", Some (JStr (to_iso (now e))));
             ("expiresAt", Some expiresAt);
             ("maxUses", Some (or_else maxUses JNull));
             ("currentUses", Some (JNum 0));
             ("isActive", Some (JBool true))] in
        kv_set ("invite-codes:" +:+ codeId) inviteCode ;;
        let* savedCode := kv_get ("invite-codes:" +:+ codeId) in
        attempt (index_append ("org-invite-codes:" +:+ show orgId) codeId) ;;
        ret (success [("inviteCode", Some inviteCode)])
    end).

(** PUT /invite-codes/:codeId/toggle (admin only). *)
Definition toggle_invite_code (codeId : string) (e : env)
  : gmap string json -> gmap string json * response :=
  handler "Failed to toggle invite code" (
    match caller e with
    | None => ret unauthorized
    | Some uid =>
        let* currentUser := kv_get ("users:" +:+ uid) in
        let* admin := is_admin currentUser in
        if negb admin then ret admin_only else
        let* inviteCode := kv_get ("invite-codes:" +:+ codeId) in
        if negb (truthy inviteCode) then
          ret (json_error 404 "Invite code not found")
        else
          let* codeOrg := field inviteCode "orgId" in
          let* userOrg := field currentUser "orgId" in
          if negb (strict_eq codeOrg userOrg) then
            ret (json_error 403 "Forbidden")
          else
            let* isActive := field inviteCode "isActive" in
            let updatedCode :=
              literal (spread inviteCode)
                [("isActive", Some (JBool (negb (truthy isActive))))] in
            kv_set ("invite-codes:" +:+ codeId) updatedCode ;;
            ret (success [("inviteCode", Some updatedCode)])
    end).

(** DELETE /invite-codes/:codeId (admin only). *)
Definition delete_invite_code (codeId : string) (e : env)
  : gmap string json -> gmap string json * response :=
  handler "Failed to delete invite code" (
    match caller e with
    | None => ret unauthorized
    | Some uid =>
        let* currentUser := kv_get ("users:" +:+ uid) in
        let* admin := is_admin currentUser in
        if negb admin then ret admin_only else
        let* inviteCode := kv_get ("invite-codes:" +:+ codeId) in
        if negb (truthy inviteCode) then
          ret (json_error 404 "Invite code not found")
        else
          let* codeOrg := field inviteCode "orgId" in
          let* userOrg := field currentUser "orgId" in
          if negb (strict_eq codeOrg userOrg) then
            ret (json_error 403 "Forbidden")
          else
            kv_del ("invite-codes:" +:+ codeId) ;;
            index_remove ("org-invite-codes:" +:+ show userOrg) codeId ;;
            ret (success [])
    end).

(** PUT /users/me. *)
Definition update_me (e : env)
  : gmap string json -> gmap string json * response :=
  handler "Failed to update user profile" (
    match caller e with
    | None => ret unauthorized
    | Some uid =>
        let* updates := req_json (body e) in
        let* currentProfile := kv_get ("users:" +:+ uid) in
        if negb (truthy currentProfile) then
          ret (json_error 404 "User profile not found")
        else
          let* role := field currentProfile "role" in
          let* orgId := field currentProfile "orgId" in
          let updatedProfile :=
            literal (spread (Some updates) ∪ spread currentProfile)
              [("id", Some (JStr uid)); ("role", role); ("orgId", orgId)] in
          kv_set ("users:" +:+ uid) updatedProfile ;;
          ret (success [("user", Some updatedProfile)])
    end).

(** PUT /users/:userId (admin only). *)
Definition update_user (userId : string) (e : env)
  : gmap string json -> gmap string json * response :=
  handler "Failed to update user" (
    match caller e with
    | None => ret unauthorized
    | Some uid =>
        let* currentUser := kv_get ("users:" +:+ uid) in
        let* admin := is_admin currentUser in
        if negb admin then ret admin_only else
        let* updates := req_json (body e) in
        let* targetUser := kv_get ("users:" +:+ userId) in
        if negb (truthy targetUser) then
          ret (json_error 404 "User not found")
        else
          let updatedUser :=
            literal (spread (Some updates) ∪ spread targetUser)
              [("id", Some (JStr userId))] in
          kv_set ("users:" +:+ userId) updatedUser ;;
          ret (success [("user", Some updatedUser)])
    end).

(** DELETE /users/:userId (admin only).  The deletion of the identity at
    the provider that follows the store writes has no effect on the
    store and its failure is only logged. *)
Definition delete_user (userId : string) (e : env)
  : gmap string json -> gmap string json * response :=
  handler "Failed to delete user" (
    match caller e with
    | None => ret unauthorized
    | Some uid =>
        let* currentUser := kv_get ("users:" +:+ uid) in
        let* admin := is_admin currentUser in
        if negb admin then ret admin_only else
        if String.eqb userId uid then
          ret (json_error 400 "Cannot delete your own account")
        else
          let* targetUser := kv_get ("users:" +:+ userId) in
          if negb (truthy targetUser) then
            ret (json_error 404 "User not found")
          else
            kv_del ("users:" +:+ userId) ;;
            let* targetOrg := field targetUser "orgId" in
            (if truthy targetOrg then
               let orgUsersKey := "orgs:" +:+ show targetOrg +:+ ":users" in
               index_remove orgUsersKey userId
             else ret tt) ;;
            ret (success [("message", Some (JStr "User deleted successfully"))])
    end).

(** POST /projects (admin only). *)
Definition create_project (e : env)
  : gmap string json -> gmap string json * response :=
  handler "Failed to create project" (
    match caller e with
    | None => ret unauthorized
    | Some uid =>
        let* currentUser := kv_get ("users:" +:+ uid) in
        let* admin := is_admin currentUser in
        if negb admin then ret admin_only else
        let* b := req_json (body e) in
        destructure b ;;
        let name := prop b "name" in
        let description := prop b "description" in
        let assignedUsers := or_default (prop b "assignedUsers") (JArr []) in
        let projectId := "project_" +:+ pretty (now e) +:+ "_" +:+ rand e in
        let* orgId := field currentUser "orgId" in
        let project :=
          literal ∅
            [("id", Some (JStr projectId)); ("name", name);
             ("description", description); ("orgId", orgId);
             ("assignedUsers", Some assignedUsers);
             ("createdAt", Some (JStr (to_iso (now e))));
             ("createdBy", Some (JStr uid))] in
        kv_set ("projects:" +:+ projectId) project ;;
        index_append ("org-projects:" +:+ show orgId) projectId ;;
        ret (success [("project", Some project)])
    end).

(** The callback of the staff filter:
    [p => p.assignedUsers.includes(user.id)]. *)
Definition assigned_to (uid : string) (p : json) : option bool :=
  match p with
  | JNull => None
  | _ => includes (prop p "assignedUsers") (JStr uid)
  end.

(** GET /projects. *)
Definition get_projects (e : env)
  : gmap string json -> gmap string json * response :=
  handler "Failed to fetch projects" (
    match caller e with
    | None => ret unauthorized
    | Some uid =>
        let* currentUser := kv_get ("users:" +:+ uid) in
        let* orgId := field currentUser "orgId" in
        if negb (truthy orgId) then ret (json_ok (JArr [])) else
        let* ids := kv_get ("org-projects:" +:+ show orgId) in
        let* projectIds := try_ (array_of (or_else ids (JArr []))) in
        let* projects :=
          kv_mget (map (fun id => "projects:" +:+ to_string id) projectIds) in
        let* role := field currentUser "role" in
        if strict_eq role (Some (JStr "staff")) then
          let* mine := try_ (filter_opt (assigned_to uid) projects) in
          ret (json_ok (JArr mine))
        else ret (json_ok (JArr projects))
    end).

(** PUT /projects/:projectId (admin only). *)
Definition update_project (projectId : string) (e : env)
  : gmap string json -> gmap string json * response :=
  handler "Failed to update project" (
    match caller e with
    | None => ret unauthorized
    | Some uid =>
        let* currentUser := kv_get ("users:" +:+ uid) in
        let* admin := is_admin currentUser in
        if negb admin then ret admin_only else
        let* updates := req_json (body e) in
        let* project := kv_get ("projects:" +:+ projectId) in
        if negb (truthy project) then
          ret (json_error 404 "Project not found")
        else
          let updatedProject :=
            literal (spread (Some updates) ∪ spread project)
              [("id", Some (JStr projectId))] in
          kv_set ("projects:" +:+ projectId) updatedProject ;;
          ret (success [("project", Some updatedProject)])
    end).

(** DELETE /projects/:projectId (admin only). *)
Definition delete_project (projectId : string) (e : env)
  : gmap string json -> gmap string json * response :=
  handler "Failed to delete project" (
    match caller e with
    | None => ret unauthorized
    | Some uid =>
        let* currentUser := kv_get ("users:" +:+ uid) in
        let* admin := is_admin currentUser in
        if negb admin then ret admin_only else
        let* project := kv_get ("projects:" +:+ projectId) in
        if negb (truthy project) then
          ret (json_error 404 "Project not found")
        else
          kv_del ("projects:" +:+ projectId) ;;
          let* orgId := field currentUser "orgId" in
          index_remove ("org-projects:" +:+ show orgId) projectId ;;
          ret (success [])
    end).

(** [`timesheet_${Date.now()}_${Math.random().toString(36).substr(2, 9)}`]. *)
Definition new_timesheet_id (e : env) : string :=
  "timesheet_" +:+ pretty (now e) +:+ "_" +:+ rand e.

(** POST /timesheets. *)
Definition create_timesheet (e : env)
  : gmap string json -> gmap string json * response :=
  handler "Failed to create timesheet entry" (
    match caller e with
    | None => ret unauthorized
    | Some uid =>
        let* b := req_json (body e) in
        destructure b ;;
        let timesheetId := new_timesheet_id e in
        let timesheet :=
          literal ∅
            [("id", Some (JStr timesheetId)); ("userId", Some (JStr uid));
             ("projectId", prop b "projectId");
             ("taskName", prop b "taskName");
             ("startTime", prop b "startTime");
             ("endTime", prop b "endTime");
             ("duration", prop b "duration");
             ("notes", prop b "notes");
             ("beforePhotoUrl", Some (or_else (prop b "beforePhotoUrl") JNull));
             ("afterPhotoUrl", Some (or_else (prop b "afterPhotoUrl") JNull));
             ("createdAt", Some (JStr (to_iso (now e))))] in
        kv_set ("timesheets:" +:+ timesheetId) timesheet ;;
        index_append ("user-timesheets:" +:+ uid) timesheetId ;;
        ret (success [("timesheet", Some timesheet)])
    end).

(** PUT /timesheets/:timesheetId (owner only). *)
Definition update_timesheet (timesheetId : string) (e : env)
  : gmap string json -> gmap string json * response :=
  handler "Failed to update timesheet entry" (
    match caller e with
    | None => ret unauthorized
    | Some uid =>
        let* updates := req_json (body e) in
        let* timesheet := kv_get ("timesheets:" +:+ timesheetId) in
        if negb (truthy timesheet) then
          ret (json_error 404 "Timesheet not found")
        else
          let* owner := field timesheet "userId" in
          if negb (strict_eq owner (Some (JStr uid))) then
            ret (json_error 403 "Forbidden")
          else
            let updatedTimesheet :=
              literal (spread (Some updates) ∪ spread timesheet)
                [("id", Some (JStr timesheetId));
                 ("userId", Some (JStr uid))] in
            kv_set ("timesheets:" +:+ timesheetId) updatedTimesheet ;;
            ret (success [("timesheet", Some updatedTimesheet)])
    end).

(** DELETE /timesheets/:timesheetId (owner only). *)
Definition delete_timesheet (timesheetId : string) (e : env)
  : gmap string json -> gmap string json * response :=
  handler "Failed to delete timesheet entry" (
    match caller e with
    | None => ret unauthorized
    | Some uid =>
        let* timesheet := kv_get ("timesheets:" +:+ timesheetId) in
        if negb (truthy timesheet) then
          ret (json_error 404 "Timesheet not found")
        else
          let* owner := field timesheet "userId" in
          if negb (strict_eq owner (Some (JStr uid))) then
            ret (json_error 403 "Forbidden")
          else
            kv_del ("timesheets:" +:+ timesheetId) ;;
            index_remove ("user-timesheets:" +:+ uid) timesheetId ;;
            ret (success [])
    end).

(** GET /test-database: writes a probe key, reads it back and deletes
    it.  The [log] array of its response is not modelled. *)
Definition test_database (e : env)
  : gmap string json -> gmap string json * response :=
  handler "Test failed" (
    let testKey := "test-key-" +:+ pretty (now e) in
    let testValue :=
      literal ∅ [("message", Some (JStr "Hello from test"));
                 ("timestamp", Some (JNum (now e)))] in
    kv_set testKey testValue ;;
    let* retrieved := kv_get testKey in
    let* prefixResults := kv_getByPrefix "test-key" in
    kv_del testKey ;;
    ret (success [])).

(** The routes that write to the store, and the project listing.  The
    other routes (health, the reads of organizations, users, invite
    codes and timesheets, the verification of an invite code, the photo
    upload and the two other test routes) call neither [kv.set] nor
    [kv.del]. *)
Inductive request : Type :=
| Signup (created : string + string)
| CreateInviteCode
| ToggleInviteCode (codeId : string)
| DeleteInviteCode (codeId : string)
| UpdateMe
| UpdateUser (userId : string)
| DeleteUser (userId : string)
| CreateProject
| GetProjects
| UpdateProject (projectId : string)
| DeleteProject (projectId : string)
| CreateTimesheet
| UpdateTimesheet (timesheetId : string)
| DeleteTimesheet (timesheetId : string)
| TestDatabase.

#[global] Instance request_eq_dec : EqDecision request.
Proof. solve_decision. Defined.

Definition serve (r : request) (e : env)
  : gmap string json -> gmap string json * response :=
  match r with
  | Signup created => signup created e
  | CreateInviteCode => create_invite_code e
  | ToggleInviteCode codeId => toggle_invite_code codeId e
  | DeleteInviteCode codeId => delete_invite_code codeId e
  | UpdateMe => update_me e
  | UpdateUser userId => update_user userId e
  | DeleteUser userId => delete_user userId e
  | CreateProject => create_project e
  | GetProjects => get_projects e
  | UpdateProject projectId => update_project projectId e
  | DeleteProject projectId => delete_project projectId e
  | CreateTimesheet => create_timesheet e
  | UpdateTimesheet timesheetId => update_timesheet timesheetId e
  | DeleteTimesheet timesheetId => delete_timesheet timesheetId e
  | TestDatabase => test_database e
  end.

(** A run of the server: the requests are served one after the other
    (the interleaving of concurrent requests is not modelled). *)
Fixpoint run (rs : list (request * env)) (st : gmap string json)
  : gmap string json :=
  match rs with
  | [] => st
  | (r, e) :: rest => run rest (fst (serve r e st))
  end.

(** ** Notions the properties are stated with *)

(** [keeps k m]: whatever the store, running [m] leaves the value under
    key [k] as it was. *)
Definition keeps (k : string) {A : Type} (m : M A) : Prop :=
  forall st : gmap string json, fst (m st) !! k = st !! k.

(** The id that a creation generates is new: no timesheet is stored under
    it yet. *)
Definition fresh (r : request) (e : env) (st : gmap string json) : Prop :=
  match r with
  | CreateTimesheet => st !! ("timesheets:" +:+ new_timesheet_id e) = None
  | _ => True
  end.

(** A run during which the record under key [k] stays in the store and
    every generated id is new. *)
Fixpoint alive (k : string) (rs : list (request * env))
    (st : gmap string json) : Prop :=
  match rs with
  | [] => True
  | (r, e) :: rest =>
      fresh r e st /\ is_Some (fst (serve r e st) !! k) /\
      alive k rest (fst (serve r e st))
  end.

(** [stays I m]: running [m] in a store that satisfies [I] gives a store
    that satisfies [I]. *)
Definition stays (I : gmap string json -> Prop) {A : Type} (m : M A) : Prop :=
  forall st : gmap string json, I st -> I (fst (m st)).

(** Every value stored under a key that starts with [p] satisfies [Q]. *)
Definition family (p : string) (Q : json -> Prop) (st : gmap string json)
  : Prop :=
  forall (k : string) (v : json),
    st !! k = Some v -> String.prefix p k = true -> Q v.

Definition is_object (v : json) : Prop := exists o : gmap string json, v = JObj o.

Definition is_list (v : json) : Prop := exists l : list json, v = JArr l.

(** The shape of the stored data that the handlers rely on: invite codes
    are objects, and the indexes of the timesheets of a user and of the
    projects of an organization are lists. *)
Definition well_formed (st : gmap string json) : Prop :=
  family "invite-codes:" is_object st /\
  family "user-timesheets:" is_list st /\
  family "org-projects:" is_list st.

(** An invite code as the routes write it: an object stored under the key
    of its [id], with a boolean [isActive] and a numeric [currentUses]. *)
Definition code_record (k : string) (v : json) : Prop :=
  exists o : gmap string json,
    v = JObj o /\
    k = "invite-codes:" +:+ show (o !! "id") /\
    (exists b : bool, o !! "isActive" = Some (JBool b)) /\
    (exists n : Z, o !! "currentUses" = Some (JNum n)).

Definition code_records (st : gmap string json) : Prop :=
  forall (k : string) (v : json),
    st !! k = Some v -> String.prefix "invite-codes:" k = true ->
    code_record k v.

(** Every value stored under an [invite-codes:] key is an object. *)
Definition codes_are_objects (st : gmap string json) : Prop :=
  forall (k : string) (v : json),
    st !! k = Some v -> String.prefix "invite-codes:" k = true ->
    exists o : gmap string json, v = JObj o.

(** An invite code that can no longer be redeemed at instant [t]: it is
    deactivated, or it has an expiry that lies before [t], or it has a
    maximum of uses that its use count has reached. *)
Definition spent (t : Z) (c : json) : Prop :=
  prop c "isActive" = Some (JBool false)
  \/ (truthy (prop c "expiresAt") = true /\
      exists d : Z, date_value (prop c "expiresAt") = Some d /\ d < t)
  \/ (truthy (prop c "maxUses") = true /\
      exists m : Z, prop c "maxUses" = Some (JNum m) /\
                    prop c "currentUses" = Some (JNum m)).

(** The staff filter as a test: [p.assignedUsers.includes(uid)] is
    [true]. *)
Definition is_assigned (uid : string) (p : json) : bool :=
  match assigned_to uid p with
  | Some true => true
  | _ => false
  end.

(** ** The routes that only read *)

(** A [try]/[catch] whose catch answers [fail]. *)
Definition catching (fail : response) (m : M response)
  : gmap string json -> gmap string json * response :=
  fun st =>
    match m st with
    | (st', Some r) => (st', r)
    | (st', None) => (st', fail)
    end.

(** [{ valid: false, error: msg }], the answer of the verification routes
    to a code they do not accept (status 200). *)
Definition not_valid (msg : string) : response :=
  json_ok (literal ∅ [("valid", Some (JBool false)); ("error", Some (JStr msg))]).

(** [a >= b]: false when [a < b] is true or undefined ([NaN]). *)
Definition at_least (a b : option json) : bool :=
  match a, b with
  | Some x, Some y =>
      match to_primitive x, to_primitive y with
      | JStr s, JStr t => negb (String.ltb s t)
      | _, _ =>
          match to_number a, to_number b with
          | Some m, Some n => negb (Z.ltb m n)
          | _, _ => false
          end
      end
  | _, _ => false
  end.

(** [d1 < d2] on two dates, a comparison of their time values. *)
Definition date_before (d1 d2 : option Z) : bool :=
  match d1, d2 with
  | Some x, Some y => Z.ltb x y
  | _, _ => false
  end.

(** The gate of the organization listings:
    [currentUser.orgId !== orgId || currentUser.role !== 'admin'] gives
    403. *)
Definition org_admin (currentUser : option json) (orgId : string) : M bool :=
  let* userOrg := field currentUser "orgId" in
  let* role := field currentUser "role" in
  ret (strict_eq userOrg (Some (JStr orgId))
       && strict_eq role (Some (JStr "admin"))).

(** [const ids = await kv.get(index) || [];
     await kv.mget(ids.map(id => `${family}${id}`))]. *)
Definition listed (index family : string) : M (list json) :=
  let* ids := kv_get index in
  let* l := try_ (array_of (or_else ids (JArr []))) in
  kv_mget (map (fun id => family +:+ to_string id) l).

(** GET /health. *)
Definition health (e : env)
  : gmap string json -> gmap string json * response :=
  fun st => (st, json_ok (literal ∅ [("status", Some (JStr "ok"))])).

(** GET /invite-codes/:orgId (admin of that organization only). *)
Definition get_invite_codes (orgId : string) (e : env)
  : gmap string json -> gmap string json * response :=
  handler "Failed to fetch invite codes" (
    match caller e with
    | None => ret unauthorized
    | Some uid =>
        let* currentUser := kv_get ("users:" +:+ uid) in
        let* allowed := org_admin currentUser orgId in
        if negb allowed then ret (json_error 403 "Forbidden") else
        let* codes :=
          listed ("org-invite-codes:" +:+ orgId) "invite-codes:" in
        ret (json_ok (JArr codes))
    end).

(** The callback [c => c.code === code] of the two lookups by text. *)
Definition has_text (code : string) (c : json) : option bool :=
  match c with
  | JNull => None
  | _ => Some (strict_eq (prop c "code") (Some (JStr code)))
  end.

(** GET /test-code/:code (public).  The catch of this route answers the
    engine's [error.message] alone, a text that is not modelled. *)
Definition test_code (code : string) (e : env)
  : gmap string json -> gmap string json * response :=
  handler "" (
    let* allCodes := kv_getByPrefix "invite-codes:" in
    let* foundCode := try_ (find_opt (has_text code) allCodes) in
    match foundCode with
    | Some found =>
        ret (json_ok
               (literal ∅
                  [("found", Some (JBool true)); ("value", foundCode);
                   ("key", Some (JStr ("invite-codes:" +:+ show (prop found "id"))))]))
    | None =>
        ret (json_ok
               (literal ∅
                  [("found", Some (JBool false));
                   ("totalCodes", Some (JNum (Z.of_nat (length allCodes))));
                   ("allCodes",
                    Some (JArr (map (fun c =>
                                       literal ∅
                                         [("code", prop c "code");
                                          ("id", prop c "id");
                                          ("orgId", prop c "orgId")])
                                    allCodes)))]))
    end).

(** GET /verify-invite-code/:code (public). *)
Definition verify_invite_code_get (code : string) (e : env)
  : gmap string json -> gmap string json * response :=
  catching
    (Response 500
       (literal ∅ [("valid", Some (JBool false));
                   ("error", Some (JStr "Failed to verify invite code"))])) (
    if negb (truthy (Some (JStr code))) then
      ret (not_valid "No invite code provided")
    else
      let* codes := kv_getByPrefix "invite-codes:" in
      let* inviteCode := try_ (find_opt (has_text code) codes) in
      match inviteCode with
      | None => ret (not_valid "Invalid invite code")
      | Some ic =>
          if negb (truthy inviteCode) then
            ret (not_valid "Invalid invite code")
          else if negb (truthy (prop ic "isActive")) then
            ret (not_valid "This invite code has been deactivated")
          else if truthy (prop ic "expiresAt")
                  && date_before (date_value (prop ic "expiresAt"))
                       (Some (now e)) then
            ret (not_valid "This invite code has expired")
          else if truthy (prop ic "maxUses")
                  && at_least (prop ic "currentUses") (prop ic "maxUses") then
            ret (not_valid
                   "This invite code has reached its maximum number of uses")
          else
            let* org := kv_get ("organizations:" +:+ show (prop ic "orgId")) in
            match org with
            | Some o =>
                if negb (truthy org) then
                  ret (not_valid "Organization not found")
                else
                  ret (json_ok
                         (literal ∅
                            [("valid", Some (JBool true));
                             ("organizationName", prop o "name");
                             ("organizationId", prop o "id")]))
            | None => ret (not_valid "Organization not found")
            end
      end).

(** The callback of [allCodes.find] in POST /verify-invite-code: the
    conjunction of [c.code === code], [c.isActive === true],
    [!c.expiresAt || new Date(c.expiresAt) > new Date()] and
    [!c.maxUses || c.currentUses < c.maxUses]. *)
Definition verifiable (t : Z) (code : option json) (c : json) : option bool :=
  match c with
  | JNull => None
  | _ =>
      Some (strict_eq (prop c "code") code
            && strict_eq (prop c "isActive") (Some (JBool true))
            && (negb (truthy (prop c "expiresAt"))
                || in_future t (prop c "expiresAt"))
            && (negb (truthy (prop c "maxUses"))
                || less_than (prop c "currentUses") (prop c "maxUses")))
  end.

Definition is_null (v : json) : bool :=
  match v with
  | JNull => true
  | _ => false
  end.

(** POST /verify-invite-code (public).  The route logs [codeObj.id] of
    every stored code before it searches, which throws on a [null]; the
    catch appends the engine's [error.message] to its message, a text
    that is not modelled. *)
Definition verify_invite_code_post (e : env)
  : gmap string json -> gmap string json * response :=
  catching
    (Response 500
       (literal ∅ [("valid", Some (JBool false));
                   ("error", Some (JStr "Failed to verify invite code: "))])) (
    let* b := req_json (body e) in
    destructure b ;;
    let code := prop b "code" in
    if negb (truthy code) then ret (not_valid "No invite code provided") else
    let* allCodes := kv_getByPrefix "invite-codes:" in
    match allCodes with
    | [] => ret (not_valid "No invite codes found in system")
    | _ :: _ =>
        (if existsb is_null allCodes then throw else ret tt) ;;
        let* validCode := try_ (find_opt (verifiable (now e) code) allCodes) in
        match validCode with
        | None => ret (not_valid "Invalid or expired invite code")
        | Some vc =>
            if negb (truthy validCode) then
              ret (not_valid "Invalid or expired invite code")
            else
              let* org := kv_get ("organizations:" +:+ show (prop vc "orgId")) in
              let name :=
                match org with
                | None | Some JNull => None
                | Some o => prop o "name"
                end in
              ret (json_ok
                     (literal ∅
                        [("valid", Some (JBool true));
                         ("organizationName",
                          Some (or_else name (JStr "Unknown Organization")));
                         ("orgId", prop vc "orgId")]))
        end
    end).

(** GET /organizations/:orgId. *)
Definition get_organization (orgId : string) (e : env)
  : gmap string json -> gmap string json * response :=
  handler "Failed to fetch organization" (
    match caller e with
    | None => ret unauthorized
    | Some uid =>
        let* org := kv_get ("organizations:" +:+ orgId) in
        match org with
        | Some o =>
            if negb (truthy org) then
              ret (json_error 404 "Organization not found")
            else ret (json_ok o)
        | None => ret (json_error 404 "Organization not found")
        end
    end).

(** GET /users/me.  (The catch of this route appends the engine's
    [error.message], not modelled, to its message.) *)
Definition get_me (e : env)
  : gmap string json -> gmap string json * response :=
  handler "Failed to fetch user profile: " (
    match caller e with
    | None => ret unauthorized
    | Some uid =>
        let* userProfile := kv_get ("users:" +:+ uid) in
        match userProfile with
        | Some profile =>
            if negb (truthy userProfile) then
              ret (json_error 404 "User profile not found")
            else ret (json_ok profile)
        | None => ret (json_error 404 "User profile not found")
        end
    end).

(** GET /organizations/:orgId/users (admin of that organization only). *)
Definition get_org_users (orgId : string) (e : env)
  : gmap string json -> gmap string json * response :=
  handler "Failed to fetch users" (
    match caller e with
    | None => ret unauthorized
    | Some uid =>
        let* currentUser := kv_get ("users:" +:+ uid) in
        let* allowed := org_admin currentUser orgId in
        if negb allowed then ret (json_error 403 "Forbidden") else
        let* users := listed ("org-users:" +:+ orgId) "users:" in
        ret (json_ok (JArr users))
    end).

(** The query parameters of the timesheet listings ([c.req.query]: a
    string, or [undefined] when the parameter is absent). *)
Record filters : Type := Filters {
  startDate : option string;
  endDate : option string;
  userId : option string;
  projectId : option string
}.

Definition given (q : option string) : bool := truthy (JStr <$> q).

(** The callback of the date filter:
    [t => { const tDate = new Date(t.startTime);
            if (startDate && tDate < new Date(startDate)) return false;
            if (endDate && tDate > new Date(endDate)) return false;
            return true; }]. *)
Definition in_range (q : filters) (t : json) : option bool :=
  match t with
  | JNull => None
  | _ =>
      let tDate := date_value (prop t "startTime") in
      Some (if given (startDate q)
               && date_before tDate (date_value (JStr <$> startDate q))
            then false
            else if given (endDate q)
                    && date_before (date_value (JStr <$> endDate q)) tDate
            then false
            else true)
  end.

(** The callbacks [t => t.userId === userId] and
    [t => t.projectId === projectId]. *)
Definition has_field (f : string) (x : option string) (t : json)
  : option bool :=
  match t with
  | JNull => None
  | _ => Some (strict_eq (prop t f) (JStr <$> x))
  end.

Definition filter_dates (q : filters) (l : list json) : M (list json) :=
  if given (startDate q) || given (endDate q)
  then try_ (filter_opt (in_range q) l)
  else ret l.

Definition filter_field (f : string) (x : option string) (l : list json)
  : M (list json) :=
  if given x then try_ (filter_opt (has_field f x) l) else ret l.

(** GET /timesheets: the caller's own entries ([startDate], [endDate] and
    [projectId] are read from the query). *)
Definition get_timesheets (q : filters) (e : env)
  : gmap string json -> gmap string json * response :=
  handler "Failed to fetch timesheets" (
    match caller e with
    | None => ret unauthorized
    | Some uid =>
        let* timesheets := listed ("user-timesheets:" +:+ uid) "timesheets:" in
        let* dated := filter_dates q timesheets in
        let* final := filter_field "projectId" (projectId q) dated in
        ret (json_ok (JArr final))
    end).

(** [for (const uid of userIds) { ... allTimesheets =
    [...allTimesheets, ...timesheets] }]. *)
Fixpoint collect_timesheets (uids : list json) : M (list json) :=
  match uids with
  | [] => ret []
  | uid :: rest =>
      let* timesheets :=
        listed ("user-timesheets:" +:+ to_string uid) "timesheets:" in
      let* more := collect_timesheets rest in
      ret (app timesheets more)
  end.

(** GET /organizations/:orgId/timesheets (admin of that organization
    only). *)
Definition get_org_timesheets (orgId : string) (q : filters) (e : env)
  : gmap string json -> gmap string json * response :=
  handler "Failed to fetch timesheets" (
    match caller e with
    | None => ret unauthorized
    | Some uid =>
        let* currentUser := kv_get ("users:" +:+ uid) in
        let* allowed := org_admin currentUser orgId in
        if negb allowed then ret (json_error 403 "Forbidden") else
        let* ids := kv_get ("org-users:" +:+ orgId) in
        let* userIds := try_ (iterate (or_else ids (JArr []))) in
        let* allTimesheets := collect_timesheets userIds in
        let* dated := filter_dates q allTimesheets in
        let* byUser := filter_field "userId" (userId q) dated in
        let* final := filter_field "projectId" (projectId q) byUser in
        ret (json_ok (JArr final))
    end).

(** The routes that read the store through the adapter without a
    [kv.set] or a [kv.del] in their text.  (GET /test-codes queries the
    table directly and POST /upload-photo talks to the object storage;
    neither is modelled.) *)
Inductive query : Type :=
| Health
| TestCode (code : string)
| GetInviteCodes (orgId : string)
| VerifyInviteCodeGet (code : string)
| VerifyInviteCodePost
| GetOrganization (orgId : string)
| GetMe
| GetOrgUsers (orgId : string)
| GetTimesheets (q : filters)
| GetOrgTimesheets (orgId : string) (q : filters).

Definition answer (q : query) (e : env)
  : gmap string json -> gmap string json * response :=
  match q with
  | Health => health e
  | TestCode code => test_code code e
  | GetInviteCodes orgId => get_invite_codes orgId e
  | VerifyInviteCodeGet code => verify_invite_code_get code e
  | VerifyInviteCodePost => verify_invite_code_post e
  | GetOrganization orgId => get_organization orgId e
  | GetMe => get_me e
  | GetOrgUsers orgId => get_org_users orgId e
  | GetTimesheets q => get_timesheets q e
  | GetOrgTimesheets orgId q => get_org_timesheets orgId q e
  end.

(** ** Notions the further properties are stated with *)

(** The routes that begin with [verifyUser] and answer 401 to a caller
    it does not resolve. *)
Definition needs_login (r : request) : bool :=
  match r with
  | Signup _ | TestDatabase => false
  | _ => true
  end.

Definition protected (q : query) : bool :=
  match q with
  | Health | TestCode _ | VerifyInviteCodeGet _ | VerifyInviteCodePost => false
  | _ => true
  end.

(** The routes behind [currentUser.role !== 'admin']. *)
Definition admin_route (r : request) : bool :=
  match r with
  | CreateInviteCode | ToggleInviteCode _ | DeleteInviteCode _
  | UpdateUser _ | DeleteUser _
  | CreateProject | UpdateProject _ | DeleteProject _ => true
  | _ => false
  end.

(** The listings behind
    [currentUser.orgId !== orgId || currentUser.role !== 'admin'], with
    the organization they are asked for. *)
Definition listing_of (q : query) : option string :=
  match q with
  | GetInviteCodes orgId | GetOrgUsers orgId | GetOrgTimesheets orgId _ =>
      Some orgId
  | _ => None
  end.

(** [reads m]: running [m] leaves the whole store as it was. *)
Definition reads {A : Type} (m : M A) : Prop :=
  forall st : gmap string json, fst (m st) = st.

(** The one key that an update route writes. *)
Definition target (r : request) (e : env) : option string :=
  match r, caller e with
  | UpdateMe, Some uid => Some ("users:" +:+ uid)
  | UpdateUser userId, _ => Some ("users:" +:+ userId)
  | UpdateProject projectId, _ => Some ("projects:" +:+ projectId)
  | UpdateTimesheet timesheetId, _ => Some ("timesheets:" +:+ timesheetId)
  | ToggleInviteCode codeId, _ => Some ("invite-codes:" +:+ codeId)
  | _, _ => None
  end.

(** An invite code within its limit: when both are numbers and the
    maximum is set, the use count does not exceed the maximum. *)
Definition within_limit (v : json) : Prop :=
  forall m n : Z,
    prop v "maxUses" = Some (JNum m) -> m <> 0 ->
    prop v "currentUses" = Some (JNum n) -> n <= m.

(** The [valid] field of the answer of a verification route. *)
Definition says_valid (r : response) : bool :=
  strict_eq (prop (payload r) "valid") (Some (JBool true)).

(** A stored invite code that is an object within its limit. *)
Definition limited (v : json) : Prop := is_object v /\ within_limit v.

(** A creation of an invite code whose [maxUses], when the body gives a
    number, is a whole number that is not negative.  The route stores
    whatever number the body has; the numbers of this development are
    integers, so a fractional maximum is not among the bodies it speaks
    of. *)
Definition no_negative_limit (r : request) (e : env) : Prop :=
  match r with
  | CreateInviteCode =>
      forall (b : json) (m : Z),
        body e = Some b -> prop b "maxUses" = Some (JNum m) -> 0 <= m
  | _ => True
  end.

(** An entry that the date filter of the listings lets through: not
    before the start and not after the end, for the bounds that are
    given. *)
Definition within_dates (q : filters) (t : json) : Prop :=
  (given (startDate q) = true ->
   date_before (date_value (prop t "startTime"))
     (date_value (JStr <$> startDate q)) = false) /\
  (given (endDate q) = true ->
   date_before (date_value (JStr <$> endDate q))
     (date_value (prop t "startTime")) = false).

(** An entry whose field [f] is the string of the query parameter [x],
    when that parameter is given. *)
Definition matches (f : string) (x : option string) (t : json) : Prop :=
  given x = true -> prop t f = JStr <$> x.

(** The four indexes that the routes iterate are lists. *)
Definition indexes_are_lists (st : gmap string json) : Prop :=
  family "org-users:" is_list st /\
  family "org-invite-codes:" is_list st /\
  family "user-timesheets:" is_list st /\
  family "org-projects:" is_list st.

(** Every value stored under a key that starts with [p] is an object
    whose [id] is the rest of its key. *)
Definition stored_under_id (p : string) (st : gmap string json) : Prop :=
  forall (k : string) (v : json),
    st !! k = Some v -> String.prefix p k = true ->
    exists o : gmap string json, v = JObj o /\ k = p +:+ show (o !! "id").

Definition records_have_their_ids (st : gmap string json) : Prop :=
  stored_under_id "users:" st /\
  stored_under_id "organizations:" st /\
  stored_under_id "projects:" st /\
  stored_under_id "timesheets:" st /\
  stored_under_id "invite-codes:" st.

(** A value that [===] finds equal to a copy of itself read back from
    the store: [undefined], [null], a boolean, a number or a string.  An
    array or an object is never [===] to its copy. *)
Definition primitive (v : option json) : bool :=
  match v with
  | Some (JArr _) | Some (JObj _) => false
  | _ => true
  end.

(** ** Properties *)

(** *** Keys, object literals and store operations *)

(** Two keys built from different route prefixes are different. *)
Ltac key_neq :=
  let H := fresh "Hkey" in
  intros H; cbn in H;
  repeat (discriminate H || (injection H as _ H));
  fail.

Lemma key_inj (p a b : string) : p +:+ a = p +:+ b -> a = b.
Proof.
  induction p as [|c p IH]; cbn; [done|]. intros [= H]. by apply IH.
Qed.

Lemma put_lookup (k : string) (v : option json) (o : gmap string json) :
  put k v o !! k = v.
Proof.
  destruct v; simpl; [apply lookup_insert_eq | apply lookup_delete_eq].
Qed.

Lemma put_lookup_ne (k k' : string) (v : option json) (o : gmap string json) :
  k <> k' -> put k v o !! k' = o !! k'.
Proof.
  intros Hne. destruct v; simpl;
    [by apply lookup_insert_ne | by apply lookup_delete_ne].
Qed.

Lemma literal_cons (base : gmap string json) (k : string)
    (v : option json) (fs : list (string * option json)) :
  literal base ((k, v) :: fs) = literal (put k v base) fs.
Proof. reflexivity. Qed.

Lemma prop_literal_nil (base : gmap string json) (k : string) :
  prop (literal base []) k = base !! k.
Proof. reflexivity. Qed.

(** Reading a property of an object literal. *)
Ltac read_literal :=
  rewrite ?literal_cons, ?prop_literal_nil;
  repeat first
    [ rewrite put_lookup
    | rewrite put_lookup_ne by (done || congruence) ].

Lemma field_defined (v : json) (f : string) (st : gmap string json) :
  truthy (Some v) = true -> field (Some v) f st = (st, Some (prop v f)).
Proof. intros Ht. destruct v; try discriminate Ht; reflexivity. Qed.

Lemma strict_eq_string (v : option json) (s : string) :
  strict_eq v (Some (JStr s)) = true <-> v = Some (JStr s).
Proof.
  split.
  - destruct v as [[]|]; simpl; try discriminate.
    intros H. apply String.eqb_eq in H. by subst.
  - intros ->. simpl. apply String.eqb_refl.
Qed.

(** Unfolding of the computations of a handler. *)
Ltac run_handler :=
  cbv beta iota delta
    [handler bind ret throw try_ req_json kv_get kv_set kv_del kv_mget
     kv_getByPrefix kv_lookup].

Lemma is_admin_defined (cu : json) (st : gmap string json) :
  truthy (Some cu) = true ->
  is_admin (Some cu) st
    = (st, Some (strict_eq (prop cu "role") (Some (JStr "admin")))).
Proof.
  intros Ht. unfold is_admin, bind. by rewrite (field_defined _ _ _ Ht).
Qed.

Lemma is_admin_true (cu : json) (st : gmap string json) :
  prop cu "role" = Some (JStr "admin") ->
  is_admin (Some cu) st = (st, Some true).
Proof.
  intros Hrole. rewrite is_admin_defined.
  - by rewrite Hrole.
  - destruct cu; try discriminate Hrole. reflexivity.
Qed.

(** *** PUT /users/me *)

(** C7.  A profile update of the caller's own record keeps the stored
    [role] and [orgId] whatever the payload contains, forces [id], and
    takes every other field from the payload when the payload has it
    and from the stored record otherwise. *)
Theorem update_me_keeps_role_and_org
    (e : env) (uid : string) (updates cur : json) (st : gmap string json) :
  caller e = Some uid ->
  body e = Some updates ->
  st !! ("users:" +:+ uid) = Some cur ->
  truthy (Some cur) = true ->
  exists new : json,
    fst (update_me e st) = <["users:" +:+ uid := new]> st /\
    status (snd (update_me e st)) = 200 /\
    prop new "role" = prop cur "role" /\
    prop new "orgId" = prop cur "orgId" /\
    prop new "id" = Some (JStr uid) /\
    forall k : string,
      k <> "id" -> k <> "role" -> k <> "orgId" ->
      prop new k =
        match spread (Some updates) !! k with
        | Some v => Some v
        | None => spread (Some cur) !! k
        end.
Proof.
  intros Hc Hb Hget Ht.
  unfold update_me. run_handler. rewrite Hc, Hb, Hget, Ht.
  cbv beta iota delta [negb]. rewrite !field_defined by exact Ht.
  eexists. split; [reflexivity|]. split; [reflexivity|].
  repeat split; try (read_literal; reflexivity).
  intros k Hid Hrole Horg. read_literal. rewrite lookup_union.
    destruct (spread (Some updates) !! k), (spread (Some cur) !! k); reflexivity.
Qed.

(** *** POST /signup without invite code and without organization *)

(** C10.  A signup whose body has neither an invite code nor an
    organization name stores a user record with [orgId: null] and with
    the [role] of the body (['staff'] when the body has none) and answers
    200: no check stands between the body's role, ['admin'] included, and
    the store. *)
Theorem signup_without_org_stores_requested_role
    (e : env) (b : json) (uid : string) (st : gmap string json) :
  body e = Some b ->
  b <> JNull ->
  truthy (prop b "inviteCode") = false ->
  truthy (prop b "organizationName") = false ->
  let user :=
    literal ∅
      [("id", Some (JStr uid)); ("email", prop b "email");
       ("name", prop b "name");
       ("role", Some (or_default (prop b "role") (JStr "staff")));
       ("orgId", Some JNull);
       ("createdAt", Some (JStr (to_iso (now e))))] in
  signup (inr uid) e st =
    (<["users:" +:+ uid := user]> st,
     success [("userId", Some (JStr uid)); ("orgId", None);
              ("message", Some (JStr "User created successfully"))]) /\
  prop user "role" = Some (or_default (prop b "role") (JStr "staff")) /\
  prop user "orgId" = Some JNull /\
  (forall r : json, prop b "role" = Some r -> prop user "role" = Some r).
Proof.
  intros Hb Hnn Hinv Horg user. split.
  - unfold signup. run_handler. rewrite Hb, Hinv, Horg.
    destruct b; try congruence; reflexivity.
  - subst user. repeat split; try (read_literal; reflexivity).
    intros r Hr. read_literal. by rewrite Hr.
Qed.

(** *** PUT /invite-codes/:codeId/toggle *)

(** One toggle by an admin of the code's organization negates the stored
    [isActive] and changes nothing else. *)
Lemma toggle_invite_code_once
    (e : env) (uid codeId : string) (cu : json) (o : gmap string json)
    (st : gmap string json) :
  caller e = Some uid ->
  st !! ("users:" +:+ uid) = Some cu ->
  prop cu "role" = Some (JStr "admin") ->
  st !! ("invite-codes:" +:+ codeId) = Some (JObj o) ->
  strict_eq (o !! "orgId") (prop cu "orgId") = true ->
  let toggled := JObj (<["isActive" := JBool (negb (truthy (o !! "isActive")))]> o) in
  toggle_invite_code codeId e st =
    (<["invite-codes:" +:+ codeId := toggled]> st,
     success [("inviteCode", Some toggled)]).
Proof.
  intros Hc Hu Hrole Hcode Horg toggled.
  assert (Hcu : truthy (Some cu) = true).
  { destruct cu; try discriminate Hrole. reflexivity. }
  unfold toggle_invite_code. run_handler. rewrite Hc, Hu.
  rewrite (is_admin_true _ _ Hrole). cbn [negb]. rewrite Hcode.
  cbn [truthy negb]. rewrite !field_defined by (assumption || reflexivity).
  cbn [prop]. rewrite Horg. reflexivity.
Qed.

(** C9.  Toggling an invite code twice (each time by an admin of the
    code's organization) gives 200 twice, negates the stored [isActive]
    in between and leaves the record, and the whole store, as it was.
    The stored [isActive] is a boolean, as it is in every store that the
    server reaches ([run_code_records]). *)
Theorem toggle_invite_code_twice
    (e1 e2 : env) (uid1 uid2 codeId : string) (cu1 cu2 : json)
    (o : gmap string json) (active : bool) (st : gmap string json) :
  caller e1 = Some uid1 ->
  caller e2 = Some uid2 ->
  st !! ("users:" +:+ uid1) = Some cu1 ->
  st !! ("users:" +:+ uid2) = Some cu2 ->
  prop cu1 "role" = Some (JStr "admin") ->
  prop cu2 "role" = Some (JStr "admin") ->
  st !! ("invite-codes:" +:+ codeId) = Some (JObj o) ->
  o !! "isActive" = Some (JBool active) ->
  strict_eq (o !! "orgId") (prop cu1 "orgId") = true ->
  strict_eq (o !! "orgId") (prop cu2 "orgId") = true ->
  let once := toggle_invite_code codeId e1 st in
  let twice := toggle_invite_code codeId e2 (fst once) in
  status (snd once) = 200 /\
  fst once !! ("invite-codes:" +:+ codeId)
    = Some (JObj (<["isActive" := JBool (negb active)]> o)) /\
  status (snd twice) = 200 /\
  fst twice !! ("invite-codes:" +:+ codeId) = Some (JObj o) /\
  fst twice = st.
Proof.
  intros Hc1 Hc2 Hu1 Hu2 Hr1 Hr2 Hcode Hact Ho1 Ho2 once twice.
  subst twice once.
  rewrite (toggle_invite_code_once e1 uid1 codeId cu1 o st) by assumption.
  cbn [fst snd]. rewrite Hact. cbn [truthy].
  rewrite (toggle_invite_code_once e2 uid2 codeId cu2
             (<["isActive" := JBool (negb active)]> o)).
  - cbn [fst snd].
    assert (Ho : <["isActive" := JBool active]> o = o) by by apply insert_id.
    assert (Hst : <["invite-codes:" +:+ codeId := JObj o]> st = st)
      by by apply insert_id.
    rewrite (lookup_insert_eq o). cbn [truthy].
    rewrite negb_involutive, !insert_insert_eq, Ho.
    rewrite lookup_insert_eq.
    rewrite Hst. repeat split; try reflexivity; assumption.
  - assumption.
  - rewrite lookup_insert_ne by key_neq. assumption.
  - assumption.
  - apply lookup_insert_eq.
  - rewrite lookup_insert_ne by done. assumption.
Qed.

(** *** Index lists *)

Lemma without_absent (x : string) (l : list json) :
  ~ In (JStr x) (without x l).
Proof.
  unfold without. intros Hin. apply filter_In in Hin as [_ Hneq].
  cbn in Hneq. by rewrite String.eqb_refl in Hneq.
Qed.

Lemma index_remove_list (key id : string) (ids : list json)
    (st : gmap string json) :
  or_else (st !! key) (JArr []) = JArr ids ->
  index_remove key id st = (<[key := JArr (without id ids)]> st, Some tt).
Proof.
  intros Hids. unfold index_remove. run_handler. by rewrite Hids.
Qed.

Lemma index_append_list (key id : string) (ids : list json)
    (st : gmap string json) :
  or_else (st !! key) (JArr []) = JArr ids ->
  index_append key id st = (<[key := JArr (ids ++ [JStr id])]> st, Some tt).
Proof.
  intros Hids. unfold index_append. run_handler. by rewrite Hids.
Qed.

(** *** DELETE /timesheets/:timesheetId *)

(** C6.  When the caller owns the timesheet, the delete removes the
    record and, the caller's [user-timesheets] index being a list or
    absent (as it is in every store that the server reaches,
    [run_well_formed]), stores the index without the id and answers 200;
    when the caller is not the owner the answer is 403 and the store is
    unchanged. *)
Theorem delete_timesheet_owner_only
    (e : env) (uid tid : string) (t : json) (st : gmap string json) :
  caller e = Some uid ->
  st !! ("timesheets:" +:+ tid) = Some t ->
  truthy (Some t) = true ->
  (prop t "userId" = Some (JStr uid) ->
   fst (delete_timesheet tid e st) !! ("timesheets:" +:+ tid) = None /\
   forall ids : list json,
     or_else (st !! ("user-timesheets:" +:+ uid)) (JArr []) = JArr ids ->
     delete_timesheet tid e st =
       (<["user-timesheets:" +:+ uid := JArr (without tid ids)]>
          (delete ("timesheets:" +:+ tid) st),
        success []) /\
     ~ In (JStr tid) (without tid ids)) /\
  (prop t "userId" <> Some (JStr uid) ->
   delete_timesheet tid e st = (st, json_error 403 "Forbidden")).
Proof.
  intros Hc Hget Ht. split.
  - intros Hown.
    assert (Hstep : forall st1 : gmap string json,
      delete_timesheet tid e st =
        (let (st', o) := index_remove ("user-timesheets:" +:+ uid) tid
                           (delete ("timesheets:" +:+ tid) st) in
         match o with
         | Some _ => (st', success [])
         | None => (st', json_error 500 "Failed to delete timesheet entry")
         end)).
    { intros _. unfold delete_timesheet. run_handler. rewrite Hc, Hget, Ht.
      cbn [negb]. rewrite (field_defined _ _ _ Ht), Hown.
      rewrite (proj2 (strict_eq_string _ _) eq_refl). cbn [negb].
      destruct (index_remove _ _ _) as [st' [[]|]]; reflexivity. }
    split.
    + rewrite (Hstep st). unfold index_remove. run_handler.
      destruct (or_else _ _); cbn [array_of];
        try (cbn [fst]; apply lookup_delete_eq).
      cbn [fst]. rewrite lookup_insert_ne by key_neq. apply lookup_delete_eq.
    + intros ids Hids. split; [|apply without_absent].
      rewrite (Hstep st), (index_remove_list _ _ ids); [reflexivity|].
      rewrite lookup_delete_ne by key_neq. exact Hids.
  - intros Hother. unfold delete_timesheet. run_handler.
    rewrite Hc, Hget, Ht. cbn [negb]. rewrite (field_defined _ _ _ Ht).
    destruct (strict_eq (prop t "userId") (Some (JStr uid))) eqn:Heq.
    + apply strict_eq_string in Heq. contradiction.
    + reflexivity.
Qed.

(** *** PUT and DELETE /users/:userId on the caller's own id *)

(** C2, as the server has it.  An admin's DELETE of the own id is
    refused with 400 and leaves the store as it was.  An admin's PUT of
    the own id is served like any other: the stored record is the old one
    overwritten by the payload, only [id] is forced, so a [role] in the
    payload becomes the caller's role. *)
Theorem user_routes_on_own_id
    (e : env) (uid : string) (cu : json) (st : gmap string json) :
  caller e = Some uid ->
  st !! ("users:" +:+ uid) = Some cu ->
  prop cu "role" = Some (JStr "admin") ->
  delete_user uid e st
    = (st, json_error 400 "Cannot delete your own account") /\
  forall updates : json,
    body e = Some updates ->
    let new :=
      literal (spread (Some updates) ∪ spread (Some cu))
        [("id", Some (JStr uid))] in
    update_user uid e st
      = (<["users:" +:+ uid := new]> st, success [("user", Some new)]) /\
    forall r : json,
      spread (Some updates) !! "role" = Some r -> prop new "role" = Some r.
Proof.
  intros Hc Hget Hrole. split.
  - unfold delete_user. run_handler.
    rewrite Hc, Hget, (is_admin_true _ _ Hrole). cbn [negb].
    by rewrite String.eqb_refl.
  - intros updates Hb new. split.
    + unfold update_user. run_handler.
      rewrite Hc, Hget, (is_admin_true _ _ Hrole), Hb. cbn [negb].
      assert (Ht : truthy (Some cu) = true).
      { destruct cu; try discriminate Hrole. reflexivity. }
      rewrite Hget, Ht. reflexivity.
    + intros r Hr. subst new. read_literal. by apply lookup_union_Some_l.
Qed.

(** *** Keys a computation leaves alone *)

Lemma keeps_ret (k : string) {A : Type} (a : A) : keeps k (ret a).
Proof. intros st. reflexivity. Qed.

Lemma keeps_throw (k : string) {A : Type} : keeps k (@throw A).
Proof. intros st. reflexivity. Qed.

Lemma keeps_try (k : string) {A : Type} (o : option A) : keeps k (try_ o).
Proof. destruct o; intros st; reflexivity. Qed.

Lemma keeps_get (k key : string) : keeps k (kv_get key).
Proof. intros st. reflexivity. Qed.

Lemma keeps_mget (k : string) (keys : list string) : keeps k (kv_mget keys).
Proof. intros st. reflexivity. Qed.

Lemma keeps_getByPrefix (k p : string) : keeps k (kv_getByPrefix p).
Proof. intros st. reflexivity. Qed.

Lemma keeps_field (k : string) (v : option json) (f : string) :
  keeps k (field v f).
Proof. destruct v as [[]|]; intros st; reflexivity. Qed.

Lemma keeps_destructure (k : string) (b : json) : keeps k (destructure b).
Proof. destruct b; intros st; reflexivity. Qed.

Lemma keeps_bind (k : string) {A B : Type} (m : M A) (f : A -> M B) :
  keeps k m -> (forall a : A, keeps k (f a)) -> keeps k (bind m f).
Proof.
  intros Hm Hf st. unfold bind. specialize (Hm st).
  destruct (m st) as [st' [a|]]; cbn [fst] in *.
  - rewrite <- Hm. apply Hf.
  - exact Hm.
Qed.

Lemma keeps_set (k key : string) (v : json) :
  key <> k -> keeps k (kv_set key v).
Proof. intros Hne st. cbn. by apply lookup_insert_ne. Qed.

Lemma keeps_del (k key : string) : key <> k -> keeps k (kv_del key).
Proof. intros Hne st. cbn. by apply lookup_delete_ne. Qed.

Lemma keeps_attempt (k : string) (m : M unit) :
  keeps k m -> keeps k (attempt m).
Proof. intros Hm st. apply Hm. Qed.

Lemma keeps_handler (k msg : string) (m : M response) (st : gmap string json) :
  keeps k m -> fst (handler msg m st) !! k = st !! k.
Proof.
  intros Hm. unfold handler. specialize (Hm st).
  by destruct (m st) as [st' [r|]].
Qed.

(** The frame of a computation, by its structure; the side conditions
    are inequalities between keys of different families. *)
Ltac frame :=
  cbv zeta;
  repeat match goal with
    | |- keeps _ (ret _) => apply keeps_ret
    | |- keeps _ throw => apply keeps_throw
    | |- keeps _ (try_ _) => apply keeps_try
    | |- keeps _ (req_json _) => apply keeps_try
    | |- keeps _ (kv_get _) => apply keeps_get
    | |- keeps _ (kv_mget _) => apply keeps_mget
    | |- keeps _ (kv_getByPrefix _) => apply keeps_getByPrefix
    | |- keeps _ (field _ _) => apply keeps_field
    | |- keeps _ (destructure _) => apply keeps_destructure
    | |- keeps _ (kv_set _ _) => apply keeps_set; solve [key_neq | assumption]
    | |- keeps _ (kv_del _) => apply keeps_del; solve [key_neq | assumption]
    | |- keeps _ (attempt _) => apply keeps_attempt
    | |- keeps _ (bind _ _) => apply keeps_bind; [|intros ?]
    | |- keeps _ (if ?c then _ else _) => destruct c
    | |- keeps _ (match ?x with _ => _ end) => destruct x
    end.

Lemma keeps_is_admin (k : string) (v : option json) : keeps k (is_admin v).
Proof. unfold is_admin. frame. Qed.

Lemma keeps_index_append (k key id : string) :
  key <> k -> keeps k (index_append key id).
Proof.
  intros Hne. unfold index_append. frame.
Qed.

Lemma keeps_index_remove (k key id : string) :
  key <> k -> keeps k (index_remove key id).
Proof.
  intros Hne. unfold index_remove. frame.
Qed.

(** *** DELETE /users/:userId and the org-users index *)

(** The delete of a user never writes an [org-users] index: the list it
    filters and stores back is the one under [orgs:{orgId}:users]. *)
Lemma delete_user_keeps_org_users
    (userId org : string) (e : env) (st : gmap string json) :
  fst (delete_user userId e st) !! ("org-users:" +:+ org)
    = st !! ("org-users:" +:+ org).
Proof.
  apply keeps_handler. unfold delete_user. 
  repeat first [ apply keeps_is_admin | apply keeps_index_remove; key_neq
               | progress frame ].
Qed.

Ltac frames :=
  repeat first
    [ progress frame
    | match goal with
      | |- keeps _ (is_admin _) => apply keeps_is_admin
      | |- keeps _ (index_append _ _) =>
          apply keeps_index_append; solve [key_neq | assumption]
      | |- keeps _ (index_remove _ _) =>
          apply keeps_index_remove; solve [key_neq | assumption]
      end ].

(** *** The owner of a timesheet *)

(** The routes other than the update and the delete of a timesheet leave
    its record as it is. *)
Lemma serve_other_keeps_timesheet
    (r : request) (e : env) (st : gmap string json) (tid : string) :
  is_Some (st !! ("timesheets:" +:+ tid)) ->
  fresh r e st ->
  r <> UpdateTimesheet tid ->
  r <> DeleteTimesheet tid ->
  fst (serve r e st) !! ("timesheets:" +:+ tid)
    = st !! ("timesheets:" +:+ tid).
Proof.
  intros [t Hget] Hfresh Hupd Hdel.
  destruct r as [created| |codeId|codeId| |userId|userId| | |projectId
                |projectId| |tid'|tid'| ]; cbn [serve fresh] in *;
    apply keeps_handler.
  - unfold signup, join_org. frames.
  - unfold create_invite_code. frames.
  - unfold toggle_invite_code. frames.
  - unfold delete_invite_code. frames.
  - unfold update_me. frames.
  - unfold update_user. frames.
  - unfold delete_user. frames.
  - unfold create_project. frames.
  - unfold get_projects. frames.
  - unfold update_project. frames.
  - unfold delete_project. frames.
  - assert (Hne : "timesheets:" +:+ new_timesheet_id e
                    <> "timesheets:" +:+ tid) by congruence.
    unfold create_timesheet. frames.
  - assert (Hk : "timesheets:" +:+ tid' <> "timesheets:" +:+ tid).
    { intros Heq. apply Hupd. f_equal. by apply (key_inj "timesheets:"). }
    unfold update_timesheet. frames.
  - assert (Hk : "timesheets:" +:+ tid' <> "timesheets:" +:+ tid).
    { intros Heq. apply Hdel. f_equal. by apply (key_inj "timesheets:"). }
    unfold delete_timesheet. frames.
  - unfold test_database. frames.
Qed.

(** One request: a stored timesheet is afterwards either gone or still
    has its [userId]. *)
Lemma serve_keeps_timesheet_owner
    (r : request) (e : env) (st : gmap string json) (tid : string) (t : json) :
  st !! ("timesheets:" +:+ tid) = Some t ->
  fresh r e st ->
  fst (serve r e st) !! ("timesheets:" +:+ tid) = None \/
  exists t' : json,
    fst (serve r e st) !! ("timesheets:" +:+ tid) = Some t' /\
    prop t' "userId" = prop t "userId".
Proof.
  intros Hget Hfresh.
  destruct (decide (r = UpdateTimesheet tid)) as [->|Hupd];
    [|destruct (decide (r = DeleteTimesheet tid)) as [->|Hdel]].
  - cbn [serve]. unfold update_timesheet. run_handler.
    destruct (caller e) as [uid|]; [|right; exists t; by split].
    destruct (body e) as [updates|]; [|right; exists t; by split].
    rewrite Hget. destruct (truthy (Some t)) eqn:Ht;
      [|right; exists t; by split].
    cbn [negb]. rewrite (field_defined _ _ _ Ht).
    destruct (strict_eq (prop t "userId") (Some (JStr uid))) eqn:Heq;
      [|right; exists t; by split].
    apply strict_eq_string in Heq. cbn [negb fst].
    right. eexists. split; [apply lookup_insert_eq|].
    read_literal. by rewrite Heq.
  - cbn [serve]. unfold delete_timesheet. run_handler.
    destruct (caller e) as [uid|]; [|right; exists t; by split].
    rewrite Hget. destruct (truthy (Some t)) eqn:Ht;
      [|right; exists t; by split].
    cbn [negb]. rewrite (field_defined _ _ _ Ht).
    destruct (strict_eq (prop t "userId") (Some (JStr uid))) eqn:Heq;
      [|right; exists t; by split].
    cbn [negb]. left.
    pose proof (keeps_index_remove ("timesheets:" +:+ tid)
                  ("user-timesheets:" +:+ uid) tid) as Hidx.
    specialize (Hidx ltac:(key_neq) (delete ("timesheets:" +:+ tid) st)).
    rewrite lookup_delete_eq in Hidx.
    destruct (index_remove _ _ _) as [st' [[]|]]; exact Hidx.
  - right. exists t. split; [|reflexivity].
    rewrite serve_other_keeps_timesheet; eauto.
Qed.

(** Along a run during which the record stays in the store, its [userId]
    stays what it was. *)
Lemma run_keeps_timesheet_owner
    (rs : list (request * env)) (st : gmap string json) (tid : string)
    (t : json) :
  st !! ("timesheets:" +:+ tid) = Some t ->
  alive ("timesheets:" +:+ tid) rs st ->
  exists t' : json,
    run rs st !! ("timesheets:" +:+ tid) = Some t' /\
    prop t' "userId" = prop t "userId".
Proof.
  revert st t. induction rs as [|[r e] rest IH]; intros st t Hget Halive.
  - exists t. by split.
  - destruct Halive as (Hfresh & [t1 Ht1] & Hrest). cbn [run].
    destruct (serve_keeps_timesheet_owner r e st tid t Hget Hfresh)
      as [Hgone | (t1' & Ht1' & Howner)]; [congruence|].
    destruct (IH _ t1 Ht1 Hrest) as (t' & Ht' & Hsame).
    exists t'. split; [exact Ht'|]. congruence.
Qed.

(** The record that POST /timesheets writes. *)
Lemma create_timesheet_record
    (e : env) (uid : string) (b : json) (st : gmap string json) :
  caller e = Some uid ->
  body e = Some b ->
  b <> JNull ->
  exists t : json,
    fst (create_timesheet e st) !! ("timesheets:" +:+ new_timesheet_id e)
      = Some t /\
    prop t "userId" = Some (JStr uid).
Proof.
  intros Hc Hb Hnn. eexists. split.
  - unfold create_timesheet. cbv zeta. run_handler. rewrite Hc, Hb.
    assert (Hd : forall st0, destructure b st0 = (st0, Some tt))
      by (intros st0; destruct b; try congruence; reflexivity).
    rewrite Hd.
    match goal with
    | |- context [index_append ?key ?id ?st1] =>
        pose proof (keeps_index_append
                      ("timesheets:" +:+ new_timesheet_id e) key id
                      ltac:(key_neq) st1) as Hidx;
        destruct (index_append key id st1) as [st' [[]|]]
    end; cbn [fst] in *; rewrite Hidx; apply lookup_insert_eq.
  - read_literal. reflexivity.
Qed.

(** C8.  A timesheet created by a caller has the caller's id as
    [userId]; after any run of requests during which the record stays in
    the store (updates of that timesheet by its owner, refused updates,
    and every other route) the stored [userId] is still that id; and a
    request other than the update or the delete of that timesheet leaves
    its record as it is. *)
Theorem timesheet_owner_never_changes
    (e : env) (uid : string) (b : json) (st : gmap string json)
    (rs : list (request * env)) :
  caller e = Some uid ->
  body e = Some b ->
  b <> JNull ->
  let tid := new_timesheet_id e in
  let key := "timesheets:" +:+ tid in
  let created := fst (create_timesheet e st) in
  (exists t : json,
     created !! key = Some t /\ prop t "userId" = Some (JStr uid)) /\
  (alive key rs created ->
   exists t' : json,
     run rs created !! key = Some t' /\
     prop t' "userId" = Some (JStr uid)) /\
  (forall (r : request) (e' : env) (st' : gmap string json),
     is_Some (st' !! key) -> fresh r e' st' ->
     r <> UpdateTimesheet tid -> r <> DeleteTimesheet tid ->
     fst (serve r e' st') !! key = st' !! key).
Proof.
  intros Hc Hb Hnn tid key created.
  destruct (create_timesheet_record e uid b st Hc Hb Hnn) as (t & Ht & Hu).
  split; [by exists t|]. split.
  - intros Halive.
    destruct (run_keeps_timesheet_owner rs created _ t Ht Halive)
      as (t' & Ht' & Hsame).
    exists t'. split; [exact Ht'|]. congruence.
  - intros r e' st' Hsome Hfresh Hupd Hdel.
    by apply serve_other_keeps_timesheet.
Qed.

(** *** POST /signup with an invite code *)

Lemma kv_scan_spec (p : string) (st : gmap string json) (v : json) :
  In v (kv_scan p st) <->
  exists k : string, st !! k = Some v /\ String.prefix p k = true.
Proof.
  unfold kv_scan. rewrite in_map_iff. split.
  - intros ([k v'] & Hv & Hin). cbn in Hv. subst v'.
    apply filter_In in Hin as [Hin Hp]. cbn in Hp.
    exists k. split; [|exact Hp].
    by apply elem_of_map_to_list, list_elem_of_In.
  - intros (k & Hget & Hp). exists (k, v). split; [reflexivity|].
    apply filter_In. split; [|exact Hp].
    by apply list_elem_of_In, elem_of_map_to_list.
Qed.

Lemma codes_are_objects_scan (st : gmap string json) (c : json) :
  codes_are_objects st -> In c (kv_scan "invite-codes:" st) ->
  exists o : gmap string json, c = JObj o.
Proof.
  intros Hobj Hin. apply kv_scan_spec in Hin as (k & Hget & Hp). eauto.
Qed.

(** On a list of objects the search does not throw: it gives the first
    code that passes the test. *)
Lemma find_opt_objects (t : Z) (code : option json) (l : list json) :
  (forall c : json, In c l -> exists o : gmap string json, c = JObj o) ->
  find_opt (redeemable t code) l = Some (List.find (valid_code t code) l).
Proof.
  induction l as [|c l IH]; intros Hobj; [reflexivity|].
  destruct (Hobj c (or_introl eq_refl)) as [o ->]. cbn [find_opt redeemable find].
  destruct (valid_code t code (JObj o)); [reflexivity|].
  apply IH. intros c' Hin. apply Hobj. by right.
Qed.

Lemma find_opt_found (t : Z) (code : option json) (l : list json) (c : json) :
  find_opt (redeemable t code) l = Some (Some c) ->
  In c l /\ valid_code t code c = true.
Proof.
  induction l as [|x l IH]; cbn [find_opt]; [discriminate|].
  destruct x; cbn [redeemable]; try discriminate;
    match goal with
    | |- context [valid_code t code ?x] =>
        destruct (valid_code t code x) eqn:Hv
    end;
    intros H;
    try (injection H as <-; split; [by left | exact Hv]);
    destruct (IH H) as [Hin Hc]; (split; [by right | exact Hc]).
Qed.

(** A code that passes the test for a presented (truthy) invite code is
    an object. *)
Lemma valid_code_object (t : Z) (code : option json) (c : json) :
  truthy code = true -> valid_code t code c = true ->
  exists o : gmap string json, c = JObj o.
Proof.
  intros Hcode Hv. destruct c; eauto;
    cbn in Hv; destruct code; try discriminate Hcode; discriminate Hv.
Qed.

Lemma spent_not_valid (t : Z) (code : option json) (c : json) :
  spent t c -> valid_code t code c = false.
Proof.
  unfold valid_code.
  intros [Hoff | [(Hset & d & Hd & Hlt) | (Hset & m & Hmax & Hcur)]].
  - rewrite Hoff. cbn [truthy]. by rewrite andb_false_r.
  - rewrite Hset. unfold in_future. rewrite Hd.
    assert (Z.ltb t d = false) as -> by (apply Z.ltb_ge; lia).
    cbn [negb orb]. by rewrite andb_false_r.
  - rewrite Hset, Hmax, Hcur. cbn [negb orb less_than to_primitive to_number].
    rewrite Z.ltb_irrefl. by rewrite andb_false_r.
Qed.

Lemma keeps_join_org (k uid : string) (orgId : option json) :
  "user-org:" +:+ uid <> k -> "org-users:" +:+ show orgId <> k ->
  keeps k (join_org uid orgId).
Proof. intros Hu Ho. unfold join_org. frames. Qed.

(** The store writes of a signup that redeems the code [c]. *)
Lemma signup_redeems
    (e : env) (b : json) (uid : string) (c : json) (st : gmap string json) :
  body e = Some b ->
  truthy (prop b "inviteCode") = true ->
  find_opt (redeemable (now e) (prop b "inviteCode"))
    (kv_scan "invite-codes:" st) = Some (Some c) ->
  let used :=
    literal (spread (Some c))
      [("currentUses", Some (plus_one (prop c "currentUses")))] in
  let user :=
    literal ∅
      [("id", Some (JStr uid)); ("email", prop b "email");
       ("name", prop b "name"); ("role", Some (JStr "staff"));
       ("orgId", prop c "orgId");
       ("createdAt", Some (JStr (to_iso (now e))))] in
  let st' := fst (signup (inr uid) e st) in
  st' !! ("users:" +:+ uid) = Some user /\
  st' !! ("invite-codes:" +:+ show (prop c "id")) = Some used.
Proof.
  intros Hb Hcode Hfind used user st'.
  destruct (find_opt_found _ _ _ _ Hfind) as [_ Hvalid].
  destruct (valid_code_object _ _ _ Hcode Hvalid) as [o ->].
  assert (Hd : forall st0, destructure b st0 = (st0, Some tt)).
  { intros st0. destruct b; try discriminate Hcode; reflexivity. }
  subst st'. unfold signup. run_handler. rewrite Hb, Hd, Hcode, Hfind.
  cbn [truthy negb].
  match goal with
  | |- context [join_org uid ?org ?st1] =>
      pose proof (keeps_join_org ("users:" +:+ uid) uid org
                    ltac:(key_neq) ltac:(key_neq) st1) as Huser;
      pose proof (keeps_join_org
                    ("invite-codes:" +:+ show (prop (JObj o) "id")) uid org
                    ltac:(key_neq) ltac:(key_neq) st1) as Hused;
      destruct (join_org uid org st1) as [st2 [[]|]]
  end; cbn [fst] in *; rewrite Huser, Hused;
    (split; [apply lookup_insert_eq
            | rewrite lookup_insert_ne by key_neq; apply lookup_insert_eq]).
Qed.

(** C3.  A signup that presents an invite code for which the store holds
    a code passing the server's test (same code text, active, not
    expired, uses remaining) stores a user record whose [orgId] is the
    [orgId] of the code that the server redeems, a stored code passing
    the test (the presented one when no other stored code has its text),
    and whose [role] is ['staff'], whatever the body's [role].  That the
    stored codes are objects is an invariant of the server
    ([run_code_records], [code_records_objects]). *)
Theorem signup_with_invite_code_joins_org
    (e : env) (b : json) (uid k0 : string) (c0 : json)
    (st : gmap string json) :
  body e = Some b ->
  truthy (prop b "inviteCode") = true ->
  codes_are_objects st ->
  st !! k0 = Some c0 ->
  String.prefix "invite-codes:" k0 = true ->
  valid_code (now e) (prop b "inviteCode") c0 = true ->
  exists c user : json,
    In c (kv_scan "invite-codes:" st) /\
    valid_code (now e) (prop b "inviteCode") c = true /\
    fst (signup (inr uid) e st) !! ("users:" +:+ uid) = Some user /\
    prop user "orgId" = prop c "orgId" /\
    prop user "role" = Some (JStr "staff") /\
    ((forall c' : json,
        In c' (kv_scan "invite-codes:" st) ->
        strict_eq (prop c' "code") (prop b "inviteCode") = true ->
        c' = c0) ->
     c = c0).
Proof.
  intros Hb Hcode Hobj Hget Hp Hvalid.
  assert (Hin0 : In c0 (kv_scan "invite-codes:" st))
    by (apply kv_scan_spec; eauto).
  assert (Hfind : exists c,
    find_opt (redeemable (now e) (prop b "inviteCode"))
      (kv_scan "invite-codes:" st) = Some (Some c)).
  { rewrite find_opt_objects by (intros; by eapply codes_are_objects_scan).
    destruct (find _ _) as [c|] eqn:Hf; [eauto|].
    exfalso. pose proof (find_none _ _ Hf c0 Hin0). congruence. }
  destruct Hfind as [c Hfind].
  destruct (find_opt_found _ _ _ _ Hfind) as [Hin Hv].
  destruct (signup_redeems e b uid c st Hb Hcode Hfind) as [Huser _].
  exists c. eexists.
  split; [exact Hin|]. split; [exact Hv|]. split; [exact Huser|].
  split; [|split].
  - read_literal. reflexivity.
  - read_literal. reflexivity.
  - intros Huniq. apply Huniq; [exact Hin|].
    unfold valid_code in Hv. by repeat (apply andb_prop in Hv as [Hv _]).
Qed.

(** C4.  A signup that redeems a code whose use count is a number [n]
    stores that code, under its id, with the use count [n + 1] and
    nothing else changed.  A signup that presents an invite code is
    refused with the invalid-code error, the store unchanged, when every
    stored code with the presented text is deactivated, or past its
    expiry, or at its maximum of uses.  In every store that the server
    reaches, a code that the scan finds is stored under its id and has a
    numeric use count ([code_records_scan]). *)
Theorem signup_invite_code_redemption
    (e : env) (b : json) (uid : string) (st : gmap string json) :
  body e = Some b ->
  truthy (prop b "inviteCode") = true ->
  (forall (c : json) (n : Z),
     find_opt (redeemable (now e) (prop b "inviteCode"))
       (kv_scan "invite-codes:" st) = Some (Some c) ->
     st !! ("invite-codes:" +:+ show (prop c "id")) = Some c ->
     prop c "currentUses" = Some (JNum n) ->
     exists c' : json,
       fst (signup (inr uid) e st) !! ("invite-codes:" +:+ show (prop c "id"))
         = Some c' /\
       prop c' "currentUses" = Some (JNum (n + 1)) /\
       forall f : string, f <> "currentUses" -> prop c' f = prop c f) /\
  (codes_are_objects st ->
   (forall c : json,
      In c (kv_scan "invite-codes:" st) ->
      strict_eq (prop c "code") (prop b "inviteCode") = true ->
      spent (now e) c) ->
   signup (inr uid) e st
     = (st, json_error 400 "Invalid or expired invite code")).
Proof.
  intros Hb Hcode. split.
  - intros c n Hfind Hstored Huses.
    destruct (signup_redeems e b uid c st Hb Hcode Hfind) as [_ Hused].
    eexists. split; [exact Hused|]. split.
    + read_literal. by rewrite Huses.
    + intros f Hf. read_literal.
      destruct (find_opt_found _ _ _ _ Hfind) as [_ Hvalid].
      by destruct (valid_code_object _ _ _ Hcode Hvalid) as [o ->].
  - intros Hobj Hspent.
    assert (Hd : forall st0, destructure b st0 = (st0, Some tt)).
    { intros st0. destruct b; try discriminate Hcode; reflexivity. }
    unfold signup. run_handler. rewrite Hb, Hd, Hcode.
    rewrite find_opt_objects by (intros; by eapply codes_are_objects_scan).
    destruct (find _ _) as [c|] eqn:Hf; [|reflexivity].
    exfalso. apply find_some in Hf as [Hin Hv].
    assert (Hmatch : strict_eq (prop c "code") (prop b "inviteCode") = true).
    { unfold valid_code in Hv. by repeat (apply andb_prop in Hv as [Hv _]). }
    rewrite (spent_not_valid _ _ _ (Hspent c Hin Hmatch)) in Hv. discriminate.
Qed.

(** *** GET /projects *)

Lemma filter_opt_sound (f : json -> option bool) (l r : list json) :
  filter_opt f l = Some r ->
  forall p : json, In p r -> In p l /\ f p = Some true.
Proof.
  revert r. induction l as [|x l IH]; cbn [filter_opt]; intros r Hr p Hin.
  - injection Hr as <-. destruct Hin.
  - destruct (f x) as [bx|] eqn:Hx; [|discriminate].
    destruct (filter_opt f l) as [r'|]; [|discriminate].
    injection Hr as <-. destruct bx.
    + destruct Hin as [<-|Hin]; [by split; [left|]|].
      destruct (IH r' eq_refl p Hin). split; [by right|done].
    + destruct (IH r' eq_refl p Hin). split; [by right|done].
Qed.

Lemma filter_opt_total (f : json -> option bool) (l : list json) :
  (forall p : json, In p l -> is_Some (f p)) ->
  filter_opt f l
    = Some (List.filter
              (fun p => match f p with Some true => true | _ => false end) l).
Proof.
  induction l as [|x l IH]; intros Hdef; [reflexivity|].
  cbn [filter_opt List.filter].
  destruct (Hdef x (or_introl eq_refl)) as [bx Hx]. rewrite Hx.
  rewrite IH by (intros p Hp; apply Hdef; by right).
  by destruct bx.
Qed.

Lemma includes_array (l : list json) (uid : string) :
  includes (Some (JArr l)) (JStr uid) = Some true -> In (JStr uid) l.
Proof.
  cbn [includes]. intros [= Hex]. apply existsb_exists in Hex as (y & Hin & Hy).
  destruct y; try discriminate Hy. apply String.eqb_eq in Hy. by subst.
Qed.

(** C5, as the server has it.  A caller without organization gets the
    empty list.  Every project in the list returned to a staff caller
    passes the server's test [p.assignedUsers.includes(user.id)]: its
    [assignedUsers] is an array that has the caller's id among its
    elements, or a string that has the caller's id as a substring (the
    project routes store the [assignedUsers] of the body as it comes, so
    it need not be a list).  For a caller of an organization whose
    [org-projects] index is a list (or absent): an admin gets the records
    stored for the ids of that index, in its order; a staff caller gets
    those of them that pass the test, when every [assignedUsers] is an
    array or a string (on any other value the test throws). *)
Theorem get_projects_by_role
    (e : env) (uid : string) (cu : json) (st : gmap string json) :
  caller e = Some uid ->
  st !! ("users:" +:+ uid) = Some cu ->
  cu <> JNull ->
  (truthy (prop cu "orgId") = false ->
   get_projects e st = (st, json_ok (JArr []))) /\
  (prop cu "role" = Some (JStr "staff") ->
   forall ps : list json,
     payload (snd (get_projects e st)) = JArr ps ->
     forall p : json,
       In p ps ->
       includes (prop p "assignedUsers") (JStr uid) = Some true /\
       ((exists l : list json,
           prop p "assignedUsers" = Some (JArr l) /\ In (JStr uid) l) \/
        (exists s : string,
           prop p "assignedUsers" = Some (JStr s) /\ occurs uid s = true))) /\
  (truthy (prop cu "orgId") = true ->
   forall ids : list json,
     or_else (st !! ("org-projects:" +:+ show (prop cu "orgId"))) (JArr [])
       = JArr ids ->
     let projects :=
       kv_multi (map (fun id => "projects:" +:+ to_string id) ids) st in
     (prop cu "role" = Some (JStr "admin") ->
      get_projects e st = (st, json_ok (JArr projects))) /\
     (prop cu "role" = Some (JStr "staff") ->
      (forall p : json,
         In p projects ->
         (exists l : list json, prop p "assignedUsers" = Some (JArr l)) \/
         (exists s : string, prop p "assignedUsers" = Some (JStr s))) ->
      get_projects e st
        = (st, json_ok (JArr (List.filter (is_assigned uid) projects))))).
Proof.
  intros Hc Hget Hnn.
  assert (Hf : forall f st0, field (Some cu) f st0 = (st0, Some (prop cu f))).
  { intros f st0. destruct cu; try congruence; reflexivity. }
  assert (Hnone : truthy (prop cu "orgId") = false ->
                  get_projects e st = (st, json_ok (JArr []))).
  { intros Horg. unfold get_projects. run_handler.
    rewrite Hc, Hget, Hf, Horg. reflexivity. }
  assert (Hrun : truthy (prop cu "orgId") = true ->
    forall ids : list json,
      or_else (st !! ("org-projects:" +:+ show (prop cu "orgId"))) (JArr [])
        = JArr ids ->
      get_projects e st =
        handler "Failed to fetch projects"
          (if strict_eq (prop cu "role") (Some (JStr "staff")) then
             let* mine :=
               try_ (filter_opt (assigned_to uid)
                       (kv_multi
                          (map (fun id => "projects:" +:+ to_string id) ids)
                          st)) in
             ret (json_ok (JArr mine))
           else
             ret (json_ok
                    (JArr (kv_multi
                             (map (fun id => "projects:" +:+ to_string id) ids)
                             st)))) st).
  { intros Horg ids Hids. unfold get_projects. run_handler.
    rewrite Hc, Hget, Hf, Horg. cbn [negb]. rewrite Hids. cbn [array_of].
    rewrite ?Hget, ?Hf. reflexivity. }
  split; [exact Hnone|]. split.
  - intros Hrole ps Hps p Hin.
    destruct (truthy (prop cu "orgId")) eqn:Horg.
    + destruct (or_else (st !! ("org-projects:" +:+ show (prop cu "orgId")))
                  (JArr [])) as [| | | |ids|] eqn:Hids.
      all: try (exfalso; revert Hps; unfold get_projects; run_handler;
                rewrite Hc, Hget, Hf, Horg; cbn [negb];
                rewrite Hids; cbn; discriminate).
      rewrite (Hrun eq_refl ids eq_refl), Hrole in Hps.
      rewrite (proj2 (strict_eq_string _ _) eq_refl) in Hps.
      revert Hps. run_handler.
      destruct (filter_opt _ _) as [mine|] eqn:Hfl; cbn; [|discriminate].
      intros [= ->].
      destruct (filter_opt_sound _ _ _ Hfl p Hin) as [_ Hass].
      assert (Hinc : includes (prop p "assignedUsers") (JStr uid) = Some true).
      { destruct p; try discriminate Hass; exact Hass. }
      split; [exact Hinc|].
      destruct (prop p "assignedUsers") as [[| | |s|l|]|] eqn:Hl;
        try discriminate Hinc.
      * right. exists s. split; [reflexivity|].
        cbn [includes to_string] in Hinc. by injection Hinc.
      * left. exists l. split; [reflexivity|]. by apply includes_array.
    + rewrite (Hnone eq_refl) in Hps. injection Hps as <-. destruct Hin.
  - intros Horg ids Hids projects. split.
    + intros Hrole. rewrite (Hrun Horg ids Hids), Hrole. reflexivity.
    + intros Hrole Htyped. rewrite (Hrun Horg ids Hids), Hrole.
      rewrite (proj2 (strict_eq_string _ _) eq_refl). run_handler.
      fold projects. rewrite filter_opt_total; [reflexivity|].
      intros p Hp. unfold assigned_to.
      destruct (Htyped p Hp) as [[l Hl]|[s Hl]];
        (destruct p; try discriminate Hl); rewrite Hl; cbn [includes]; eauto.
Qed.

(** *** The shape of the stored data is an invariant of the server *)

Lemma stays_ret (I : gmap string json -> Prop) {A : Type} (a : A) :
  stays I (ret a).
Proof. intros st H. exact H. Qed.

Lemma stays_throw (I : gmap string json -> Prop) {A : Type} :
  stays I (@throw A).
Proof. intros st H. exact H. Qed.

Lemma stays_try (I : gmap string json -> Prop) {A : Type} (o : option A) :
  stays I (try_ o).
Proof. destruct o; intros st H; exact H. Qed.

Lemma stays_get (I : gmap string json -> Prop) (key : string) :
  stays I (kv_get key).
Proof. intros st H. exact H. Qed.

Lemma stays_mget (I : gmap string json -> Prop) (keys : list string) :
  stays I (kv_mget keys).
Proof. intros st H. exact H. Qed.

Lemma stays_getByPrefix (I : gmap string json -> Prop) (p : string) :
  stays I (kv_getByPrefix p).
Proof. intros st H. exact H. Qed.

Lemma stays_field (I : gmap string json -> Prop) (v : option json)
    (f : string) :
  stays I (field v f).
Proof. destruct v as [[]|]; intros st H; exact H. Qed.

Lemma stays_destructure (I : gmap string json -> Prop) (b : json) :
  stays I (destructure b).
Proof. destruct b; intros st H; exact H. Qed.

Lemma stays_bind (I : gmap string json -> Prop) {A B : Type}
    (m : M A) (f : A -> M B) :
  stays I m -> (forall a : A, stays I (f a)) -> stays I (bind m f).
Proof.
  intros Hm Hf st H. unfold bind. specialize (Hm st H).
  destruct (m st) as [st' [a|]]; cbn [fst] in *; [by apply Hf | exact Hm].
Qed.

Lemma stays_attempt (I : gmap string json -> Prop) (m : M unit) :
  stays I m -> stays I (attempt m).
Proof. intros Hm st H. by apply Hm. Qed.

Lemma stays_handler (I : gmap string json -> Prop) (msg : string)
    (m : M response) (st : gmap string json) :
  stays I m -> I st -> I (fst (handler msg m st)).
Proof.
  intros Hm H. unfold handler. specialize (Hm st H).
  by destruct (m st) as [st' [r|]].
Qed.

Lemma family_set (p : string) (Q : json -> Prop) (key : string) (v : json) :
  (String.prefix p key = true -> Q v) ->
  stays (family p Q) (kv_set key v).
Proof.
  intros Hv st H k x Hget Hp. cbn in Hget.
  destruct (decide (key = k)) as [->|Hne].
  - rewrite lookup_insert_eq in Hget. injection Hget as <-. by apply Hv.
  - rewrite lookup_insert_ne in Hget by done. by eapply H.
Qed.

Lemma family_del (p : string) (Q : json -> Prop) (key : string) :
  stays (family p Q) (kv_del key).
Proof.
  intros st H k x Hget Hp. cbn in Hget.
  apply lookup_delete_Some in Hget as [_ Hget]. by eapply H.
Qed.

(** A write is harmless for a family when its key is of another family
    or when its value has the shape of the family. *)
Ltac shape :=
  let H := fresh "Hp" in
  intros H;
  first [ discriminate H
        | cbn in H; discriminate H
        | eexists; reflexivity ].

Ltac invariant :=
  cbv zeta;
  repeat match goal with
    | |- stays _ (ret _) => apply stays_ret
    | |- stays _ throw => apply stays_throw
    | |- stays _ (try_ _) => apply stays_try
    | |- stays _ (req_json _) => apply stays_try
    | |- stays _ (kv_get _) => apply stays_get
    | |- stays _ (kv_mget _) => apply stays_mget
    | |- stays _ (kv_getByPrefix _) => apply stays_getByPrefix
    | |- stays _ (field _ _) => apply stays_field
    | |- stays _ (destructure _) => apply stays_destructure
    | |- stays _ (kv_set _ _) => apply family_set; solve [shape]
    | |- stays _ (kv_del _) => apply family_del
    | |- stays _ (attempt _) => apply stays_attempt
    | |- stays _ (bind _ _) => apply stays_bind; [|intros ?]
    | |- stays _ (is_admin _) => unfold is_admin
    | |- stays _ (index_append _ _) => unfold index_append
    | |- stays _ (index_remove _ _) => unfold index_remove
    | |- stays _ (join_org _ _) => unfold join_org
    | |- stays _ (if ?c then _ else _) => destruct c
    | |- stays _ (match ?x with _ => _ end) => destruct x
    end.

Lemma serve_keeps_family (p : string) (Q : json -> Prop)
    (r : request) (e : env) (st : gmap string json) :
  (p = "invite-codes:" /\ Q = is_object) \/
  ((p = "user-timesheets:" \/ p = "org-projects:") /\ Q = is_list) ->
  family p Q st -> family p Q (fst (serve r e st)).
Proof.
  intros Hfam H.
  destruct r; cbn [serve];
    unfold signup, create_invite_code, toggle_invite_code,
      delete_invite_code, update_me, update_user, delete_user,
      create_project, get_projects, update_project, delete_project,
      create_timesheet, update_timesheet, delete_timesheet, test_database;
    (apply stays_handler; [|exact H]);
    destruct Hfam as [[-> ->] | [[-> | ->] ->]];
    invariant.
Qed.

Lemma serve_keeps_well_formed
    (r : request) (e : env) (st : gmap string json) :
  well_formed st -> well_formed (fst (serve r e st)).
Proof.
  intros (Hc & Ht & Hp). repeat split; apply serve_keeps_family; auto.
Qed.

(** Every store that the server reaches from the empty store is well
    formed. *)
Lemma run_well_formed (rs : list (request * env)) (st : gmap string json) :
  well_formed st -> well_formed (run rs st).
Proof.
  revert st. induction rs as [|[r e] rest IH]; intros st H; [exact H|].
  cbn [run]. by apply IH, serve_keeps_well_formed.
Qed.

Lemma empty_well_formed : well_formed ∅.
Proof. repeat split; intros k v Hget; by rewrite lookup_empty in Hget. Qed.

(** In a well-formed store the index lists are lists, or absent. *)
Lemma family_list_index (p key : string) (st : gmap string json) :
  family p is_list st -> String.prefix p key = true ->
  exists ids : list json, or_else (st !! key) (JArr []) = JArr ids.
Proof.
  intros H Hp. destruct (st !! key) as [v|] eqn:Hget; [|by exists []].
  destruct (H key v Hget Hp) as [l ->]. by exists l.
Qed.

(** *** Invite codes keep their shape *)

Lemma records_set (key : string) (v : json) :
  (String.prefix "invite-codes:" key = true -> code_record key v) ->
  stays code_records (kv_set key v).
Proof.
  intros Hv st H k x Hget Hp. cbn in Hget.
  destruct (decide (key = k)) as [->|Hne].
  - rewrite lookup_insert_eq in Hget. injection Hget as <-. by apply Hv.
  - rewrite lookup_insert_ne in Hget by done. by eapply H.
Qed.

Lemma records_del (key : string) : stays code_records (kv_del key).
Proof.
  intros st H k x Hget Hp. cbn in Hget.
  apply lookup_delete_Some in Hget as [_ Hget]. by eapply H.
Qed.

(** What is read from a store of code records is a code record. *)
Lemma records_bind_get {B : Type} (key : string)
    (f : option json -> M B) :
  (forall a : option json,
     (forall v : json,
        a = Some v -> String.prefix "invite-codes:" key = true ->
        code_record key v) ->
     stays code_records (f a)) ->
  stays code_records (bind (kv_get key) f).
Proof.
  intros Hf st H. unfold bind, kv_get, kv_lookup.
  apply Hf; [|exact H]. intros v Hv Hp. by eapply H.
Qed.

Lemma records_bind_scan {B : Type} (f : list json -> M B) :
  (forall l : list json,
     (forall c : json,
        In c l -> exists k : string, code_record k c) ->
     stays code_records (f l)) ->
  stays code_records (bind (kv_getByPrefix "invite-codes:") f).
Proof.
  intros Hf st H. unfold bind, kv_getByPrefix.
  apply Hf; [|exact H]. intros c Hin.
  apply kv_scan_spec in Hin as (k & Hget & Hp). exists k. by eapply H.
Qed.

Lemma stays_bind_try (I : gmap string json -> Prop) {A B : Type}
    (o : option A) (f : A -> M B) :
  (forall a : A, o = Some a -> stays I (f a)) ->
  stays I (bind (try_ o) f).
Proof.
  intros Hf st H. destruct o as [a|]; cbn; [by apply Hf | exact H].
Qed.

Ltac other_family :=
  let H := fresh "Hp" in
  intros H; first [ discriminate H | cbn in H; discriminate H ].

Ltac records :=
  cbv zeta;
  repeat match goal with
    | |- stays _ (ret _) => apply stays_ret
    | |- stays _ throw => apply stays_throw
    | |- stays _ (try_ _) => apply stays_try
    | |- stays _ (req_json _) => apply stays_try
    | |- stays _ (kv_get _) => apply stays_get
    | |- stays _ (kv_mget _) => apply stays_mget
    | |- stays _ (kv_getByPrefix _) => apply stays_getByPrefix
    | |- stays _ (field _ _) => apply stays_field
    | |- stays _ (destructure _) => apply stays_destructure
    | |- stays _ (kv_set _ _) => apply records_set; solve [other_family]
    | |- stays _ (kv_del _) => apply records_del
    | |- stays _ (attempt _) => apply stays_attempt
    | |- stays _ (bind (kv_get _) _) => apply records_bind_get; intros ? ?
    | |- stays _ (bind (kv_getByPrefix "invite-codes:") _) =>
        apply records_bind_scan; intros ? ?
    | |- stays _ (bind (try_ _) _) => apply stays_bind_try; intros ? ?
    | |- stays _ (bind _ _) => apply stays_bind; [|intros ?]
    | |- stays _ (is_admin _) => unfold is_admin
    | |- stays _ (index_append _ _) => unfold index_append
    | |- stays _ (index_remove _ _) => unfold index_remove
    | |- stays _ (join_org _ _) => unfold join_org
    | |- stays _ (if ?c then _ else _) => destruct c eqn:?
    | |- stays _ (match ?x with _ => _ end) => destruct x eqn:?
    end.

Lemma code_record_literal (key : string) (base : gmap string json)
    (fields : list (string * option json)) :
  key = "invite-codes:" +:+ show (prop (literal base fields) "id") ->
  (exists b : bool, prop (literal base fields) "isActive" = Some (JBool b)) ->
  (exists n : Z, prop (literal base fields) "currentUses" = Some (JNum n)) ->
  code_record key (literal base fields).
Proof. intros Hk Hb Hn. eexists. split; [reflexivity|]. by repeat split. Qed.

Lemma serve_keeps_code_records
    (r : request) (e : env) (st : gmap string json) :
  code_records st -> code_records (fst (serve r e st)).
Proof.
  intros H.
  destruct r; cbn [serve];
    unfold signup, create_invite_code, toggle_invite_code,
      delete_invite_code, update_me, update_user, delete_user,
      create_project, get_projects, update_project, delete_project,
      create_timesheet, update_timesheet, delete_timesheet, test_database;
    (apply stays_handler; [|exact H]); records.
  - (* signup: the redeemed code is written back with one more use *)
    apply records_set. intros _.
    match goal with
    | Hfind : find_opt _ ?l = Some (Some ?c),
      Hscan : forall c : json, In c ?l -> _ |- _ =>
        destruct (find_opt_found _ _ _ _ Hfind) as [Hin _];
        destruct (Hscan c Hin) as (k & o & -> & Hk & [b Hb] & [n Hn])
    end.
    apply code_record_literal; read_literal; cbn [spread prop].
    + reflexivity.
    + eauto.
    + rewrite Hn. cbn [plus_one]. eauto.
  - (* creation: a new record under the key of its id *)
    apply records_set. intros _.
    apply code_record_literal; read_literal; eauto.
  - (* toggle: the record read under the key is written back *)
    apply records_set. intros Hp.
    match goal with
    | Hread : forall v : json, ?a = Some v -> _ |- _ =>
        destruct a as [v|]; [|discriminate];
        destruct (Hread v eq_refl Hp) as (o & -> & Hk & [b Hb] & [n Hn])
    end.
    apply code_record_literal; read_literal; cbn [spread].
    + exact Hk.
    + eauto.
    + eauto.
Qed.

(** Every store that the server reaches from a store of code records is
    one, the empty store to begin with. *)
Lemma run_code_records (rs : list (request * env)) (st : gmap string json) :
  code_records st -> code_records (run rs st).
Proof.
  revert st. induction rs as [|[r e] rest IH]; intros st H; [exact H|].
  cbn [run]. by apply IH, serve_keeps_code_records.
Qed.

Lemma empty_code_records : code_records ∅.
Proof. intros k v Hget. by rewrite lookup_empty in Hget. Qed.

(** In a store of code records the codes are objects, and a code that a
    scan finds is the record stored under its id, with a numeric use
    count and a boolean [isActive]. *)
Lemma code_records_objects (st : gmap string json) :
  code_records st -> codes_are_objects st.
Proof.
  intros H k v Hget Hp. destruct (H k v Hget Hp) as (o & -> & _). eauto.
Qed.

Lemma code_records_scan (st : gmap string json) (c : json) :
  code_records st -> In c (kv_scan "invite-codes:" st) ->
  st !! ("invite-codes:" +:+ show (prop c "id")) = Some c /\
  (exists n : Z, prop c "currentUses" = Some (JNum n)) /\
  (exists b : bool, prop c "isActive" = Some (JBool b)).
Proof.
  intros H Hin. apply kv_scan_spec in Hin as (k & Hget & Hp).
  destruct (H k c Hget Hp) as (o & -> & Hk & Hb & Hn).
  cbn [prop]. rewrite <- Hk. by repeat split.
Qed.

(** ** Further properties of the routes *)

(** *** Callers that are refused *)

(** X1.  A request whose bearer token [verifyUser] does not resolve is
    answered 401 by every route that asks for a login, before the store
    is read, the body parsed or anything written. *)
Theorem unauthenticated_is_refused
    (e : env) (st : gmap string json) :
  caller e = None ->
  (forall r : request,
     needs_login r = true -> serve r e st = (st, unauthorized)) /\
  (forall q : query,
     protected q = true -> answer q e st = (st, unauthorized)).
Proof.
  intros Hc. split.
  - intros r Hr. destruct r; try discriminate Hr; cbn [serve];
      unfold create_invite_code, toggle_invite_code, delete_invite_code,
        update_me, update_user, delete_user, create_project, get_projects,
        update_project, delete_project, create_timesheet, update_timesheet,
        delete_timesheet;
      rewrite Hc; reflexivity.
  - intros q Hq. destruct q; try discriminate Hq; cbn [answer];
      unfold get_invite_codes, get_organization, get_me, get_org_users,
        get_timesheets, get_org_timesheets;
      rewrite Hc; reflexivity.
Qed.

Lemma not_admin (cu : json) (st : gmap string json) :
  cu <> JNull ->
  prop cu "role" <> Some (JStr "admin") ->
  is_admin (Some cu) st = (st, Some false).
Proof.
  intros Hnn Hrole. unfold is_admin, bind.
  assert (Hf : field (Some cu) "role" st = (st, Some (prop cu "role")))
    by (destruct cu; try congruence; reflexivity).
  rewrite Hf. cbn [ret]. 
  destruct (strict_eq (prop cu "role") (Some (JStr "admin"))) eqn:Heq;
    [|reflexivity].
  apply strict_eq_string in Heq. contradiction.
Qed.

(** X2.  A logged-in caller whose stored role is not ['admin'] gets 403
    from every admin route, whatever the path parameter and the body
    (which is not even parsed), and the store stays as it was. *)
Theorem admin_routes_refuse_other_roles
    (r : request) (e : env) (uid : string) (cu : json)
    (st : gmap string json) :
  caller e = Some uid ->
  st !! ("users:" +:+ uid) = Some cu ->
  cu <> JNull ->
  prop cu "role" <> Some (JStr "admin") ->
  admin_route r = true ->
  serve r e st = (st, admin_only).
Proof.
  intros Hc Hget Hnn Hrole Hr.
  destruct r; try discriminate Hr; cbn [serve];
    unfold create_invite_code, toggle_invite_code, delete_invite_code,
      update_user, delete_user, create_project, update_project,
      delete_project;
    run_handler; rewrite Hc, Hget, (not_admin _ _ Hnn Hrole); reflexivity.
Qed.

Lemma org_admin_defined (cu : json) (orgId : string) (st : gmap string json) :
  cu <> JNull ->
  org_admin (Some cu) orgId st
    = (st, Some (strict_eq (prop cu "orgId") (Some (JStr orgId))
                 && strict_eq (prop cu "role") (Some (JStr "admin")))).
Proof.
  intros Hnn. unfold org_admin, bind.
  assert (Hf : forall f, field (Some cu) f st = (st, Some (prop cu f)))
    by (intros f; destruct cu; try congruence; reflexivity).
  by rewrite !Hf.
Qed.

(** X3.  The three organization listings (invite codes, users,
    timesheets) answer 403 to a caller who is not an admin or whose
    stored [orgId] is not the organization asked for, and 200 with a
    list only to an admin of that very organization. *)
Theorem listings_are_for_the_admins_of_the_organization
    (q : query) (orgId : string) (e : env) (uid : string) (cu : json)
    (st : gmap string json) :
  listing_of q = Some orgId ->
  caller e = Some uid ->
  st !! ("users:" +:+ uid) = Some cu ->
  cu <> JNull ->
  (prop cu "orgId" <> Some (JStr orgId) \/
   prop cu "role" <> Some (JStr "admin") ->
   answer q e st = (st, json_error 403 "Forbidden")) /\
  (status (snd (answer q e st)) = 200 ->
   prop cu "orgId" = Some (JStr orgId) /\
   prop cu "role" = Some (JStr "admin")).
Proof.
  intros Hq Hc Hget Hnn.
  assert (Hrefuse :
    strict_eq (prop cu "orgId") (Some (JStr orgId))
    && strict_eq (prop cu "role") (Some (JStr "admin")) = false ->
    answer q e st = (st, json_error 403 "Forbidden")).
  { intros Hno.
    destruct q; try discriminate Hq; injection Hq as ->; cbn [answer];
      unfold get_invite_codes, get_org_users, get_org_timesheets;
      run_handler; rewrite Hc, Hget, (org_admin_defined _ _ _ Hnn), Hno;
      reflexivity. }
  split.
  - intros Hor. apply Hrefuse. apply andb_false_iff.
    destruct Hor as [Ho|Hr]; [left|right].
    + destruct (strict_eq (prop cu "orgId") _) eqn:Heq; [|reflexivity].
      apply strict_eq_string in Heq. contradiction.
    + destruct (strict_eq (prop cu "role") _) eqn:Heq; [|reflexivity].
      apply strict_eq_string in Heq. contradiction.
  - intros Hok.
    destruct (strict_eq (prop cu "orgId") (Some (JStr orgId))
              && strict_eq (prop cu "role") (Some (JStr "admin"))) eqn:Hb.
    + apply andb_prop in Hb as [Ho Hr].
      split; by apply strict_eq_string.
    + rewrite (Hrefuse eq_refl) in Hok. discriminate Hok.
Qed.


(** *** The routes that only read *)

Lemma reads_ret {A : Type} (a : A) : reads (ret a).
Proof. intros st. reflexivity. Qed.

Lemma reads_throw {A : Type} : reads (@throw A).
Proof. intros st. reflexivity. Qed.

Lemma reads_try {A : Type} (o : option A) : reads (try_ o).
Proof. destruct o; intros st; reflexivity. Qed.

Lemma reads_get (key : string) : reads (kv_get key).
Proof. intros st. reflexivity. Qed.

Lemma reads_mget (keys : list string) : reads (kv_mget keys).
Proof. intros st. reflexivity. Qed.

Lemma reads_getByPrefix (p : string) : reads (kv_getByPrefix p).
Proof. intros st. reflexivity. Qed.

Lemma reads_field (v : option json) (f : string) : reads (field v f).
Proof. destruct v as [[]|]; intros st; reflexivity. Qed.

Lemma reads_destructure (b : json) : reads (destructure b).
Proof. destruct b; intros st; reflexivity. Qed.

Lemma reads_bind {A B : Type} (m : M A) (f : A -> M B) :
  reads m -> (forall a : A, reads (f a)) -> reads (bind m f).
Proof.
  intros Hm Hf st. unfold bind. specialize (Hm st).
  destruct (m st) as [st' [a|]]; cbn [fst] in *; subst st'; [apply Hf|done].
Qed.

Lemma reads_catching (fail : response) (m : M response)
    (st : gmap string json) :
  reads m -> fst (catching fail m st) = st.
Proof.
  intros Hm. unfold catching. specialize (Hm st).
  by destruct (m st) as [st' [r|]].
Qed.

Lemma reads_handler (msg : string) (m : M response) (st : gmap string json) :
  reads m -> fst (handler msg m st) = st.
Proof. apply (reads_catching (json_error 500 msg)). Qed.

Ltac reading :=
  cbv zeta;
  repeat match goal with
    | |- reads (ret _) => apply reads_ret
    | |- reads throw => apply reads_throw
    | |- reads (try_ _) => apply reads_try
    | |- reads (req_json _) => apply reads_try
    | |- reads (kv_get _) => apply reads_get
    | |- reads (kv_mget _) => apply reads_mget
    | |- reads (kv_getByPrefix _) => apply reads_getByPrefix
    | |- reads (field _ _) => apply reads_field
    | |- reads (destructure _) => apply reads_destructure
    | |- reads (bind _ _) => apply reads_bind; [|intros ?]
    | |- reads (org_admin _ _) => unfold org_admin
    | |- reads (listed _ _) => unfold listed
    | |- reads (filter_dates _ _) => unfold filter_dates
    | |- reads (filter_field _ _ _) => unfold filter_field
    | |- reads (if ?c then _ else _) => destruct c
    | |- reads (match ?x with _ => _ end) => destruct x
    end.

Lemma reads_collect_timesheets (uids : list json) :
  reads (collect_timesheets uids).
Proof.
  induction uids as [|uid rest IH]; cbn [collect_timesheets]; reading.
  exact IH.
Qed.

(** X5.  The listing of the projects and the ten routes of [answer]
    (health, the lookups and verifications of an invite code, the reads
    of an organization, of the caller's profile, of the users and of the
    timesheets) never change the store, whatever they answer. *)
Theorem read_routes_leave_the_store
    (e : env) (st : gmap string json) :
  (forall q : query, fst (answer q e st) = st) /\
  fst (get_projects e st) = st.
Proof.
  split.
  - intros q. destruct q; cbn [answer]; try reflexivity.
    + apply reads_handler. unfold test_code. reading.
    + apply reads_handler. reading.
    + apply reads_catching. reading.
    + apply reads_catching. reading.
    + apply reads_handler. reading.
    + apply reads_handler. reading.
    + apply reads_handler. reading.
    + apply reads_handler. reading.
    + apply reads_handler. reading. apply reads_collect_timesheets.
  - apply reads_handler. reading.
Qed.

(** *** Invite codes: creation and deletion *)

(** The run of POST /invite-codes for an admin whose body asks for no
    expiry: the code is stored, then the index append is attempted. *)
Lemma create_invite_code_run
    (e : env) (uid : string) (cu b : json) (st : gmap string json) :
  caller e = Some uid ->
  st !! ("users:" +:+ uid) = Some cu ->
  prop cu "role" = Some (JStr "admin") ->
  body e = Some b ->
  b <> JNull ->
  truthy (prop b "expiresInDays")
  && less_than (Some (JNum 0)) (prop b "expiresInDays") = false ->
  let codeId := "code_" +:+ pretty (now e) +:+ "_" +:+ rand2 e in
  let code :=
    literal ∅
      [("id", Some (JStr codeId)); ("code", Some (JStr (rand e)));
       ("orgId", prop cu "orgId"); ("createdBy", Some (JStr uid));
       ("createdAt", Some (JStr (to_iso (now e))));
       ("expiresAt", Some JNull);
       ("maxUses", Some (or_else (prop b "maxUses") JNull));
       ("currentUses", Some (JNum 0)); ("isActive", Some (JBool true))] in
  create_invite_code e st =
    (fst (index_append ("org-invite-codes:" +:+ show (prop cu "orgId")) codeId
            (<["invite-codes:" +:+ codeId := code]> st)),
     success [("inviteCode", Some code)]).
Proof.
  intros Hc Hget Hrole Hb Hnn Hexp codeId code.
  assert (Hcu : truthy (Some cu) = true).
  { destruct cu; try discriminate Hrole. reflexivity. }
  assert (Hd : forall st0, destructure b st0 = (st0, Some tt))
    by (intros st0; destruct b; try congruence; reflexivity).
  unfold create_invite_code. cbv zeta. run_handler.
  rewrite Hc, Hget, (is_admin_true _ _ Hrole). cbn [negb].
  rewrite Hb, Hd.
  destruct (prop b "expiresInDays") as [d|] eqn:Hdays.
  - rewrite Hexp. rewrite (field_defined _ _ _ Hcu).
    unfold attempt. reflexivity.
  - rewrite (field_defined _ _ _ Hcu). unfold attempt. reflexivity.
Qed.

(** X6.  POST /invite-codes by an admin stores, under the key of the
    generated id, a code of the caller's organization with no use and
    active, with [maxUses] of the body ([null] when falsy) and with no
    expiry when the body's [expiresInDays] is falsy or not positive, and
    answers 200 with it.  The id is appended to the organization's
    index when that is a list (or absent); when the index is something
    that cannot be iterated the failure is swallowed: the code is stored
    and the answer is still 200. *)
Theorem create_invite_code_stores
    (e : env) (uid : string) (cu b : json) (st : gmap string json) :
  caller e = Some uid ->
  st !! ("users:" +:+ uid) = Some cu ->
  prop cu "role" = Some (JStr "admin") ->
  body e = Some b ->
  b <> JNull ->
  truthy (prop b "expiresInDays")
  && less_than (Some (JNum 0)) (prop b "expiresInDays") = false ->
  let codeId := "code_" +:+ pretty (now e) +:+ "_" +:+ rand2 e in
  let index := "org-invite-codes:" +:+ show (prop cu "orgId") in
  let code :=
    literal ∅
      [("id", Some (JStr codeId)); ("code", Some (JStr (rand e)));
       ("orgId", prop cu "orgId"); ("createdBy", Some (JStr uid));
       ("createdAt", Some (JStr (to_iso (now e))));
       ("expiresAt", Some JNull);
       ("maxUses", Some (or_else (prop b "maxUses") JNull));
       ("currentUses", Some (JNum 0)); ("isActive", Some (JBool true))] in
  snd (create_invite_code e st) = success [("inviteCode", Some code)] /\
  fst (create_invite_code e st) !! ("invite-codes:" +:+ codeId) = Some code /\
  (forall ids : list json,
     or_else (st !! index) (JArr []) = JArr ids ->
     fst (create_invite_code e st)
       = <[index := JArr (ids ++ [JStr codeId])]>
           (<["invite-codes:" +:+ codeId := code]> st)) /\
  (iterate (or_else (st !! index) (JArr [])) = None ->
   fst (create_invite_code e st) = <["invite-codes:" +:+ codeId := code]> st).
Proof.
  intros Hc Hget Hrole Hb Hnn Hexp codeId index code.
  rewrite (create_invite_code_run e uid cu b st) by assumption.
  fold codeId. fold code. fold index.
  assert (Hidx : (<["invite-codes:" +:+ codeId := code]> st) !! index
                 = st !! index).
  { apply lookup_insert_ne. subst index. key_neq. }
  cbn [fst snd]. split; [reflexivity|]. split; [|split].
  - pose proof (keeps_index_append ("invite-codes:" +:+ codeId) index codeId)
      as Hk.
    rewrite Hk by (subst index; key_neq). apply lookup_insert_eq.
  - intros ids Hids.
    rewrite (index_append_list _ _ ids); [reflexivity|]. by rewrite Hidx.
  - intros Hit. unfold index_append. run_handler. by rewrite Hidx, Hit.
Qed.

(** The run of DELETE /invite-codes/:codeId for an admin of the code's
    organization. *)
Lemma delete_invite_code_own
    (e : env) (uid codeId : string) (cu c : json) (ids : list json)
    (st : gmap string json) :
  caller e = Some uid ->
  st !! ("users:" +:+ uid) = Some cu ->
  prop cu "role" = Some (JStr "admin") ->
  st !! ("invite-codes:" +:+ codeId) = Some c ->
  truthy (Some c) = true ->
  strict_eq (prop c "orgId") (prop cu "orgId") = true ->
  or_else (st !! ("org-invite-codes:" +:+ show (prop cu "orgId")))
    (JArr []) = JArr ids ->
  delete_invite_code codeId e st
    = (<["org-invite-codes:" +:+ show (prop cu "orgId")
           := JArr (without codeId ids)]>
         (delete ("invite-codes:" +:+ codeId) st),
       success []).
Proof.
  intros Hc Hget Hrole Hcode Ht Horg Hids.
  assert (Hcu : truthy (Some cu) = true).
  { destruct cu; try discriminate Hrole. reflexivity. }
  unfold delete_invite_code. run_handler.
  rewrite Hc, Hget, (is_admin_true _ _ Hrole). cbn [negb].
  rewrite Hcode, Ht. cbn [negb].
  rewrite !field_defined by assumption. rewrite Horg. cbn [negb].
  rewrite (index_remove_list _ _ ids); [reflexivity|].
  rewrite lookup_delete_ne by key_neq. exact Hids.
Qed.

(** X7.  DELETE /invite-codes/:codeId by an admin: a missing code gives
    404, a code of another organization 403, both with the store
    unchanged; a code of the caller's organization is deleted and its id
    filtered out of the organization's index. *)
Theorem delete_invite_code_of_own_organization
    (e : env) (uid codeId : string) (cu : json) (st : gmap string json) :
  caller e = Some uid ->
  st !! ("users:" +:+ uid) = Some cu ->
  prop cu "role" = Some (JStr "admin") ->
  (truthy (st !! ("invite-codes:" +:+ codeId)) = false ->
   delete_invite_code codeId e st
     = (st, json_error 404 "Invite code not found")) /\
  (forall c : json,
     st !! ("invite-codes:" +:+ codeId) = Some c ->
     truthy (Some c) = true ->
     (strict_eq (prop c "orgId") (prop cu "orgId") = false ->
      delete_invite_code codeId e st = (st, json_error 403 "Forbidden")) /\
     (strict_eq (prop c "orgId") (prop cu "orgId") = true ->
      forall ids : list json,
        or_else (st !! ("org-invite-codes:" +:+ show (prop cu "orgId")))
          (JArr []) = JArr ids ->
        fst (delete_invite_code codeId e st) !! ("invite-codes:" +:+ codeId)
          = None /\
        fst (delete_invite_code codeId e st)
          !! ("org-invite-codes:" +:+ show (prop cu "orgId"))
          = Some (JArr (without codeId ids)) /\
        ~ In (JStr codeId) (without codeId ids) /\
        snd (delete_invite_code codeId e st) = success [])).
Proof.
  intros Hc Hget Hrole.
  assert (Hcu : truthy (Some cu) = true).
  { destruct cu; try discriminate Hrole. reflexivity. }
  split.
  - intros Hmiss. unfold delete_invite_code. run_handler.
    rewrite Hc, Hget, (is_admin_true _ _ Hrole). cbn [negb].
    by rewrite Hmiss.
  - intros c Hcode Ht. split.
    + intros Horg. unfold delete_invite_code. run_handler.
      rewrite Hc, Hget, (is_admin_true _ _ Hrole). cbn [negb].
      rewrite Hcode, Ht. cbn [negb].
      rewrite !field_defined by assumption. by rewrite Horg.
    + intros Horg ids Hids.
      rewrite (delete_invite_code_own e uid codeId cu c ids st)
        by assumption.
      cbn [fst snd]. split; [|split; [|split]].
      * rewrite lookup_insert_ne by key_neq. apply lookup_delete_eq.
      * apply lookup_insert_eq.
      * apply without_absent.
      * reflexivity.
Qed.

Lemma without_appended (x : string) (l : list json) :
  ~ In (JStr x) l -> without x (l ++ [JStr x]) = l.
Proof.
  intros Hnin. unfold without. rewrite List.filter_app. cbn [List.filter].
  cbn [strict_eq]. rewrite String.eqb_refl. cbn [negb].
  rewrite app_nil_r. apply forallb_filter_id. apply forallb_forall.
  intros y Hy. destruct y; try reflexivity. cbn [strict_eq].
  destruct (String.eqb s x) eqn:Heq; [|reflexivity].
  apply String.eqb_eq in Heq. subst s. contradiction.
Qed.

(** An entry written and deleted again, and the index written twice. *)
Lemma insert_delete_insert (key index : string) (v w1 w2 : json)
    (st : gmap string json) :
  st !! key = None -> key <> index ->
  <[index := w2]> (delete key (<[index := w1]> (<[key := v]> st)))
    = <[index := w2]> st.
Proof.
  intros Hnew Hne. apply map_eq. intros k.
  destruct (decide (k = index)) as [->|Hk].
  - by rewrite !lookup_insert_eq.
  - rewrite !lookup_insert_ne by done.
    destruct (decide (k = key)) as [->|Hk2].
    + by rewrite lookup_delete_eq.
    + rewrite lookup_delete_ne by done. by rewrite !lookup_insert_ne by done.
Qed.

(** The run of POST /invite-codes whenever it answers 200, with or
    without an expiry: the code is stored, then the index append is
    attempted. *)
Lemma create_invite_code_answered
    (e : env) (uid : string) (cu : json) (st : gmap string json) :
  caller e = Some uid ->
  st !! ("users:" +:+ uid) = Some cu ->
  prop cu "role" = Some (JStr "admin") ->
  status (snd (create_invite_code e st)) = 200 ->
  let codeId := "code_" +:+ pretty (now e) +:+ "_" +:+ rand2 e in
  exists (b expiresAt : json),
    body e = Some b /\
    let code :=
      literal ∅
        [("id", Some (JStr codeId)); ("code", Some (JStr (rand e)));
         ("orgId", prop cu "orgId"); ("createdBy", Some (JStr uid));
         ("createdAt", Some (JStr (to_iso (now e))));
         ("expiresAt", Some expiresAt);
         ("maxUses", Some (or_else (prop b "maxUses") JNull));
         ("currentUses", Some (JNum 0)); ("isActive", Some (JBool true))] in
    create_invite_code e st =
      (fst (index_append ("org-invite-codes:" +:+ show (prop cu "orgId"))
              codeId (<["invite-codes:" +:+ codeId := code]> st)),
       success [("inviteCode", Some code)]).
Proof.
  intros Hc Hget Hrole Hok codeId.
  assert (Hcu : truthy (Some cu) = true).
  { destruct cu; try discriminate Hrole. reflexivity. }
  revert Hok. unfold create_invite_code. cbv zeta. run_handler.
  rewrite Hc, Hget, (is_admin_true _ _ Hrole). cbn [negb].
  destruct (body e) as [b|]; [|cbn; discriminate].
  assert (Hnull : b = JNull \/ forall st0, destructure b st0 = (st0, Some tt))
    by (destruct b; (by left) || (by right)).
  destruct Hnull as [->|Hd]; [cbn; discriminate|].
  rewrite Hd.
  destruct (prop b "expiresInDays") as [d|];
    [destruct (truthy (Some d) && less_than (Some (JNum 0)) (Some d));
     [destruct (add_days (now e) d) as [t|]; [|cbn; discriminate]|]|];
    rewrite (field_defined _ _ _ Hcu); intros _;
    exists b; eexists; (split; [reflexivity|]);
    unfold attempt; reflexivity.
Qed.

Lemma strict_eq_copy (v : option json) : strict_eq v v = primitive v.
Proof.
  destruct v as [[| b | n | s | l | o]|]; cbn; try reflexivity.
  - by destruct b.
  - apply Z.eqb_refl.
  - apply String.eqb_refl.
Qed.

(** X8.  Creating an invite code and deleting it again (by the same
    admin) is a round trip.  Whenever the creation answers 200, with or
    without an expiry, the generated id is new and the index of the
    admin's organization is a list (or absent) without that id: when the
    admin's [orgId] is a primitive value (or absent), the delete answers
    200 and the store is the one before the creation, with the index
    stored as the list it was read as; when the admin's [orgId] is an
    array or an object, the [!==] of the delete compares two copies, the
    answer is 403 and the created code stays. *)
Theorem create_then_delete_invite_code
    (e e' : env) (uid : string) (cu : json) (ids : list json)
    (st : gmap string json) :
  caller e = Some uid ->
  caller e' = Some uid ->
  st !! ("users:" +:+ uid) = Some cu ->
  prop cu "role" = Some (JStr "admin") ->
  status (snd (create_invite_code e st)) = 200 ->
  let codeId := "code_" +:+ pretty (now e) +:+ "_" +:+ rand2 e in
  let index := "org-invite-codes:" +:+ show (prop cu "orgId") in
  st !! ("invite-codes:" +:+ codeId) = None ->
  or_else (st !! index) (JArr []) = JArr ids ->
  ~ In (JStr codeId) ids ->
  let created := fst (create_invite_code e st) in
  (primitive (prop cu "orgId") = true ->
   delete_invite_code codeId e' created
     = (<[index := JArr ids]> st, success [])) /\
  (primitive (prop cu "orgId") = false ->
   delete_invite_code codeId e' created
     = (created, json_error 403 "Forbidden")).
Proof.
  intros Hc Hc' Hget Hrole Hok codeId index Hnew Hids Hnin created.
  destruct (create_invite_code_answered e uid cu st Hc Hget Hrole Hok)
    as (b & expiresAt & Hb & Hrun).
  cbv zeta in Hrun. fold codeId in Hrun. fold index in Hrun.
  set (code :=
         literal ∅
           [("id", Some (JStr codeId)); ("code", Some (JStr (rand e)));
            ("orgId", prop cu "orgId"); ("createdBy", Some (JStr uid));
            ("createdAt", Some (JStr (to_iso (now e))));
            ("expiresAt", Some expiresAt);
            ("maxUses", Some (or_else (prop b "maxUses") JNull));
            ("currentUses", Some (JNum 0));
            ("isActive", Some (JBool true))]) in Hrun.
  assert (Hcu : truthy (Some cu) = true).
  { destruct cu; try discriminate Hrole. reflexivity. }
  assert (Hcreated : created =
    <[index := JArr (ids ++ [JStr codeId])]>
      (<["invite-codes:" +:+ codeId := code]> st)).
  { subst created. rewrite Hrun. cbn [fst].
    rewrite (index_append_list _ _ ids); [reflexivity|].
    subst index. by rewrite lookup_insert_ne by key_neq. }
  assert (Huser : created !! ("users:" +:+ uid) = Some cu).
  { rewrite Hcreated. subst index.
    by rewrite !lookup_insert_ne by key_neq. }
  assert (Hcode : created !! ("invite-codes:" +:+ codeId) = Some code).
  { rewrite Hcreated. subst index. rewrite lookup_insert_ne by key_neq.
    apply lookup_insert_eq. }
  assert (Horg : strict_eq (prop code "orgId") (prop cu "orgId")
                 = primitive (prop cu "orgId")).
  { subst code. read_literal. apply strict_eq_copy. }
  split; intros Hprim; rewrite Hprim in Horg.
  - rewrite (delete_invite_code_own e' uid codeId cu code
               (ids ++ [JStr codeId]) created Hc' Huser Hrole Hcode
               eq_refl Horg).
    + fold index. f_equal. rewrite without_appended by exact Hnin.
      rewrite Hcreated. apply insert_delete_insert; [exact Hnew|].
      subst index. key_neq.
    + fold index. rewrite Hcreated. by rewrite lookup_insert_eq.
  - unfold delete_invite_code. run_handler.
    rewrite Hc', Huser, (is_admin_true _ _ Hrole). cbn [negb].
    rewrite Hcode. cbn [truthy code literal negb].
    rewrite !field_defined by (exact Hcu || reflexivity).
    by rewrite Horg.
Qed.

(** *** Invite codes: verification, deactivation and the use limit *)

(** On a code record the test of POST /verify-invite-code is the test of
    the signup. *)
Lemma verifiable_record (t : Z) (code : option json) (k : string) (c : json) :
  code_record k c -> verifiable t code c = Some (valid_code t code c).
Proof.
  intros (o & -> & _ & [b Hb] & _). unfold verifiable, valid_code.
  cbn [prop]. rewrite Hb. by destruct b.
Qed.

Lemma find_opt_ext (f g : json -> option bool) (l : list json) :
  (forall c : json, In c l -> f c = g c) -> find_opt f l = find_opt g l.
Proof.
  induction l as [|x l IH]; intros Heq; [reflexivity|].
  cbn [find_opt]. rewrite (Heq x (or_introl eq_refl)).
  destruct (g x) as [[]|]; try reflexivity.
  apply IH. intros c Hc. apply Heq. by right.
Qed.

Lemma scan_of_records (st : gmap string json) (c : json) :
  code_records st -> In c (kv_scan "invite-codes:" st) ->
  exists k : string, code_record k c.
Proof.
  intros H Hin. apply kv_scan_spec in Hin as (k & Hget & Hp).
  exists k. by eapply H.
Qed.

(** The answer of a signup that presents an invite code, by what the
    search finds. *)
Lemma signup_by_search
    (e : env) (b : json) (uid : string) (st : gmap string json) :
  body e = Some b ->
  truthy (prop b "inviteCode") = true ->
  codes_are_objects st ->
  match List.find (valid_code (now e) (prop b "inviteCode"))
          (kv_scan "invite-codes:" st) with
  | None =>
      signup (inr uid) e st
        = (st, json_error 400 "Invalid or expired invite code")
  | Some c => status (snd (signup (inr uid) e st)) <> 400
  end.
Proof.
  intros Hb Hcode Hobj.
  assert (Hd : forall st0, destructure b st0 = (st0, Some tt)).
  { intros st0. destruct b; try discriminate Hcode; reflexivity. }
  unfold signup. run_handler. rewrite Hb, Hd, Hcode.
  rewrite find_opt_objects by (intros; by eapply codes_are_objects_scan).
  destruct (find _ _) as [c|] eqn:Hf; [|reflexivity].
  apply find_some in Hf as [Hin Hv].
  destruct (valid_code_object _ _ _ Hcode Hv) as [o ->].
  cbn [truthy negb].
  destruct (join_org _ _ _) as [st2 [[]|]]; cbn; discriminate.
Qed.

(** X9.  On a store of code records, POST /verify-invite-code says
    [valid: true] for a code text exactly when a signup presenting that
    text at the same instant is not refused with the 400 of an invalid
    code: the two routes apply the same test to the same scan. *)
Theorem verification_agrees_with_signup
    (e e' : env) (b b' : json) (uid : string) (st : gmap string json) :
  body e = Some b ->
  body e' = Some b' ->
  prop b "code" = prop b' "inviteCode" ->
  truthy (prop b "code") = true ->
  now e = now e' ->
  code_records st ->
  says_valid (snd (verify_invite_code_post e st)) = true <->
  status (snd (signup (inr uid) e' st)) <> 400.
Proof.
  intros Hb Hb' Hsame Hcode Hnow Hrec.
  assert (Hobj : codes_are_objects st) by by apply code_records_objects.
  assert (Hcode' : truthy (prop b' "inviteCode") = true) by by rewrite <- Hsame.
  pose proof (signup_by_search e' b' uid st Hb' Hcode' Hobj) as Hsignup.
  rewrite <- Hsame, <- Hnow in Hsignup.
  assert (Hd : forall st0, destructure b st0 = (st0, Some tt)).
  { intros st0. destruct b; try discriminate Hcode; reflexivity. }
  assert (Hverify : verify_invite_code_post e st =
    match List.find (valid_code (now e) (prop b "code"))
            (kv_scan "invite-codes:" st) with
    | None =>
        (st, not_valid (match kv_scan "invite-codes:" st with
                        | [] => "No invite codes found in system"
                        | _ :: _ => "Invalid or expired invite code"
                        end))
    | Some vc =>
        (st, json_ok
               (literal ∅
                  [("valid", Some (JBool true));
                   ("organizationName",
                    Some (or_else
                            match st !! ("organizations:" +:+ show (prop vc "orgId")) with
                            | None | Some JNull => None
                            | Some o => prop o "name"
                            end (JStr "Unknown Organization")));
                   ("orgId", prop vc "orgId")]))
    end).
  { unfold verify_invite_code_post, catching. run_handler.
    rewrite Hb, Hd, Hcode. cbn [negb].
    destruct (kv_scan "invite-codes:" st) as [|c0 l] eqn:Hscan;
      [reflexivity|].
    assert (Hnull : existsb is_null (c0 :: l) = false).
    { apply not_true_is_false. intros Hex.
      apply existsb_exists in Hex as (x & Hx & Hn).
      rewrite <- Hscan in Hx.
      destruct (codes_are_objects_scan st x Hobj Hx) as [o ->].
      discriminate Hn. }
    rewrite Hnull.
    rewrite (find_opt_ext _ (redeemable (now e) (prop b "code"))).
    - rewrite find_opt_objects.
      + destruct (find _ _) as [vc|] eqn:Hf; [|reflexivity].
        apply find_some in Hf as [Hin Hv].
        destruct (valid_code_object _ _ _ Hcode Hv) as [o ->].
        reflexivity.
      + intros c Hc. rewrite <- Hscan in Hc.
        by eapply codes_are_objects_scan.
    - intros c Hc. rewrite <- Hscan in Hc.
      destruct (scan_of_records st c Hrec Hc) as [k Hk].
      rewrite (verifiable_record _ _ k c Hk).
      destruct Hk as (o & -> & _). reflexivity. }
  rewrite Hverify.
  destruct (find _ _) as [vc|]; cbn [snd].
  - split; [intros _; exact Hsignup|intros _].
    unfold says_valid, json_ok. cbn [payload]. read_literal. reflexivity.
  - rewrite Hsignup. cbn [snd]. split.
    + unfold says_valid, not_valid, json_ok. cbn [payload]. read_literal.
      discriminate.
    + intros Hne. exfalso. apply Hne. reflexivity.
Qed.

Lemma signup_refuses
    (e : env) (b : json) (uid : string) (st : gmap string json) :
  body e = Some b ->
  truthy (prop b "inviteCode") = true ->
  codes_are_objects st ->
  (forall c : json,
     In c (kv_scan "invite-codes:" st) ->
     valid_code (now e) (prop b "inviteCode") c = false) ->
  signup (inr uid) e st
    = (st, json_error 400 "Invalid or expired invite code").
Proof.
  intros Hb Hcode Hobj Hnone.
  pose proof (signup_by_search e b uid st Hb Hcode Hobj) as Hs.
  destruct (find _ _) as [c|] eqn:Hf; [|exact Hs].
  apply find_some in Hf as [Hin Hv]. rewrite (Hnone c Hin) in Hv.
  discriminate Hv.
Qed.

(** X10.  A code that an admin has toggled off is refused at signup:
    when the stored code with the presented text is active and is the
    only stored code with that text, then after its toggle a signup that
    presents the text gets the 400 of an invalid code and writes
    nothing. *)
Theorem deactivated_code_is_refused
    (et es : env) (admin codeId uid : string) (cu b : json)
    (o : gmap string json) (st : gmap string json) :
  caller et = Some admin ->
  st !! ("users:" +:+ admin) = Some cu ->
  prop cu "role" = Some (JStr "admin") ->
  st !! ("invite-codes:" +:+ codeId) = Some (JObj o) ->
  o !! "isActive" = Some (JBool true) ->
  strict_eq (o !! "orgId") (prop cu "orgId") = true ->
  codes_are_objects st ->
  body es = Some b ->
  truthy (prop b "inviteCode") = true ->
  (forall (k : string) (c : json),
     st !! k = Some c -> String.prefix "invite-codes:" k = true ->
     strict_eq (prop c "code") (prop b "inviteCode") = true ->
     k = "invite-codes:" +:+ codeId) ->
  let st1 := fst (toggle_invite_code codeId et st) in
  st1 !! ("invite-codes:" +:+ codeId)
    = Some (JObj (<["isActive" := JBool false]> o)) /\
  signup (inr uid) es st1
    = (st1, json_error 400 "Invalid or expired invite code").
Proof.
  intros Hc Hget Hrole Hcode Hact Horg Hobj Hb Htext Honly st1.
  assert (Hst1 : st1 = <["invite-codes:" +:+ codeId
                          := JObj (<["isActive" := JBool false]> o)]> st).
  { subst st1.
    rewrite (toggle_invite_code_once et admin codeId cu o st) by assumption.
    cbn [fst]. by rewrite Hact. }
  split; [rewrite Hst1; apply lookup_insert_eq|].
  apply (signup_refuses es b uid st1 Hb Htext).
  - intros k v Hk Hp. rewrite Hst1 in Hk.
    destruct (decide ("invite-codes:" +:+ codeId = k)) as [<-|Hne].
    + rewrite lookup_insert_eq in Hk. injection Hk as <-. eauto.
    + rewrite lookup_insert_ne in Hk by done. by eapply Hobj.
  - intros c Hin. apply kv_scan_spec in Hin as (k & Hk & Hp).
    rewrite Hst1 in Hk.
    destruct (decide ("invite-codes:" +:+ codeId = k)) as [<-|Hne].
    + rewrite lookup_insert_eq in Hk. injection Hk as <-.
      apply spent_not_valid. left. cbn [prop]. apply lookup_insert_eq.
    + rewrite lookup_insert_ne in Hk by done.
      unfold valid_code.
      destruct (strict_eq (prop c "code") (prop b "inviteCode")) eqn:Heq;
        [|reflexivity].
      exfalso. apply Hne. symmetry. by eapply Honly.
Qed.

(** *** The use limit of the invite codes *)

Lemma family_bind_get (p : string) (Q : json -> Prop) {B : Type}
    (key : string) (f : option json -> M B) :
  (forall a : option json,
     (forall v : json,
        a = Some v -> String.prefix p key = true -> Q v) ->
     stays (family p Q) (f a)) ->
  stays (family p Q) (bind (kv_get key) f).
Proof.
  intros Hf st H. unfold bind, kv_get, kv_lookup.
  apply Hf; [|exact H]. intros v Hv Hp. by eapply H.
Qed.

Lemma family_bind_scan (p : string) (Q : json -> Prop) {B : Type}
    (f : list json -> M B) :
  (forall l : list json,
     (forall c : json, In c l -> Q c) -> stays (family p Q) (f l)) ->
  stays (family p Q) (bind (kv_getByPrefix p) f).
Proof.
  intros Hf st H. unfold bind, kv_getByPrefix.
  apply Hf; [|exact H]. intros c Hin.
  apply kv_scan_spec in Hin as (k & Hget & Hp). by eapply H.
Qed.

Ltac limits :=
  cbv zeta;
  repeat match goal with
    | |- stays _ (ret _) => apply stays_ret
    | |- stays _ throw => apply stays_throw
    | |- stays _ (try_ _) => apply stays_try
    | |- stays _ (req_json _) => apply stays_try
    | |- stays _ (kv_get _) => apply stays_get
    | |- stays _ (kv_mget _) => apply stays_mget
    | |- stays _ (kv_getByPrefix _) => apply stays_getByPrefix
    | |- stays _ (field _ _) => apply stays_field
    | |- stays _ (destructure _) => apply stays_destructure
    | |- stays _ (kv_set _ _) => apply family_set; solve [other_family]
    | |- stays _ (kv_del _) => apply family_del
    | |- stays _ (attempt _) => apply stays_attempt
    | |- stays _ (bind (kv_get _) _) => apply family_bind_get; intros ? ?
    | |- stays _ (bind (kv_getByPrefix "invite-codes:") _) =>
        apply family_bind_scan; intros ? ?
    | |- stays _ (bind (req_json _) _) => unfold req_json
    | |- stays _ (bind (try_ _) _) => apply stays_bind_try; intros ? ?
    | |- stays _ (bind _ _) => apply stays_bind; [|intros ?]
    | |- stays _ (is_admin _) => unfold is_admin
    | |- stays _ (index_append _ _) => unfold index_append
    | |- stays _ (index_remove _ _) => unfold index_remove
    | |- stays _ (join_org _ _) => unfold join_org
    | |- stays _ (if ?c then _ else _) => destruct c eqn:?
    | |- stays _ (match ?x with _ => _ end) => destruct x eqn:?
    end.

(** The use count that a redemption writes stays within the limit: the
    test that let the code through had [currentUses < maxUses]. *)
Lemma redeemed_within_limit (t : Z) (code : option json)
    (o : gmap string json) :
  valid_code t code (JObj o) = true ->
  limited (literal (spread (Some (JObj o)))
             [("currentUses", Some (plus_one (o !! "currentUses")))]).
Proof.
  intros Hv. split; [eexists; reflexivity|].
  intros m n Hm Hm0 Hn. revert Hm Hn. read_literal. cbn [spread].
  intros Hm [= Hn].
  unfold valid_code in Hv. apply andb_prop in Hv as [_ Hlt].
  cbn [prop] in Hlt. rewrite Hm in Hlt. cbn [truthy] in Hlt.
  assert (Z.eqb m 0 = false) as Hz by by apply Z.eqb_neq.
  rewrite Hz in Hlt. cbn [negb orb] in Hlt.
  destruct (o !! "currentUses") as [[| [] |k|s|l|o']|];
    cbn in Hn; try discriminate Hn; injection Hn as <-;
    cbn in Hlt; apply Z.ltb_lt in Hlt; lia.
Qed.

Lemma serve_keeps_limits
    (r : request) (e : env) (st : gmap string json) :
  no_negative_limit r e ->
  family "invite-codes:" limited st ->
  family "invite-codes:" limited (fst (serve r e st)).
Proof.
  intros Hsane H.
  destruct r; cbn [serve no_negative_limit] in *;
    unfold signup, create_invite_code, toggle_invite_code,
      delete_invite_code, update_me, update_user, delete_user,
      create_project, get_projects, update_project, delete_project,
      create_timesheet, update_timesheet, delete_timesheet, test_database;
    (apply stays_handler; [|exact H]); limits.
  - (* signup *)
    apply family_set. intros _.
    match goal with
    | Hfind : find_opt _ ?l = Some (Some ?c),
      Hscan : forall c : json, In c ?l -> _ |- _ =>
        destruct (find_opt_found _ _ _ _ Hfind) as [Hin Hv];
        destruct (Hscan c Hin) as [[o Ho] _]; subst c
    end.
    by eapply redeemed_within_limit.
  - (* creation *)
    apply family_set. intros _. split; [eexists; reflexivity|].
    intros m n. read_literal. intros [= Hm] Hm0 [= <-].
    match goal with
    | Hbody : body e = Some ?b |- _ =>
        apply (Hsane b m Hbody);
        destruct (prop b "maxUses") as [x|] eqn:Hx; cbn [or_else] in Hm;
          [|discriminate Hm];
        destruct (truthy (Some x)); [by subst x|discriminate Hm]
    end.
  - (* toggle *)
    apply family_set. intros Hp.
    match goal with
    | Hread : forall v : json, ?a = Some v -> _ |- _ =>
        destruct a as [v|]; [|discriminate];
        destruct (Hread v eq_refl Hp) as [[o ->] Hlim]
    end.
    split; [eexists; reflexivity|].
    intros m n. read_literal. cbn [spread]. intros Hm Hm0 Hn.
    by apply (Hlim m n).
Qed.

(** X11.  Served one after the other, the requests never take the use
    count of an invite code beyond its maximum, as long as the maxima
    are whole numbers: from the empty store, after any run in which
    every creation of a code whose body gives a numeric [maxUses] gives
    a whole number that is not negative, every stored code whose
    [maxUses] is a non-zero whole number [m] and whose [currentUses] is
    a whole number [n] has [n <= m].  (The bound needs the whole
    numbers: with [maxUses: 0.5], a body outside this development, the
    test [0 < 0.5] lets the first redemption store a use count of 1.) *)
Theorem use_count_stays_within_limit
    (rs : list (request * env)) (k : string) (v : json) (m n : Z) :
  Forall (fun re => no_negative_limit (fst re) (snd re)) rs ->
  run rs ∅ !! k = Some v ->
  String.prefix "invite-codes:" k = true ->
  prop v "maxUses" = Some (JNum m) ->
  m <> 0 ->
  prop v "currentUses" = Some (JNum n) ->
  n <= m.
Proof.
  intros Hsane Hget Hp Hm Hm0 Hn.
  assert (Hinv : forall st, family "invite-codes:" limited st ->
                            family "invite-codes:" limited (run rs st)).
  { clear Hget. induction Hsane as [|[r e] rest Hre _ IH]; intros st H;
      [exact H|].
    cbn [run]. apply IH. by apply serve_keeps_limits. }
  assert (H0 : family "invite-codes:" limited ∅).
  { intros k' v' Hk'. by rewrite lookup_empty in Hk'. }
  destruct (Hinv ∅ H0 k v Hget Hp) as [_ Hlim]. by apply (Hlim m n).
Qed.

(** *** POST /signup: the other outcomes *)

(** X12.  When the identity provider refuses to create the identity, the
    signup answers 400 with the provider's message and writes nothing,
    whatever the body asks for: no invite code is used up and no
    organization is created. *)
Theorem signup_provider_error
    (e : env) (b : json) (message : string) (st : gmap string json) :
  body e = Some b ->
  b <> JNull ->
  signup (inl message) e st = (st, json_error 400 message).
Proof.
  intros Hb Hnn. unfold signup. run_handler. rewrite Hb.
  destruct b; try congruence; reflexivity.
Qed.

Lemma truthy_prefixed (p x : string) :
  p <> "" -> truthy (Some (JStr (p +:+ x))) = true.
Proof.
  intros Hp. destruct p as [|a p]; [congruence|]. reflexivity.
Qed.

(** X13.  A signup with an organization name and no invite code founds
    an organization: it stores the organization under a generated id
    with the caller as [createdBy], stores the user as ['admin'] of it
    whatever [role] the body has, records the organization under
    [user-org], appends the user to the [org-users] index of the new
    organization, and answers 200. *)
Theorem signup_founds_organization
    (e : env) (b : json) (uid : string) (ids : list json)
    (st : gmap string json) :
  body e = Some b ->
  truthy (prop b "inviteCode") = false ->
  truthy (prop b "organizationName") = true ->
  let orgId := "org_" +:+ pretty (now e) +:+ "_" +:+ rand e in
  or_else (st !! ("org-users:" +:+ orgId)) (JArr []) = JArr ids ->
  let org :=
    literal ∅
      [("id", Some (JStr orgId)); ("name", prop b "organizationName");
       ("createdAt", Some (JStr (to_iso (now e))));
       ("createdBy", Some (JStr uid))] in
  let user :=
    literal ∅
      [("id", Some (JStr uid)); ("email", prop b "email");
       ("name", prop b "name"); ("role", Some (JStr "admin"));
       ("orgId", Some (JStr orgId));
       ("createdAt", Some (JStr (to_iso (now e))))] in
  signup (inr uid) e st =
    (<["org-users:" +:+ orgId := JArr (ids ++ [JStr uid])]>
       (<["user-org:" +:+ uid := JStr orgId]>
          (<["users:" +:+ uid := user]>
             (<["organizations:" +:+ orgId := org]> st))),
     success [("userId", Some (JStr uid)); ("orgId", Some (JStr orgId));
              ("message", Some (JStr "User created successfully"))]).
Proof.
  intros Hb Hinv Hname orgId Hids org user.
  assert (Hd : forall st0, destructure b st0 = (st0, Some tt)).
  { intros st0. destruct b; try discriminate Hname; reflexivity. }
  unfold signup, join_org. cbv zeta. run_handler.
  rewrite Hb, Hd, Hinv, Hname.
  fold orgId. fold org. fold user.
  assert (Ht : truthy (Some (JStr orgId)) = true)
    by (apply truthy_prefixed; discriminate).
  rewrite Ht. cbn [show to_string].
  rewrite (index_append_list _ _ ids); [reflexivity|].
  rewrite !lookup_insert_ne by key_neq. exact Hids.
Qed.

Lemma join_org_list (uid : string) (org : json) (ids : list json)
    (st : gmap string json) :
  truthy (Some org) = true ->
  or_else (st !! ("org-users:" +:+ to_string org)) (JArr []) = JArr ids ->
  join_org uid (Some org) st
    = (<["org-users:" +:+ to_string org := JArr (ids ++ [JStr uid])]>
         (<["user-org:" +:+ uid := org]> st), Some tt).
Proof.
  intros Ht Hids. unfold join_org. rewrite Ht. run_handler.
  cbn [show]. rewrite (index_append_list _ _ ids); [reflexivity|].
  rewrite lookup_insert_ne by key_neq. exact Hids.
Qed.

(** X14.  A signup that redeems the code [c] answers 200 and stores
    the code with one more use and the user record, with role ['staff']
    and the [orgId] of the code.  When that [orgId] is truthy (and the
    [org-users] index of the organization is a list, or absent) it makes
    two more writes: the organization under [user-org], and the index
    with the new user's id appended.  When the [orgId] of the code is
    falsy (the code of an admin without organization) the [if (orgId)]
    skips them: the signup makes the first two writes only.  The invite
    code comes first: an [organizationName] in the same body founds no
    organization. *)
Theorem signup_redemption_joins_index
    (e : env) (b : json) (uid : string) (c : json) (st : gmap string json) :
  body e = Some b ->
  truthy (prop b "inviteCode") = true ->
  find_opt (redeemable (now e) (prop b "inviteCode"))
    (kv_scan "invite-codes:" st) = Some (Some c) ->
  let used :=
    literal (spread (Some c))
      [("currentUses", Some (plus_one (prop c "currentUses")))] in
  let user :=
    literal ∅
      [("id", Some (JStr uid)); ("email", prop b "email");
       ("name", prop b "name"); ("role", Some (JStr "staff"));
       ("orgId", prop c "orgId");
       ("createdAt", Some (JStr (to_iso (now e))))] in
  let redeemed :=
    <["users:" +:+ uid := user]>
      (<["invite-codes:" +:+ show (prop c "id") := used]> st) in
  let answer :=
    success [("userId", Some (JStr uid)); ("orgId", prop c "orgId");
             ("message", Some (JStr "User created successfully"))] in
  (truthy (prop c "orgId") = false ->
   signup (inr uid) e st = (redeemed, answer)) /\
  (forall (org : json) (ids : list json),
     prop c "orgId" = Some org ->
     truthy (Some org) = true ->
     or_else (st !! ("org-users:" +:+ to_string org)) (JArr []) = JArr ids ->
     signup (inr uid) e st =
       (<["org-users:" +:+ to_string org := JArr (ids ++ [JStr uid])]>
          (<["user-org:" +:+ uid := org]> redeemed),
        answer)).
Proof.
  intros Hb Hcode Hfind used user redeemed answer.
  destruct (find_opt_found _ _ _ _ Hfind) as [_ Hvalid].
  destruct (valid_code_object _ _ _ Hcode Hvalid) as [o Ho].
  assert (Hd : forall st0, destructure b st0 = (st0, Some tt)).
  { intros st0. destruct b; try discriminate Hcode; reflexivity. }
  assert (Hrun : signup (inr uid) e st =
    (let (st', r) := join_org uid (prop c "orgId") redeemed in
     match r with
     | Some _ => (st', answer)
     | None => (st', json_error 500 "Signup failed")
     end)).
  { subst c. unfold signup. cbv zeta. run_handler.
    rewrite Hb, Hd, Hcode, Hfind. cbn [truthy negb].
    destruct (join_org _ _ _) as [st' [[]|]]; reflexivity. }
  split.
  - intros Hfalsy. rewrite Hrun. unfold join_org.
    destruct (prop c "orgId") as [org|]; [rewrite Hfalsy|]; reflexivity.
  - intros org ids Horg Ht Hids. rewrite Hrun.
    subst answer redeemed user. rewrite Horg.
    rewrite (join_org_list uid org ids); [reflexivity|exact Ht|].
    rewrite !lookup_insert_ne by key_neq. exact Hids.
Qed.

(** *** Projects *)

Lemma kv_multi_app (ks ks' : list string) (st : gmap string json) :
  kv_multi (ks ++ ks')%list st = (kv_multi ks st ++ kv_multi ks' st)%list.
Proof.
  unfold kv_multi. induction ks as [|k ks IH]; [reflexivity|].
  cbn [app omap list_omap]. destruct (st !! k); cbn; by rewrite IH.
Qed.

Lemma kv_multi_ext (ks : list string) (st st' : gmap string json) :
  Forall (fun k => st' !! k = st !! k) ks ->
  kv_multi ks st' = kv_multi ks st.
Proof.
  unfold kv_multi. induction 1 as [|k ks Hk _ IH]; [reflexivity|].
  cbn [omap list_omap]. by rewrite Hk, IH.
Qed.

(** The multi-get through an index after a record with a new id has
    been stored and its id appended to the index. *)
Lemma kv_multi_after_append (index prefix id : string) (v w : json)
    (ids : list json) (st : gmap string json) :
  index <> prefix +:+ id ->
  Forall (fun x => prefix +:+ to_string x <> index) ids ->
  Forall (fun x => to_string x <> id) ids ->
  kv_multi (map (fun x => prefix +:+ to_string x) (ids ++ [JStr id]))
    (<[index := w]> (<[prefix +:+ id := v]> st))
  = (kv_multi (map (fun x => prefix +:+ to_string x) ids) st ++ [v])%list.
Proof.
  intros Hne Hidx Hnew. rewrite map_app, kv_multi_app. f_equal.
  - apply kv_multi_ext. apply Forall_map. apply Forall_forall.
    intros x Hx. cbn beta.
    pose proof (proj1 (Forall_forall _ _) Hidx x Hx) as Hx1.
    pose proof (proj1 (Forall_forall _ _) Hnew x Hx) as Hx2. cbn beta in *.
    rewrite lookup_insert_ne by congruence.
    rewrite lookup_insert_ne; [reflexivity|].
    intros Heq. apply key_inj in Heq. congruence.
  - cbn [map kv_multi omap list_omap to_string].
    rewrite lookup_insert_ne by congruence.
    by rewrite lookup_insert_eq.
Qed.

(** The run of POST /projects for an admin whose index is a list. *)
Lemma create_project_run
    (e : env) (uid : string) (cu b org : json) (ids : list json)
    (st : gmap string json) :
  caller e = Some uid ->
  st !! ("users:" +:+ uid) = Some cu ->
  prop cu "role" = Some (JStr "admin") ->
  prop cu "orgId" = Some org ->
  body e = Some b ->
  b <> JNull ->
  or_else (st !! ("org-projects:" +:+ to_string org)) (JArr []) = JArr ids ->
  let projectId := "project_" +:+ pretty (now e) +:+ "_" +:+ rand e in
  let project :=
    literal ∅
      [("id", Some (JStr projectId)); ("name", prop b "name");
       ("description", prop b "description"); ("orgId", Some org);
       ("assignedUsers", Some (or_default (prop b "assignedUsers") (JArr [])));
       ("createdAt", Some (JStr (to_iso (now e))));
       ("createdBy", Some (JStr uid))] in
  create_project e st
    = (<["org-projects:" +:+ to_string org := JArr (ids ++ [JStr projectId])]>
         (<["projects:" +:+ projectId := project]> st),
       success [("project", Some project)]).
Proof.
  intros Hc Hget Hrole Horg Hb Hnn Hids projectId project.
  assert (Hcu : truthy (Some cu) = true)
    by (destruct cu; try discriminate Hrole; reflexivity).
  assert (Hd : forall st0, destructure b st0 = (st0, Some tt))
    by (intros st0; destruct b; try congruence; reflexivity).
  unfold create_project. cbv zeta. run_handler. rewrite Hc, Hget.
  rewrite (is_admin_true _ _ Hrole). cbn [negb]. rewrite Hb, Hd.
  rewrite (field_defined _ _ _ Hcu), Horg. cbn [show].
  fold projectId. fold project.
  rewrite (index_append_list _ _ ids); [reflexivity|].
  rewrite lookup_insert_ne by key_neq. exact Hids.
Qed.

(** X15.  A project that an admin creates is the last entry of the
    admin's next project listing: with a truthy [orgId], an index that
    is a list (or absent) and holds no id equal to the generated one,
    GET /projects after POST /projects answers the earlier listing
    followed by the new project. *)
Theorem created_project_is_listed
    (e e' : env) (uid : string) (cu b org : json) (ids : list json)
    (st : gmap string json) :
  caller e = Some uid ->
  caller e' = Some uid ->
  st !! ("users:" +:+ uid) = Some cu ->
  prop cu "role" = Some (JStr "admin") ->
  prop cu "orgId" = Some org ->
  truthy (Some org) = true ->
  body e = Some b ->
  b <> JNull ->
  or_else (st !! ("org-projects:" +:+ to_string org)) (JArr []) = JArr ids ->
  let projectId := "project_" +:+ pretty (now e) +:+ "_" +:+ rand e in
  Forall (fun id => to_string id <> projectId) ids ->
  exists (earlier : list json) (project : json),
    get_projects e' st = (st, json_ok (JArr earlier)) /\
    snd (create_project e st) = success [("project", Some project)] /\
    snd (get_projects e' (fst (create_project e st)))
      = json_ok (JArr (earlier ++ [project])).
Proof.
  intros Hc Hc' Hget Hrole Horg Ht Hb Hnn Hids projectId Hnew.
  assert (Hcu : truthy (Some cu) = true)
    by (destruct cu; try discriminate Hrole; reflexivity).
  pose proof (create_project_run e uid cu b org ids st
                Hc Hget Hrole Horg Hb Hnn Hids) as Hrun.
  cbv zeta in Hrun. fold projectId in Hrun.
  eexists. eexists. split; [|split].
  - unfold get_projects. run_handler. rewrite Hc', Hget.
    rewrite (field_defined _ _ _ Hcu), Horg, Ht.
    cbn [negb show]. unfold kv_lookup. rewrite Hids.
    cbv beta iota delta [array_of try_ ret bind].
    rewrite (field_defined _ _ _ Hcu), Hrole. reflexivity.
  - rewrite Hrun. reflexivity.
  - rewrite Hrun. cbn [fst].
    unfold get_projects. run_handler.
    rewrite Hc'. rewrite !lookup_insert_ne by key_neq. rewrite Hget.
    rewrite (field_defined _ _ _ Hcu), Horg, Ht.
    cbn [negb show]. unfold kv_lookup.
    rewrite lookup_insert_eq. cbn [or_else truthy array_of].
    cbv beta iota delta [array_of try_ ret bind].
    rewrite (field_defined _ _ _ Hcu), Hrole.
    rewrite kv_multi_after_append;
      [reflexivity|key_neq| |exact Hnew].
    apply Forall_forall. intros x _. key_neq.
Qed.

(** X16.  DELETE /projects/:projectId by an admin never looks at the
    organization of the project: a missing project gives 404 and leaves
    the store; an existing project of any organization is deleted, and
    the id is filtered out of the index of the caller's organization
    alone, so the index of every other organization keeps what it held
    (the id of the deleted project included). *)
Theorem delete_project_filters_callers_index
    (e : env) (uid projectId : string) (cu : json) (st : gmap string json) :
  caller e = Some uid ->
  st !! ("users:" +:+ uid) = Some cu ->
  prop cu "role" = Some (JStr "admin") ->
  (truthy (st !! ("projects:" +:+ projectId)) = false ->
   delete_project projectId e st
     = (st, json_error 404 "Project not found")) /\
  (truthy (st !! ("projects:" +:+ projectId)) = true ->
   forall ids : list json,
     or_else (st !! ("org-projects:" +:+ show (prop cu "orgId"))) (JArr [])
       = JArr ids ->
     delete_project projectId e st
       = (<["org-projects:" +:+ show (prop cu "orgId")
            := JArr (without projectId ids)]>
            (delete ("projects:" +:+ projectId) st),
          success []) /\
     forall other : string,
       other <> show (prop cu "orgId") ->
       fst (delete_project projectId e st) !! ("org-projects:" +:+ other)
         = st !! ("org-projects:" +:+ other)).
Proof.
  intros Hc Hget Hrole.
  assert (Hcu : truthy (Some cu) = true)
    by (destruct cu; try discriminate Hrole; reflexivity).
  split.
  - intros Hno. unfold delete_project. run_handler. rewrite Hc, Hget.
    rewrite (is_admin_true _ _ Hrole). cbn [negb]. unfold kv_lookup.
    rewrite Hno. reflexivity.
  - intros Hyes ids Hids.
    assert (Hrun : delete_project projectId e st
       = (<["org-projects:" +:+ show (prop cu "orgId")
            := JArr (without projectId ids)]>
            (delete ("projects:" +:+ projectId) st),
          success [])).
    { unfold delete_project. run_handler. rewrite Hc, Hget.
      rewrite (is_admin_true _ _ Hrole). cbn [negb]. unfold kv_lookup.
      rewrite Hyes. cbn [negb]. rewrite (field_defined _ _ _ Hcu).
      rewrite (index_remove_list _ _ ids); [reflexivity|].
      rewrite lookup_delete_ne by key_neq. exact Hids. }
    split; [exact Hrun|]. intros other Hother. rewrite Hrun. cbn [fst].
    rewrite lookup_insert_ne
      by (intros Heq; apply key_inj in Heq; congruence).
    rewrite lookup_delete_ne by key_neq. reflexivity.
Qed.


(** *** Timesheets *)


(** The run of POST /timesheets when the caller's index is a list. *)
Lemma create_timesheet_run
    (e : env) (uid : string) (b : json) (ids : list json)
    (st : gmap string json) :
  caller e = Some uid ->
  body e = Some b ->
  b <> JNull ->
  or_else (st !! ("user-timesheets:" +:+ uid)) (JArr []) = JArr ids ->
  let timesheet :=
    literal ∅
      [("id", Some (JStr (new_timesheet_id e))); ("userId", Some (JStr uid));
       ("projectId", prop b "projectId");
       ("taskName", prop b "taskName");
       ("startTime", prop b "startTime");
       ("endTime", prop b "endTime");
       ("duration", prop b "duration");
       ("notes", prop b "notes");
       ("beforePhotoUrl", Some (or_else (prop b "beforePhotoUrl") JNull));
       ("afterPhotoUrl", Some (or_else (prop b "afterPhotoUrl") JNull));
       ("createdAt", Some (JStr (to_iso (now e))))] in
  create_timesheet e st
    = (<["user-timesheets:" +:+ uid
         := JArr (ids ++ [JStr (new_timesheet_id e)])]>
         (<["timesheets:" +:+ new_timesheet_id e := timesheet]> st),
       success [("timesheet", Some timesheet)]).
Proof.
  intros Hc Hb Hnn Hids timesheet.
  assert (Hd : forall st0, destructure b st0 = (st0, Some tt))
    by (intros st0; destruct b; try congruence; reflexivity).
  unfold create_timesheet. cbv zeta. run_handler. rewrite Hc, Hb, Hd.
  fold timesheet.
  rewrite (index_append_list _ _ ids); [reflexivity|].
  rewrite lookup_insert_ne by key_neq. exact Hids.
Qed.

(** X19.  Creating a timesheet entry and deleting it again takes the
    store back to where it was, up to the caller's index, which is then
    stored as the list it was read as: the generated id being new, the
    entry is gone and the index holds the ids it held before. *)
Theorem create_then_delete_timesheet
    (e e' : env) (uid : string) (b : json) (ids : list json)
    (st : gmap string json) :
  caller e = Some uid ->
  caller e' = Some uid ->
  body e = Some b ->
  b <> JNull ->
  st !! ("timesheets:" +:+ new_timesheet_id e) = None ->
  or_else (st !! ("user-timesheets:" +:+ uid)) (JArr []) = JArr ids ->
  ~ In (JStr (new_timesheet_id e)) ids ->
  delete_timesheet (new_timesheet_id e) e' (fst (create_timesheet e st))
    = (<["user-timesheets:" +:+ uid := JArr ids]> st, success []).
Proof.
  intros Hc Hc' Hb Hnn Hnew Hids Hnin.
  rewrite (create_timesheet_run e uid b ids st Hc Hb Hnn Hids). cbn [fst].
  unfold delete_timesheet. run_handler. rewrite Hc'. unfold kv_lookup.
  rewrite lookup_insert_ne by key_neq. rewrite lookup_insert_eq.
  cbn [truthy negb literal]. 
  match goal with
  | |- context [field (Some ?t) "userId" ?s] =>
      rewrite (field_defined t "userId" s eq_refl)
  end.
  read_literal. rewrite (proj2 (strict_eq_string _ _) eq_refl). cbn [negb].
  rewrite (index_remove_list _ _ (ids ++ [JStr (new_timesheet_id e)]));
    [|by rewrite lookup_delete_ne by key_neq; rewrite lookup_insert_eq].
  rewrite without_appended by exact Hnin.
  rewrite insert_delete_insert by (done || key_neq). reflexivity.
Qed.

(** X20.  A timesheet entry that a caller creates is the last entry of
    the caller's next unfiltered listing: with an index that is a list
    (or absent) and holds no id equal to the generated one,
    GET /timesheets after POST /timesheets answers the earlier listing
    followed by the new entry. *)
Theorem created_timesheet_is_listed
    (e e' : env) (q : filters) (uid : string) (b : json) (ids : list json)
    (st : gmap string json) :
  caller e = Some uid ->
  caller e' = Some uid ->
  body e = Some b ->
  b <> JNull ->
  given (startDate q) = false ->
  given (endDate q) = false ->
  given (projectId q) = false ->
  or_else (st !! ("user-timesheets:" +:+ uid)) (JArr []) = JArr ids ->
  Forall (fun id => to_string id <> new_timesheet_id e) ids ->
  exists (earlier : list json) (timesheet : json),
    get_timesheets q e' st = (st, json_ok (JArr earlier)) /\
    snd (create_timesheet e st) = success [("timesheet", Some timesheet)] /\
    snd (get_timesheets q e' (fst (create_timesheet e st)))
      = json_ok (JArr (earlier ++ [timesheet])).
Proof.
  intros Hc Hc' Hb Hnn Hs He Hp Hids Hnew.
  pose proof (create_timesheet_run e uid b ids st Hc Hb Hnn Hids) as Hrun.
  cbv zeta in Hrun.
  eexists. eexists. split; [|split].
  - unfold get_timesheets, listed, filter_dates, filter_field.
    run_handler. rewrite Hc', Hs, He, Hp. unfold kv_lookup. rewrite Hids.
    reflexivity.
  - rewrite Hrun. reflexivity.
  - rewrite Hrun. cbn [fst].
    unfold get_timesheets, listed, filter_dates, filter_field.
    run_handler. rewrite Hc', Hs, He, Hp. unfold kv_lookup.
    rewrite lookup_insert_eq. cbn [or_else truthy array_of].
    rewrite kv_multi_after_append;
      [reflexivity|key_neq| |exact Hnew].
    apply Forall_forall. intros x _. key_neq.
Qed.

(** *** The filters of the timesheet listings *)

Lemma filter_dates_sound (q : filters) (l r : list json)
    (st st' : gmap string json) :
  filter_dates q l st = (st', Some r) ->
  forall t : json, In t r -> In t l /\ within_dates q t.
Proof.
  unfold filter_dates, within_dates.
  destruct (given (startDate q) || given (endDate q)) eqn:Hg.
  - destruct (filter_opt (in_range q) l) as [r'|] eqn:Hf;
      cbv beta iota delta [try_ ret throw]; [|discriminate].
    intros [= _ <-] t Hin.
    destruct (filter_opt_sound _ _ _ Hf t Hin) as [Hl Hpass].
    split; [exact Hl|]. unfold in_range in Hpass.
    assert (Hpass' :
      (if given (startDate q)
          && date_before (date_value (prop t "startTime"))
               (date_value (JStr <$> startDate q))
       then false
       else if given (endDate q)
               && date_before (date_value (JStr <$> endDate q))
                    (date_value (prop t "startTime"))
       then false else true) = true)
      by (destruct t; try discriminate Hpass; by injection Hpass).
    clear Hpass.
    destruct (given (startDate q)), (given (endDate q));
      cbn [andb] in Hpass';
      repeat match type of Hpass' with
             | (if ?c then _ else _) = true =>
                 destruct c eqn:?; try discriminate Hpass'
             end;
      split; intros; first [assumption | congruence].
  - apply orb_false_iff in Hg as [Hs He].
    cbv beta iota delta [ret]. intros [= _ <-] t Hin.
    split; [exact Hin|]. rewrite Hs, He. split; discriminate.
Qed.

Lemma filter_field_sound (f : string) (x : option string) (l r : list json)
    (st st' : gmap string json) :
  filter_field f x l st = (st', Some r) ->
  forall t : json, In t r -> In t l /\ matches f x t.
Proof.
  unfold filter_field, matches. destruct (given x) eqn:Hg.
  - destruct (filter_opt (has_field f x) l) as [r'|] eqn:Hf;
      cbv beta iota delta [try_ ret throw]; [|discriminate].
    intros [= _ <-] t Hin.
    destruct (filter_opt_sound _ _ _ Hf t Hin) as [Hl Hpass].
    split; [exact Hl|]. intros _. unfold has_field in Hpass.
    destruct x as [x|]; [|discriminate Hg]. cbn [fmap option_fmap option_map].
    apply strict_eq_string.
    destruct t; try discriminate Hpass; by injection Hpass.
  - cbv beta iota delta [ret]. intros [= _ <-] t Hin.
    split; [exact Hin|discriminate].
Qed.

(** X21.  The timesheet listings return only entries that pass the
    filters of the query: whenever GET /timesheets or
    GET /organizations/:orgId/timesheets answers 200, every entry of the
    list has the [projectId] (and, for the organization listing, the
    [userId]) of the query when that is given, and a [startTime] that is
    not before the given start nor after the given end. *)
Theorem timesheet_listings_respect_filters
    (q : filters) (e : env) (st : gmap string json) (l : list json) :
  (snd (get_timesheets q e st) = json_ok (JArr l) ->
   forall t : json,
     In t l -> within_dates q t /\ matches "projectId" (projectId q) t) /\
  (forall orgId : string,
     snd (get_org_timesheets orgId q e st) = json_ok (JArr l) ->
     forall t : json,
       In t l ->
       within_dates q t /\ matches "userId" (userId q) t /\
       matches "projectId" (projectId q) t).
Proof.
  split.
  - unfold get_timesheets, handler. destruct (caller e) as [uid|];
      [|discriminate].
    unfold bind at 1. destruct (listed _ _ st) as [st1 [ts|]];
      [|discriminate].
    unfold bind at 1.
    destruct (filter_dates q ts st1) as [st2 [dated|]] eqn:Hd;
      [|discriminate].
    unfold bind at 1.
    destruct (filter_field "projectId" (projectId q) dated st2)
      as [st3 [final|]] eqn:Hp; [|discriminate].
    cbn [ret snd]. intros [= <-] t Hin.
    destruct (filter_field_sound _ _ _ _ _ _ Hp t Hin) as [Hin1 Hm].
    destruct (filter_dates_sound _ _ _ _ _ Hd t Hin1) as [_ Hw].
    by split.
  - intros orgId. unfold get_org_timesheets, handler.
    destruct (caller e) as [uid|]; [|discriminate].
    unfold bind at 1. destruct (kv_get _ st) as [st0 [cu|]]; [|discriminate].
    unfold bind at 1. destruct (org_admin _ _ st0) as [st0' [[]|]];
      [|discriminate|discriminate].
    cbn [negb]. unfold bind at 1.
    destruct (kv_get _ st0') as [st0'' [ids|]]; [|discriminate].
    unfold bind at 1. destruct (try_ _ st0'') as [sta [uids|]];
      [|discriminate].
    unfold bind at 1. destruct (collect_timesheets uids sta) as [st1 [ts|]];
      [|discriminate].
    unfold bind at 1.
    destruct (filter_dates q ts st1) as [st2 [dated|]] eqn:Hd;
      [|discriminate].
    unfold bind at 1.
    destruct (filter_field "userId" (userId q) dated st2)
      as [st3 [byUser|]] eqn:Hu; [|discriminate].
    unfold bind at 1.
    destruct (filter_field "projectId" (projectId q) byUser st3)
      as [st4 [final|]] eqn:Hp; [|discriminate].
    cbn [ret snd]. intros [= <-] t Hin.
    destruct (filter_field_sound _ _ _ _ _ _ Hp t Hin) as [Hin1 Hm].
    destruct (filter_field_sound _ _ _ _ _ _ Hu t Hin1) as [Hin2 Hm2].
    destruct (filter_dates_sound _ _ _ _ _ Hd t Hin2) as [_ Hw].
    split; [exact Hw|split; [exact Hm2|exact Hm]].
Qed.

(** *** The caller's profile *)

(** X22.  What PUT /users/me answers as [user] is what the caller's
    next GET /users/me answers: the profile is read back as stored. *)
Theorem update_me_then_get_me
    (e e' : env) (uid : string) (updates cur : json) (st : gmap string json) :
  caller e = Some uid ->
  caller e' = Some uid ->
  body e = Some updates ->
  st !! ("users:" +:+ uid) = Some cur ->
  truthy (Some cur) = true ->
  exists profile : json,
    snd (update_me e st) = success [("user", Some profile)] /\
    get_me e' (fst (update_me e st))
      = (fst (update_me e st), json_ok profile).
Proof.
  intros Hc Hc' Hb Hget Ht.
  assert (Hrun : exists profile : gmap string json,
    update_me e st = (<["users:" +:+ uid := JObj profile]> st,
                      success [("user", Some (JObj profile))])).
  { eexists. unfold update_me. run_handler. rewrite Hc, Hb, Hget, Ht.
    cbv beta iota delta [negb]. rewrite !field_defined by exact Ht.
    unfold literal. reflexivity. }
  destruct Hrun as [profile Hrun]. exists (JObj profile).
  rewrite Hrun. cbn [fst snd]. split; [reflexivity|].
  unfold get_me. run_handler. rewrite Hc', lookup_insert_eq. reflexivity.
Qed.

(** *** Keys the update routes write *)

(** X23.  The five routes that update a record in place (PUT /users/me,
    PUT /users/:userId, PUT /projects/:projectId,
    PUT /timesheets/:timesheetId and the toggle of an invite code) write
    no key but that of the record: every other key of the store, the
    indexes included, holds after the request what it held before,
    whatever the payload and whatever the answer. *)
Theorem update_routes_write_one_key
    (r : request) (e : env) (k k' : string) (st : gmap string json) :
  target r e = Some k ->
  k' <> k ->
  fst (serve r e st) !! k' = st !! k'.
Proof.
  intros Ht Hne. assert (Hne' : k <> k') by congruence.
  destruct r; cbn [target] in Ht; try discriminate Ht;
    try (destruct (caller e) as [uid|] eqn:Hc; [|discriminate Ht]);
    injection Ht as <-; cbn [serve];
    unfold update_me, update_user, update_project, update_timesheet,
      toggle_invite_code;
    try rewrite Hc; apply keeps_handler; frames.
Qed.

(** *** The shape of the stored data *)

Lemma serve_keeps_index_lists (p : string)
    (r : request) (e : env) (st : gmap string json) :
  p = "org-users:" \/ p = "org-invite-codes:" ->
  family p is_list st -> family p is_list (fst (serve r e st)).
Proof.
  intros Hfam H.
  destruct r; cbn [serve];
    unfold signup, create_invite_code, toggle_invite_code,
      delete_invite_code, update_me, update_user, delete_user,
      create_project, get_projects, update_project, delete_project,
      create_timesheet, update_timesheet, delete_timesheet, test_database;
    (apply stays_handler; [|exact H]);
    destruct Hfam as [-> | ->];
    invariant.
Qed.

(** X24.  In every store that the server reaches from the empty store,
    whatever the requests, the four indexes that the routes iterate
    ([org-users], [org-invite-codes], [user-timesheets], [org-projects])
    hold lists: no payload and no order of requests makes a route store
    anything else under such a key. *)
Theorem reachable_indexes_are_lists (rs : list (request * env)) :
  indexes_are_lists (run rs ∅).
Proof.
  assert (Hinv : forall st, indexes_are_lists st ->
                            indexes_are_lists (run rs st)).
  { induction rs as [|[r e] rest IH]; intros st H; [exact H|].
    cbn [run]. apply IH. destruct H as (H1 & H2 & H3 & H4).
    repeat split.
    - apply serve_keeps_index_lists; auto.
    - apply serve_keeps_index_lists; auto.
    - apply serve_keeps_family; auto.
    - apply serve_keeps_family; auto. }
  apply Hinv. repeat split; intros k v Hget; by rewrite lookup_empty in Hget.
Qed.

Lemma keyed_set (p key : string) (v : json) :
  (String.prefix p key = true ->
   exists o : gmap string json, v = JObj o /\ key = p +:+ show (o !! "id")) ->
  stays (stored_under_id p) (kv_set key v).
Proof.
  intros Hv st H k x Hget Hp. cbn in Hget.
  destruct (decide (key = k)) as [->|Hne].
  - rewrite lookup_insert_eq in Hget. injection Hget as <-. by apply Hv.
  - rewrite lookup_insert_ne in Hget by done. by eapply H.
Qed.

Lemma keyed_del (p key : string) : stays (stored_under_id p) (kv_del key).
Proof.
  intros st H k x Hget Hp. cbn in Hget.
  apply lookup_delete_Some in Hget as [_ Hget]. by eapply H.
Qed.

Lemma keyed_literal (p key : string) (base : gmap string json)
    (fields : list (string * option json)) :
  key = p +:+ show (prop (literal base fields) "id") ->
  exists o : gmap string json,
    literal base fields = JObj o /\ key = p +:+ show (o !! "id").
Proof. intros Hk. eexists. split; [reflexivity|exact Hk]. Qed.

(** A write is harmless when its key is of another family or when its
    value is an object literal with the id of the key. *)
Ltac keyed_shape :=
  let H := fresh "Hp" in
  intros H;
  first [ discriminate H
        | cbn in H; discriminate H
        | apply keyed_literal; read_literal; reflexivity ].

Ltac keyed :=
  cbv zeta;
  repeat match goal with
    | |- stays _ (ret _) => apply stays_ret
    | |- stays _ throw => apply stays_throw
    | |- stays _ (try_ _) => apply stays_try
    | |- stays _ (req_json _) => apply stays_try
    | |- stays _ (kv_get _) => apply stays_get
    | |- stays _ (kv_mget _) => apply stays_mget
    | |- stays _ (kv_getByPrefix _) => apply stays_getByPrefix
    | |- stays _ (field _ _) => apply stays_field
    | |- stays _ (destructure _) => apply stays_destructure
    | |- stays _ (kv_set _ _) => apply keyed_set; solve [keyed_shape]
    | |- stays _ (kv_del _) => apply keyed_del
    | |- stays _ (attempt _) => apply stays_attempt
    | |- stays _ (bind _ _) => apply stays_bind; [|intros ?]
    | |- stays _ (is_admin _) => unfold is_admin
    | |- stays _ (index_append _ _) => unfold index_append
    | |- stays _ (index_remove _ _) => unfold index_remove
    | |- stays _ (join_org _ _) => unfold join_org
    | |- stays _ (if ?c then _ else _) => destruct c
    | |- stays _ (match ?x with _ => _ end) => destruct x
    end.

Lemma serve_keeps_ids (p : string)
    (r : request) (e : env) (st : gmap string json) :
  p = "users:" \/ p = "organizations:" \/ p = "projects:"
  \/ p = "timesheets:" ->
  stored_under_id p st -> stored_under_id p (fst (serve r e st)).
Proof.
  intros Hfam H.
  destruct r; cbn [serve];
    unfold signup, create_invite_code, toggle_invite_code,
      delete_invite_code, update_me, update_user, delete_user,
      create_project, get_projects, update_project, delete_project,
      create_timesheet, update_timesheet, delete_timesheet, test_database;
    (apply stays_handler; [|exact H]);
    destruct Hfam as [-> | [-> | [-> | ->]]];
    keyed.
Qed.

(** X25.  In every store that the server reaches from the empty store,
    every record of a user, an organization, a project, a timesheet
    entry or an invite code is an object stored under the key of its own
    [id]: the updates force the [id] of the path whatever the payload
    says, so a record never drifts away from its key. *)
Theorem reachable_records_have_their_ids (rs : list (request * env)) :
  records_have_their_ids (run rs ∅).
Proof.
  assert (Hinv : forall p st,
    p = "users:" \/ p = "organizations:" \/ p = "projects:"
    \/ p = "timesheets:" ->
    stored_under_id p st -> stored_under_id p (run rs st)).
  { intros p st Hp. revert st.
    induction rs as [|[r e] rest IH]; intros st H; [exact H|].
    cbn [run]. apply IH. by apply serve_keeps_ids. }
  assert (H0 : forall p, stored_under_id p ∅).
  { intros p k v Hget. by rewrite lookup_empty in Hget. }
  repeat split; try (apply Hinv; [tauto|apply H0]).
  intros k v Hget Hp.
  destruct (run_code_records rs ∅ empty_code_records k v Hget Hp)
    as (o & -> & Hk & _).
  exists o. by split.
Qed.

End Server.

(** ** The handlers on the sample organization *)

(** C1 (defect).  An admin deletes the staff member of the sample
    organization: the answer is 200 and the user record is gone, but the
    [org-users] index of the organization still lists the deleted id;
    the list that the handler filtered and stored is a new one under
    [orgs:org_1:users]. *)
Theorem delete_user_leaves_org_users_entry :
  let e := request_of (Some "u_admin") None in
  let st' := fst (delete_user "u_staff" e sample_store) in
  prop sample_staff "orgId" = Some (JStr "org_1") /\
  status (snd (delete_user "u_staff" e sample_store)) = 200 /\
  st' !! "users:u_staff" = None /\
  st' !! "org-users:org_1" = Some (JArr [JStr "u_admin"; JStr "u_staff"]) /\
  st' !! "orgs:org_1:users" = Some (JArr []).
Proof. vm_compute. repeat split; reflexivity. Qed.

(** The sample organization is well formed, and so is every store that
    the server reaches from it. *)
Lemma family_of_entries (p : string) (Q : json -> Prop)
    (l : list (string * json)) :
  Forall (fun kv => String.prefix p (fst kv) = true -> Q (snd kv)) l ->
  family p Q (list_to_map l).
Proof.
  intros Hall k v Hget Hp.
  apply elem_of_list_to_map_2 in Hget.
  rewrite Forall_forall in Hall. exact (Hall (k, v) Hget Hp).
Qed.

Lemma sample_well_formed : well_formed sample_store.
Proof.
  repeat split; apply family_of_entries;
    repeat constructor; cbn [fst snd]; intros Hp;
    first [ discriminate Hp | eexists; reflexivity ].
Qed.

Lemma sample_codes_are_objects : codes_are_objects sample_store.
Proof. exact (proj1 sample_well_formed). Qed.

Lemma sample_codes :
  kv_scan "invite-codes:" sample_store = [sample_code].
Proof. vm_compute. reflexivity. Qed.

(** The staff member renames themselves and asks for the admin role and
    another organization: the name is stored, the role and the
    organization are the stored ones. *)
Lemma update_me_keeps_role_and_org_witness :
  let e :=
    request_of (Some "u_staff")
      (Some (literal ∅ [("name", Some (JStr "Samuel"));
                        ("role", Some (JStr "admin"));
                        ("orgId", Some (JStr "org_2"))])) in
  exists new : json,
    fst (update_me e sample_store) !! "users:u_staff" = Some new /\
    status (snd (update_me e sample_store)) = 200 /\
    prop new "role" = Some (JStr "staff") /\
    prop new "orgId" = Some (JStr "org_1") /\
    prop new "name" = Some (JStr "Samuel") /\
    prop new "email" = Some (JStr "sam@example.org").
Proof.
  intros e.
  destruct (update_me_keeps_role_and_org e "u_staff" _ sample_staff
              sample_store eq_refl eq_refl eq_refl eq_refl)
    as (new & Hst & Hok & Hrole & Horg & _ & Hrest).
  exists new. rewrite Hst, Hrole, Horg.
  rewrite (Hrest "name") by discriminate.
  rewrite (Hrest "email") by discriminate.
  split; [apply lookup_insert_eq|].
  split; [exact Hok|]. repeat split; reflexivity.
Defined.

(** A signup without invite code and organization that asks for the admin
    role gets it. *)
Lemma signup_without_org_stores_requested_role_witness :
  let b :=
    literal ∅ [("email", Some (JStr "eve@example.org"));
               ("password", Some (JStr "secret"));
               ("name", Some (JStr "Eve")); ("role", Some (JStr "admin"))] in
  let e := request_of None (Some b) in
  let served :=
    signup sample_iso sample_parse sample_parse (inr "u_eve") e sample_store in
  exists user : json,
    fst served = <["users:u_eve" := user]> sample_store /\
    status (snd served) = 200 /\
    prop user "role" = Some (JStr "admin") /\
    prop user "orgId" = Some JNull.
Proof.
  intros b e served.
  destruct (signup_without_org_stores_requested_role
              sample_iso sample_parse sample_parse e b "u_eve" sample_store
              eq_refl ltac:(discriminate) eq_refl eq_refl)
    as (Hrun & _ & Horg & Hrole).
  eexists. subst served. rewrite Hrun.
  split; [reflexivity|]. split; [reflexivity|].
  split; [apply Hrole; reflexivity|exact Horg].
Defined.

(** The admin toggles the sample code twice. *)
Lemma toggle_invite_code_twice_witness :
  let e := request_of (Some "u_admin") None in
  let once := toggle_invite_code "code_1" e sample_store in
  let twice := toggle_invite_code "code_1" e (fst once) in
  status (snd once) = 200 /\
  (fst once !! "invite-codes:code_1") ≫= (fun c => prop c "isActive")
    = Some (JBool false) /\
  status (snd twice) = 200 /\
  fst twice !! "invite-codes:code_1" = Some sample_code /\
  fst twice = sample_store.
Proof.
  intros e once twice.
  destruct (toggle_invite_code_twice e e "u_admin" "u_admin" "code_1"
              sample_admin sample_admin (spread (Some sample_code)) true
              sample_store eq_refl eq_refl eq_refl eq_refl eq_refl eq_refl
              eq_refl eq_refl eq_refl eq_refl)
    as (H1 & H2 & H3 & H4 & H5).
  fold once in H1, H2. fold twice in H3, H4, H5.
  split; [exact H1|].
  split; [change (fst once !! "invite-codes:code_1")
            with (fst once !! ("invite-codes:" +:+ "code_1"));
          rewrite H2; reflexivity|].
  split; [exact H3|]. split; [exact H4|exact H5].
Defined.

(** The staff member deletes the own timesheet; the admin, who does not
    own it, is refused. *)
Lemma delete_timesheet_owner_only_witness :
  let owner := request_of (Some "u_staff") None in
  let other := request_of (Some "u_admin") None in
  fst (delete_timesheet "ts_1" owner sample_store) !! "timesheets:ts_1" = None /\
  delete_timesheet "ts_1" owner sample_store
    = (<["user-timesheets:u_staff" := JArr []]>
         (delete "timesheets:ts_1" sample_store),
       success []) /\
  delete_timesheet "ts_1" other sample_store
    = (sample_store, json_error 403 "Forbidden").
Proof.
  intros owner other.
  destruct (delete_timesheet_owner_only owner "u_staff" "ts_1"
              sample_timesheet sample_store eq_refl eq_refl eq_refl)
    as [Hown _].
  destruct (Hown eq_refl) as [Hgone Hidx].
  destruct (Hidx [JStr "ts_1"] eq_refl) as [Hrun _].
  destruct (delete_timesheet_owner_only other "u_admin" "ts_1"
              sample_timesheet sample_store eq_refl eq_refl eq_refl)
    as [_ Hother].
  split; [exact Hgone|]. split; [exact Hrun|].
  apply Hother. discriminate.
Defined.

(** C2, the claim as stated fails for the PUT: the admin of the sample
    organization sends [{ role: 'staff' }] to PUT /users/u_admin, the
    answer is 200 and the stored role of the caller has changed. *)
Lemma update_user_changes_own_role :
  let e :=
    request_of (Some "u_admin")
      (Some (literal ∅ [("role", Some (JStr "staff"))])) in
  let served := update_user "u_admin" e sample_store in
  sample_store !! "users:u_admin" = Some sample_admin /\
  prop sample_admin "role" = Some (JStr "admin") /\
  status (snd served) = 200 /\
  exists after : json,
    fst served !! "users:u_admin" = Some after /\
    prop after "role" = Some (JStr "staff") /\
    prop after "role" <> prop sample_admin "role".
Proof.
  intros e served. split; [reflexivity|]. split; [reflexivity|].
  split; [reflexivity|]. eexists. split; [reflexivity|].
  split; [reflexivity|]. vm_compute. discriminate.
Qed.

(** The admin of the sample organization on the own id: the delete is
    refused, the update to staff is stored. *)
Lemma user_routes_on_own_id_witness :
  let updates := literal ∅ [("role", Some (JStr "staff"))] in
  let e := request_of (Some "u_admin") (Some updates) in
  delete_user "u_admin" e sample_store
    = (sample_store, json_error 400 "Cannot delete your own account") /\
  exists new : json,
    update_user "u_admin" e sample_store
      = (<["users:u_admin" := new]> sample_store,
         success [("user", Some new)]) /\
    prop new "role" = Some (JStr "staff").
Proof.
  intros updates e.
  destruct (user_routes_on_own_id e "u_admin" sample_admin sample_store
              eq_refl eq_refl eq_refl) as [Hdel Hput].
  destruct (Hput updates eq_refl) as [Hrun Hrole].
  split; [exact Hdel|]. eexists. split; [exact Hrun|].
  apply Hrole. reflexivity.
Defined.

(** A newcomer signs up with the code of the sample organization and
    asks for the admin role: the record joins [org_1] as staff. *)
Lemma signup_with_invite_code_joins_org_witness :
  let b :=
    literal ∅ [("email", Some (JStr "ned@example.org"));
               ("password", Some (JStr "secret"));
               ("name", Some (JStr "Ned"));
               ("inviteCode", Some (JStr "ABCD1234"));
               ("role", Some (JStr "admin"))] in
  let e := request_of None (Some b) in
  exists user : json,
    fst (signup sample_iso sample_parse sample_parse (inr "u_ned") e
           sample_store) !! "users:u_ned" = Some user /\
    prop user "orgId" = Some (JStr "org_1") /\
    prop user "role" = Some (JStr "staff").
Proof.
  intros b e.
  destruct (signup_with_invite_code_joins_org
              sample_iso sample_parse sample_parse e b "u_ned"
              "invite-codes:code_1" sample_code sample_store
              eq_refl eq_refl sample_codes_are_objects eq_refl eq_refl eq_refl)
    as (c & user & Hin & _ & Huser & Horg & Hrole & Hone).
  assert (Hc : c = sample_code).
  { apply Hone. intros c' Hin' _. rewrite sample_codes in Hin'.
    by destruct Hin' as [<-|[]]. }
  exists user. split; [exact Huser|]. split; [|exact Hrole].
  rewrite Horg, Hc. reflexivity.
Defined.

(** The scenario of the specification: the code with [maxUses = 1] is
    redeemed by a first signup, which stores it with one use, and a
    second signup with the same code is refused. *)
Lemma signup_invite_code_redemption_witness :
  let body_of (email : string) :=
    literal ∅ [("email", Some (JStr email));
               ("password", Some (JStr "secret"));
               ("name", Some (JStr "New"));
               ("inviteCode", Some (JStr "ABCD1234"))] in
  let first := request_of None (Some (body_of "ned@example.org")) in
  let second := request_of None (Some (body_of "oda@example.org")) in
  let st1 :=
    fst (signup sample_iso sample_parse sample_parse (inr "u_ned") first
           sample_store) in
  (exists c' : json,
     st1 !! "invite-codes:code_1" = Some c' /\
     prop c' "currentUses" = Some (JNum 1)) /\
  signup sample_iso sample_parse sample_parse (inr "u_oda") second st1
    = (st1, json_error 400 "Invalid or expired invite code").
Proof.
  intros body_of first second st1. split.
  - destruct (signup_invite_code_redemption
                sample_iso sample_parse sample_parse first
                (body_of "ned@example.org") "u_ned" sample_store
                eq_refl eq_refl) as [Hredeem _].
    destruct (Hredeem sample_code 0 eq_refl eq_refl eq_refl)
      as (c' & Hc' & Huses & _).
    exists c'. split; [exact Hc'|exact Huses].
  - destruct (signup_invite_code_redemption
                sample_iso sample_parse sample_parse second
                (body_of "oda@example.org") "u_oda" st1
                eq_refl eq_refl) as [_ Hrefuse].
    apply Hrefuse.
    + exact (proj1 (serve_keeps_well_formed
                      sample_iso sample_parse sample_parse sample_add_days
                      (Signup (inr "u_ned")) first sample_store
                      sample_well_formed)).
    + assert (Hscan : kv_scan "invite-codes:" st1
                = [literal (spread (Some sample_code))
                     [("currentUses", Some (JNum 1))]])
        by (vm_compute; reflexivity).
      intros c Hin _. rewrite Hscan in Hin. destruct Hin as [<-|[]].
      right. right. split; [reflexivity|].
      exists 1. split; reflexivity.
Defined.

(** C5, the claim as stated fails for an admin without organization.
    Someone signs up without invite code and organization, asking for the
    admin role, and creates a project: the project id goes to the index
    [org-projects:null], the index of this caller, and the project is
    stored; yet GET /projects answers the empty list. *)
Lemma get_projects_admin_without_org :
  let signup_body :=
    literal ∅ [("email", Some (JStr "eve@example.org"));
               ("password", Some (JStr "secret"));
               ("name", Some (JStr "Eve")); ("role", Some (JStr "admin"))] in
  let project_body := literal ∅ [("name", Some (JStr "Solo"))] in
  let st :=
    run sample_iso sample_parse sample_parse sample_add_days
      [(Signup (inr "u_eve"), request_of None (Some signup_body));
       (CreateProject, request_of (Some "u_eve") (Some project_body))] ∅ in
  let e := request_of (Some "u_eve") None in
  exists (cu p : json) (ids : list json),
    st !! "users:u_eve" = Some cu /\
    prop cu "role" = Some (JStr "admin") /\
    st !! ("org-projects:" +:+ show (prop cu "orgId")) = Some (JArr ids) /\
    kv_multi (map (fun id => "projects:" +:+ to_string id) ids) st = [p] /\
    get_projects e st = (st, json_ok (JArr [])) /\
    payload (snd (get_projects e st))
      <> JArr (kv_multi (map (fun id => "projects:" +:+ to_string id) ids) st).
Proof.
  intros signup_body project_body st e.
  eexists _, _, _.
  split; [vm_compute; reflexivity|].
  split; [vm_compute; reflexivity|].
  split; [vm_compute; reflexivity|].
  split; [vm_compute; reflexivity|].
  split; [vm_compute; reflexivity|].
  vm_compute. discriminate.
Qed.

(** The listing on the sample organization: the admin gets the project
    of the index, the staff member, who is not assigned to it, the empty
    list. *)
Lemma get_projects_by_role_witness :
  get_projects (request_of (Some "u_admin") None) sample_store
    = (sample_store, json_ok (JArr [sample_project])) /\
  get_projects (request_of (Some "u_staff") None) sample_store
    = (sample_store, json_ok (JArr [])).
Proof.
  split.
  - destruct (get_projects_by_role (request_of (Some "u_admin") None)
                "u_admin" sample_admin sample_store
                eq_refl eq_refl ltac:(discriminate)) as (_ & _ & Horg).
    destruct (Horg eq_refl [JStr "proj_1"] eq_refl) as [Hadmin _].
    exact (Hadmin eq_refl).
  - destruct (get_projects_by_role (request_of (Some "u_staff") None)
                "u_staff" sample_staff sample_store
                eq_refl eq_refl ltac:(discriminate)) as (_ & _ & Horg).
    destruct (Horg eq_refl [JStr "proj_1"] eq_refl) as [_ Hstaff].
    apply (Hstaff eq_refl). intros p [<-|[]]. left. eexists. reflexivity.
Defined.

(** C5, the staff half of the claim as stated fails too.  The admin
    creates a project whose [assignedUsers] is the string
    ['u_staff_2,u_admin'], stored as sent; the staff member [u_staff],
    who is not named in it, gets the project listed, since the test is
    [includes] and the caller's id is a substring. *)
Example get_projects_staff_substring :
  let b :=
    literal ∅ [("name", Some (JStr "Bridge"));
               ("assignedUsers", Some (JStr "u_staff_2,u_admin"))] in
  let st :=
    fst (create_project sample_iso (request_of (Some "u_admin") (Some b))
           sample_store) in
  exists p : json,
    payload (snd (get_projects (request_of (Some "u_staff") None) st))
      = JArr [p] /\
    prop p "name" = Some (JStr "Bridge") /\
    prop p "assignedUsers" = Some (JStr "u_staff_2,u_admin") /\
    includes (prop p "assignedUsers") (JStr "u_staff") = Some true.
Proof.
  intros b st. eexists.
  split; [vm_compute; reflexivity|]. repeat split; reflexivity.
Qed.

(** The staff member creates a timesheet; then updates its notes (and
    tries to hand it to the admin), the admin tries to update it and is
    refused, and the admin toggles the invite code: the [userId] of the
    record is still the staff member's id. *)
Lemma timesheet_owner_never_changes_witness :
  let b :=
    literal ∅ [("projectId", Some (JStr "proj_1"));
               ("taskName", Some (JStr "Painting"));
               ("duration", Some (JNum 30))] in
  let e := request_of (Some "u_staff") (Some b) in
  let tid := new_timesheet_id e in
  let edit :=
    Some (literal ∅ [("notes", Some (JStr "done"));
                     ("userId", Some (JStr "u_admin"))]) in
  let rs :=
    [(UpdateTimesheet tid, request_of (Some "u_staff") edit);
     (UpdateTimesheet tid, request_of (Some "u_admin") edit);
     (ToggleInviteCode "code_1", request_of (Some "u_admin") None)] in
  let created := fst (create_timesheet sample_iso e sample_store) in
  exists t' : json,
    run sample_iso sample_parse sample_parse sample_add_days rs created
      !! ("timesheets:" +:+ tid) = Some t' /\
    prop t' "userId" = Some (JStr "u_staff").
Proof.
  intros b e tid edit rs created.
  destruct (timesheet_owner_never_changes
              sample_iso sample_parse sample_parse sample_add_days
              e "u_staff" b sample_store rs
              eq_refl eq_refl ltac:(discriminate)) as (_ & Hrun & _).
  apply Hrun. cbn [alive rs fresh].
  repeat split; try (eexists; vm_compute; reflexivity).
Defined.

(** ** The JavaScript operators on small inputs *)

Example to_string_nested_array :
  to_string (JArr [JNum 1; JNull; JArr [JStr "a"; JBool true]; JNum (-7)])
    = "1,,a,true,-7".
Proof. reflexivity. Qed.

Example template_of_null_org :
  "org-projects:" +:+ show (Some JNull) = "org-projects:null" /\
  "org-projects:" +:+ show None = "org-projects:undefined".
Proof. split; reflexivity. Qed.

Example spread_of_string :
  spread (Some (JStr "ab")) = {[ "0" := JStr "a"; "1" := JStr "b" ]}.
Proof. vm_compute. reflexivity. Qed.

Example literal_later_property_wins :
  literal (spread (Some (literal ∅ [("role", Some (JStr "admin"))])))
    [("role", Some (JStr "staff")); ("orgId", None)]
    = literal ∅ [("role", Some (JStr "staff"))].
Proof. vm_compute. reflexivity. Qed.

Example plus_one_cases :
  plus_one (Some (JNum 0)) = JNum 1 /\
  plus_one (Some (JStr "3")) = JStr "31" /\
  plus_one None = JNull.
Proof. repeat split; reflexivity. Qed.

Example includes_cases :
  includes (Some (JArr [JStr "u_admin"])) (JStr "u_staff") = Some false /\
  includes (Some (JStr "u_admin,u_staff")) (JStr "u_staff") = Some true /\
  includes None (JStr "u_staff") = None.
Proof. repeat split; reflexivity. Qed.


(** ** The further properties on the sample organization *)

(** Without a token, the delete of a user and the listing of the users
    are both refused with 401. *)
Lemma unauthenticated_is_refused_witness :
  let e := request_of None None in
  serve sample_iso sample_parse sample_parse sample_add_days
    (DeleteUser "u_staff") e sample_store = (sample_store, unauthorized) /\
  answer sample_parse sample_parse (GetOrgUsers "org_1") e sample_store
    = (sample_store, unauthorized).
Proof.
  intros e.
  destruct (unauthenticated_is_refused
              sample_iso sample_parse sample_parse sample_add_days
              e sample_store eq_refl) as [Hserve Hanswer].
  split; [apply Hserve|apply Hanswer]; reflexivity.
Defined.

(** The staff member tries to delete the admin. *)
Lemma admin_routes_refuse_other_roles_witness :
  serve sample_iso sample_parse sample_parse sample_add_days
    (DeleteUser "u_admin") (request_of (Some "u_staff") None) sample_store
    = (sample_store, admin_only).
Proof.
  apply (admin_routes_refuse_other_roles
           sample_iso sample_parse sample_parse sample_add_days
           (DeleteUser "u_admin") (request_of (Some "u_staff") None)
           "u_staff" sample_staff sample_store);
    [reflexivity|reflexivity|discriminate|vm_compute; discriminate
    |reflexivity].
Defined.

(** The admin of the second organization asks for the users of the
    first. *)
Lemma listings_are_for_the_admins_of_the_organization_witness :
  answer sample_parse sample_parse (GetOrgUsers "org_1")
    (request_of (Some "u_olga") None) two_orgs
    = (two_orgs, json_error 403 "Forbidden").
Proof.
  destruct (listings_are_for_the_admins_of_the_organization
              sample_parse sample_parse (GetOrgUsers "org_1") "org_1"
              (request_of (Some "u_olga") None) "u_olga" other_admin
              two_orgs eq_refl eq_refl eq_refl ltac:(discriminate))
    as [Hrefuse _].
  apply Hrefuse. left. vm_compute. discriminate.
Defined.


(** The admin creates a code good for five uses. *)
Lemma create_invite_code_stores_witness :
  let e :=
    request_of (Some "u_admin")
      (Some (literal ∅ [("maxUses", Some (JNum 5))])) in
  let codeId := "code_" +:+ pretty (now e) +:+ "_" +:+ rand2 e in
  let served :=
    create_invite_code sample_iso sample_parse sample_add_days e
      sample_store in
  exists code : json,
    snd served = success [("inviteCode", Some code)] /\
    fst served
      = <["org-invite-codes:org_1" := JArr [JStr "code_1"; JStr codeId]]>
          (<["invite-codes:" +:+ codeId := code]> sample_store) /\
    prop code "maxUses" = Some (JNum 5) /\
    prop code "currentUses" = Some (JNum 0) /\
    prop code "orgId" = Some (JStr "org_1").
Proof.
  intros e codeId served.
  destruct (create_invite_code_stores
              sample_iso sample_parse sample_add_days e "u_admin"
              sample_admin (literal ∅ [("maxUses", Some (JNum 5))])
              sample_store eq_refl eq_refl eq_refl eq_refl
              ltac:(discriminate) eq_refl)
    as (Hanswer & _ & Hindex & _).
  eexists. split; [exact Hanswer|].
  split; [exact (Hindex [JStr "code_1"] eq_refl)|].
  repeat split; reflexivity.
Defined.

(** The admin of the second organization cannot delete the code of the
    first; the admin of the first can. *)
Lemma delete_invite_code_of_own_organization_witness :
  let own := delete_invite_code "code_1" (request_of (Some "u_admin") None)
               two_orgs in
  delete_invite_code "code_1" (request_of (Some "u_olga") None) two_orgs
    = (two_orgs, json_error 403 "Forbidden") /\
  fst own !! "invite-codes:code_1" = None /\
  fst own !! "org-invite-codes:org_1" = Some (JArr []) /\
  snd own = success [].
Proof.
  intros own. split.
  - destruct (delete_invite_code_of_own_organization
                (request_of (Some "u_olga") None) "u_olga" "code_1"
                other_admin two_orgs eq_refl eq_refl eq_refl) as [_ Hcode].
    destruct (Hcode sample_code eq_refl eq_refl) as [Hother _].
    apply Hother. reflexivity.
  - destruct (delete_invite_code_of_own_organization
                (request_of (Some "u_admin") None) "u_admin" "code_1"
                sample_admin two_orgs eq_refl eq_refl eq_refl) as [_ Hcode].
    destruct (Hcode sample_code eq_refl eq_refl) as [_ Hown].
    destruct (Hown eq_refl [JStr "code_1"] eq_refl)
      as (Hgone & Hidx & _ & Hok).
    split; [exact Hgone|]. split; [exact Hidx|exact Hok].
Defined.

(** The admin creates a code that expires in a week and deletes it
    again. *)
Lemma create_then_delete_invite_code_witness :
  let e :=
    request_of (Some "u_admin")
      (Some (literal ∅ [("expiresInDays", Some (JNum 7));
                        ("maxUses", Some (JNum 5))])) in
  let codeId := "code_" +:+ pretty (now e) +:+ "_" +:+ rand2 e in
  let created :=
    fst (create_invite_code sample_iso sample_parse sample_add_days e
           sample_store) in
  (created !! ("invite-codes:" +:+ codeId)) ≫= (fun c => prop c "expiresAt")
    = Some (JStr (sample_iso (now e + 7 * 86400000))) /\
  delete_invite_code codeId (request_of (Some "u_admin") None) created
    = (<["org-invite-codes:org_1" := JArr [JStr "code_1"]]> sample_store,
       success []).
Proof.
  intros e codeId created. split; [vm_compute; reflexivity|].
  destruct (create_then_delete_invite_code
              sample_iso sample_parse sample_add_days
              e (request_of (Some "u_admin") None) "u_admin"
              sample_admin [JStr "code_1"] sample_store
              eq_refl eq_refl eq_refl eq_refl eq_refl eq_refl eq_refl)
    as [Hround _].
  { intros [Heq|[]]. discriminate Heq. }
  exact (Hround eq_refl).
Defined.

(** The invite codes of the sample store: the one code, stored under
    its id. *)
Lemma sample_code_keys (k : string) (c : json) :
  sample_store !! k = Some c ->
  String.prefix "invite-codes:" k = true ->
  k = "invite-codes:code_1" /\ c = sample_code.
Proof.
  intros Hget Hp. unfold sample_store in Hget.
  apply elem_of_list_to_map_2 in Hget.
  repeat (apply elem_of_cons in Hget as [Heq|Hget];
          [injection Heq as -> ->;
           first [discriminate Hp | split; reflexivity]|]).
  by apply elem_of_nil in Hget.
Qed.

Lemma sample_code_records : code_records sample_store.
Proof.
  intros k v Hget Hp. destruct (sample_code_keys k v Hget Hp) as [-> ->].
  exists (spread (Some sample_code)). split; [reflexivity|].
  split; [reflexivity|]. split; [by exists true|by exists 0].
Qed.

(** The code of the sample organization is verified, and a signup that
    presents it is not refused. *)
Lemma verification_agrees_with_signup_witness :
  let verify :=
    request_of None (Some (literal ∅ [("code", Some (JStr "ABCD1234"))])) in
  let join :=
    request_of None
      (Some (literal ∅ [("email", Some (JStr "ned@example.org"));
                        ("inviteCode", Some (JStr "ABCD1234"))])) in
  status (snd (signup sample_iso sample_parse sample_parse (inr "u_ned")
                 join sample_store)) = 200 /\
  says_valid (snd (verify_invite_code_post sample_parse sample_parse verify
                     sample_store)) = true.
Proof.
  intros verify join. split; [reflexivity|].
  apply (verification_agrees_with_signup
           sample_iso sample_parse sample_parse verify join
           (literal ∅ [("code", Some (JStr "ABCD1234"))])
           (literal ∅ [("email", Some (JStr "ned@example.org"));
                       ("inviteCode", Some (JStr "ABCD1234"))])
           "u_ned" sample_store
           eq_refl eq_refl eq_refl eq_refl eq_refl sample_code_records).
  vm_compute. discriminate.
Defined.

(** The admin toggles the code of the sample organization off; a signup
    that presents it is then refused. *)
Lemma deactivated_code_is_refused_witness :
  let join :=
    request_of None
      (Some (literal ∅ [("email", Some (JStr "ned@example.org"));
                        ("inviteCode", Some (JStr "ABCD1234"))])) in
  let st1 :=
    fst (toggle_invite_code "code_1" (request_of (Some "u_admin") None)
           sample_store) in
  (st1 !! "invite-codes:code_1") ≫= (fun c => prop c "isActive")
    = Some (JBool false) /\
  signup sample_iso sample_parse sample_parse (inr "u_ned") join st1
    = (st1, json_error 400 "Invalid or expired invite code").
Proof.
  intros join st1.
  destruct (deactivated_code_is_refused
              sample_iso sample_parse sample_parse
              (request_of (Some "u_admin") None) join "u_admin" "code_1"
              "u_ned" sample_admin
              (literal ∅ [("email", Some (JStr "ned@example.org"));
                          ("inviteCode", Some (JStr "ABCD1234"))])
              (spread (Some sample_code)) sample_store
              eq_refl eq_refl eq_refl eq_refl eq_refl eq_refl
              sample_codes_are_objects eq_refl eq_refl)
    as [Hcode Hrefused].
  { intros k c Hget Hp _. by destruct (sample_code_keys k c Hget Hp). }
  fold st1 in Hcode, Hrefused. split; [|exact Hrefused].
  change (st1 !! "invite-codes:code_1")
    with (st1 !! ("invite-codes:" +:+ "code_1")).
  rewrite Hcode. reflexivity.
Defined.

(** A founder signs up, creates a code good for one use, and a newcomer
    redeems it: the code is stored with one use of one. *)
Lemma use_count_stays_within_limit_witness :
  let found :=
    request_of None
      (Some (literal ∅ [("email", Some (JStr "bea@example.org"));
                        ("name", Some (JStr "Bea"));
                        ("organizationName", Some (JStr "Birch"))])) in
  let create :=
    request_of (Some "u_bea")
      (Some (literal ∅ [("maxUses", Some (JNum 1))])) in
  let join :=
    request_of None
      (Some (literal ∅ [("email", Some (JStr "ned@example.org"));
                        ("inviteCode", Some (JStr (rand create)))])) in
  let rs :=
    [(Signup (inr "u_bea"), found); (CreateInviteCode, create);
     (Signup (inr "u_ned"), join)] in
  let key := "invite-codes:code_" +:+ pretty (now create) +:+ "_"
             +:+ rand2 create in
  exists (v : json) (m n : Z),
    run sample_iso sample_parse sample_parse sample_add_days rs ∅ !! key
      = Some v /\
    prop v "maxUses" = Some (JNum m) /\
    prop v "currentUses" = Some (JNum n) /\
    n = 1 /\ n <= m.
Proof.
  intros found create join rs key.
  eexists _, 1, 1.
  split; [vm_compute; reflexivity|].
  split; [reflexivity|]. split; [reflexivity|]. split; [reflexivity|].
  eapply (use_count_stays_within_limit
            sample_iso sample_parse sample_parse sample_add_days rs key
            _ 1 1);
    [|vm_compute; reflexivity|reflexivity|reflexivity|discriminate
     |reflexivity].
  repeat constructor. cbn [fst snd no_negative_limit].
  intros b m [= <-] [= <-]. discriminate.
Defined.

(** The identity provider knows the address already: nothing is
    written, the code of the body is not used up. *)
Lemma signup_provider_error_witness :
  let join :=
    request_of None
      (Some (literal ∅ [("email", Some (JStr "sam@example.org"));
                        ("inviteCode", Some (JStr "ABCD1234"))])) in
  signup sample_iso sample_parse sample_parse
    (inl "User already registered") join sample_store
    = (sample_store, json_error 400 "User already registered").
Proof.
  intros join.
  apply (signup_provider_error sample_iso sample_parse sample_parse join
           (literal ∅ [("email", Some (JStr "sam@example.org"));
                       ("inviteCode", Some (JStr "ABCD1234"))]));
    [reflexivity|discriminate].
Defined.

(** A founder signs up with an organization name and asks for the staff
    role: the organization is created and the founder is its admin. *)
Lemma signup_founds_organization_witness :
  let b :=
    literal ∅ [("email", Some (JStr "bea@example.org"));
               ("name", Some (JStr "Bea")); ("role", Some (JStr "staff"));
               ("organizationName", Some (JStr "Birch"))] in
  let e := request_of None (Some b) in
  let orgId := "org_" +:+ pretty (now e) +:+ "_" +:+ rand e in
  let served :=
    signup sample_iso sample_parse sample_parse (inr "u_bea") e
      sample_store in
  status (snd served) = 200 /\
  (fst served !! "users:u_bea") ≫= (fun u => prop u "role")
    = Some (JStr "admin") /\
  (fst served !! "users:u_bea") ≫= (fun u => prop u "orgId")
    = Some (JStr orgId) /\
  (fst served !! ("organizations:" +:+ orgId)) ≫= (fun o => prop o "name")
    = Some (JStr "Birch") /\
  fst served !! ("org-users:" +:+ orgId) = Some (JArr [JStr "u_bea"]).
Proof.
  intros b e orgId served. subst served.
  rewrite (signup_founds_organization
             sample_iso sample_parse sample_parse e b "u_bea" []
             sample_store eq_refl eq_refl eq_refl eq_refl).
  repeat split; reflexivity.
Defined.

(** A newcomer presents the code of the sample organization together
    with an organization name: the newcomer joins [org_1] and its index,
    and no organization is created. *)
Lemma signup_redemption_joins_index_witness :
  let b :=
    literal ∅ [("email", Some (JStr "ned@example.org"));
               ("name", Some (JStr "Ned"));
               ("organizationName", Some (JStr "Rival"));
               ("inviteCode", Some (JStr "ABCD1234"))] in
  let e := request_of None (Some b) in
  let served :=
    signup sample_iso sample_parse sample_parse (inr "u_ned") e
      sample_store in
  status (snd served) = 200 /\
  fst served !! "org-users:org_1"
    = Some (JArr [JStr "u_admin"; JStr "u_staff"; JStr "u_ned"]) /\
  fst served !! "user-org:u_ned" = Some (JStr "org_1") /\
  fst served
    !! ("organizations:org_" +:+ pretty (now e) +:+ "_" +:+ rand e) = None.
Proof.
  intros b e served. subst served.
  destruct (signup_redemption_joins_index
              sample_iso sample_parse sample_parse e b "u_ned" sample_code
              sample_store eq_refl eq_refl
              ltac:(rewrite sample_codes; reflexivity)) as [_ Hjoins].
  rewrite (Hjoins (JStr "org_1") [JStr "u_admin"; JStr "u_staff"]
             eq_refl eq_refl eq_refl).
  repeat split; reflexivity.
Defined.

(** Someone who signed up as admin without organization creates a
    code; its [orgId] is [null].  A newcomer redeems it: the answer is
    200, the code has one use and the newcomer is stored with
    [orgId: null], but nothing is written under [user-org] or
    [org-users]. *)
Example signup_with_code_of_no_organization :
  let founder :=
    literal ∅ [("email", Some (JStr "eve@example.org"));
               ("role", Some (JStr "admin"))] in
  let create := request_of (Some "u_eve") (Some (literal ∅ [])) in
  let st :=
    run sample_iso sample_parse sample_parse sample_add_days
      [(Signup (inr "u_eve"), request_of None (Some founder));
       (CreateInviteCode, create)] ∅ in
  let join :=
    request_of None
      (Some (literal ∅ [("email", Some (JStr "ned@example.org"));
                        ("inviteCode", Some (JStr (rand create)))])) in
  let served := signup sample_iso sample_parse sample_parse (inr "u_ned")
                  join st in
  status (snd served) = 200 /\
  (fst served !! "users:u_ned") ≫= (fun u => prop u "orgId") = Some JNull /\
  fst served !! "user-org:u_ned" = None /\
  fst served !! "org-users:null" = None /\
  size (fst served) = S (size st).
Proof. vm_compute. repeat split; reflexivity. Qed.

(** The admin creates a second project and lists the projects. *)
Lemma created_project_is_listed_witness :
  let e :=
    request_of (Some "u_admin")
      (Some (literal ∅ [("name", Some (JStr "Bridge"))])) in
  let e' := request_of (Some "u_admin") None in
  exists project : json,
    snd (create_project sample_iso e sample_store)
      = success [("project", Some project)] /\
    snd (get_projects e' (fst (create_project sample_iso e sample_store)))
      = json_ok (JArr [sample_project; project]).
Proof.
  intros e e'.
  destruct (created_project_is_listed
              sample_iso e e' "u_admin" sample_admin
              (literal ∅ [("name", Some (JStr "Bridge"))]) (JStr "org_1")
              [JStr "proj_1"] sample_store
              eq_refl eq_refl eq_refl eq_refl eq_refl eq_refl eq_refl
              ltac:(discriminate) eq_refl)
    as (earlier & project & Hbefore & Hcreated & Hafter).
  { repeat constructor. discriminate. }
  assert (Hlist : get_projects e' sample_store
                  = (sample_store, json_ok (JArr [sample_project])))
    by reflexivity.
  assert (Hearlier : earlier = [sample_project])
    by (rewrite Hlist in Hbefore; unfold json_ok in Hbefore; congruence).
  exists project. split; [exact Hcreated|]. by rewrite Hafter, Hearlier.
Defined.

(** The admin of the second organization deletes the project of the
    first: the record is gone, the index of the first organization
    still lists it. *)
Lemma delete_project_filters_callers_index_witness :
  let served :=
    delete_project "proj_1" (request_of (Some "u_olga") None) two_orgs in
  snd served = success [] /\
  fst served !! "projects:proj_1" = None /\
  fst served !! "org-projects:org_1" = Some (JArr [JStr "proj_1"]) /\
  fst served !! "org-projects:org_2" = Some (JArr []).
Proof.
  intros served.
  destruct (delete_project_filters_callers_index
              (request_of (Some "u_olga") None) "u_olga" "proj_1"
              other_admin two_orgs eq_refl eq_refl eq_refl) as [_ Hfound].
  destruct (Hfound eq_refl [] eq_refl) as [Hrun Hother].
  split; [|split; [|split]].
  - subst served. by rewrite Hrun.
  - subst served. rewrite Hrun. reflexivity.
  - exact (Hother "org_1" ltac:(discriminate)).
  - subst served. rewrite Hrun. reflexivity.
Defined.



(** The staff member logs an entry and deletes it again. *)
Lemma create_then_delete_timesheet_witness :
  let e :=
    request_of (Some "u_staff")
      (Some (literal ∅ [("projectId", Some (JStr "proj_1"));
                        ("taskName", Some (JStr "Painting"))])) in
  delete_timesheet (new_timesheet_id e) (request_of (Some "u_staff") None)
    (fst (create_timesheet sample_iso e sample_store))
    = (<["user-timesheets:u_staff" := JArr [JStr "ts_1"]]> sample_store,
       success []).
Proof.
  intros e.
  apply (create_then_delete_timesheet
           sample_iso e (request_of (Some "u_staff") None) "u_staff"
           (literal ∅ [("projectId", Some (JStr "proj_1"));
                       ("taskName", Some (JStr "Painting"))])
           [JStr "ts_1"] sample_store);
    try reflexivity; [discriminate|].
  intros [Heq|[]]. discriminate Heq.
Defined.

(** The staff member logs an entry and lists the entries. *)
Lemma created_timesheet_is_listed_witness :
  let e :=
    request_of (Some "u_staff")
      (Some (literal ∅ [("projectId", Some (JStr "proj_1"));
                        ("taskName", Some (JStr "Painting"))])) in
  let e' := request_of (Some "u_staff") None in
  let q := Filters None None None None in
  exists timesheet : json,
    snd (create_timesheet sample_iso e sample_store)
      = success [("timesheet", Some timesheet)] /\
    snd (get_timesheets sample_parse sample_parse q e'
           (fst (create_timesheet sample_iso e sample_store)))
      = json_ok (JArr [sample_timesheet; timesheet]).
Proof.
  intros e e' q.
  destruct (created_timesheet_is_listed
              sample_iso sample_parse sample_parse e e' q "u_staff"
              (literal ∅ [("projectId", Some (JStr "proj_1"));
                          ("taskName", Some (JStr "Painting"))])
              [JStr "ts_1"] sample_store
              eq_refl eq_refl eq_refl ltac:(discriminate)
              eq_refl eq_refl eq_refl eq_refl)
    as (earlier & timesheet & Hbefore & Hcreated & Hafter).
  { repeat constructor. discriminate. }
  assert (Hlist : get_timesheets sample_parse sample_parse q e' sample_store
                  = (sample_store, json_ok (JArr [sample_timesheet])))
    by reflexivity.
  assert (Hearlier : earlier = [sample_timesheet])
    by (rewrite Hlist in Hbefore; unfold json_ok in Hbefore; congruence).
  exists timesheet. split; [exact Hcreated|]. by rewrite Hafter, Hearlier.
Defined.

(** The staff member lists the own entries of the sample project. *)
Lemma timesheet_listings_respect_filters_witness :
  let q := Filters None None None (Some "proj_1") in
  let e := request_of (Some "u_staff") None in
  snd (get_timesheets sample_parse sample_parse q e sample_store)
    = json_ok (JArr [sample_timesheet]) /\
  prop sample_timesheet "projectId" = Some (JStr "proj_1").
Proof.
  intros q e. split; [reflexivity|].
  destruct (timesheet_listings_respect_filters
              sample_parse sample_parse q e sample_store [sample_timesheet])
    as [Hown _].
  destruct (Hown eq_refl sample_timesheet (or_introl eq_refl))
    as [_ Hproject].
  exact (Hproject eq_refl).
Defined.

(** The staff member renames themselves and reads the profile back. *)
Lemma update_me_then_get_me_witness :
  let e :=
    request_of (Some "u_staff")
      (Some (literal ∅ [("name", Some (JStr "Samuel"))])) in
  let e' := request_of (Some "u_staff") None in
  exists profile : json,
    snd (update_me e sample_store) = success [("user", Some profile)] /\
    snd (get_me e' (fst (update_me e sample_store))) = json_ok profile.
Proof.
  intros e e'.
  destruct (update_me_then_get_me e e' "u_staff"
              (literal ∅ [("name", Some (JStr "Samuel"))]) sample_staff
              sample_store eq_refl eq_refl eq_refl eq_refl eq_refl)
    as (profile & Hput & Hget).
  exists profile. split; [exact Hput|]. by rewrite Hget.
Defined.

(** The admin makes the staff member an admin of another organization:
    the index of the users of the sample organization is not touched. *)
Lemma update_routes_write_one_key_witness :
  let e :=
    request_of (Some "u_admin")
      (Some (literal ∅ [("role", Some (JStr "admin"));
                        ("orgId", Some (JStr "org_2"))])) in
  fst (serve sample_iso sample_parse sample_parse sample_add_days
         (UpdateUser "u_staff") e sample_store) !! "org-users:org_1"
    = Some (JArr [JStr "u_admin"; JStr "u_staff"]).
Proof.
  intros e.
  rewrite (update_routes_write_one_key
             sample_iso sample_parse sample_parse sample_add_days
             (UpdateUser "u_staff") e "users:u_staff" "org-users:org_1"
             sample_store eq_refl ltac:(discriminate)).
  reflexivity.
Defined.
